(** * node-ethernet-ip: atomic type codec and tag state

    A shallow embedding of [src/template/atomics/index.js] (the table of
    primitive-type templates) and of the [Tag] class (address parsing, staged
    and controller values, write requests), with the properties the
    specification states about them.

    JavaScript values are embedded as follows.
    - A [Buffer] is a list of bytes; an accessor that Node rejects (offset out
      of range or not an integer, value out of range) returns [Throw].
    - A Number holding an integer is a [Z]; the 32-bit operators [<<], [&],
      [|] and [~] are written out with their conversion to a signed 32-bit
      integer.
    - A Number that need not be an integer is an IEEE-754 decomposition
      ([spec_float]) in double precision.
    - Code that can throw returns in the [result] monad. *)

From Stdlib Require Import ZArith List String Ascii Bool Lia.
From Stdlib Require Import DecimalString DecimalPos DecimalZ.
From Stdlib.Strings Require Import Byte.
From Stdlib Require Import SpecFloat.
From stdpp Require Import base option list.

Local Open Scope Z_scope.
Set Warnings "-register-all".

(** ** Exceptions *)

Inductive exn : Type :=
| RangeError                    (* ERR_OUT_OF_RANGE, ERR_BUFFER_OUT_OF_BOUNDS *)
| TypeError
| Error (message : string).     (* [throw new Error(message)] in the sources *)

Inductive result (A : Type) : Type :=
| Ok (a : A)
| Throw (e : exn).

Arguments Ok {A} a.
Arguments Throw {A} e.

#[global] Instance result_ret : MRet result := fun A a => Ok a.
#[global] Instance result_bind : MBind result := fun A B f m =>
  match m with
  | Ok a => f a
  | Throw e => Throw e
  end.

#[global] Instance result_fmap : FMap result := fun A B f m =>
  match m with
  | Ok a => Ok (f a)
  | Throw e => Throw e
  end.

Definition is_Ok {A} (r : result A) : bool :=
  match r with Ok _ => true | Throw _ => false end.

(** ** Signed 32-bit arithmetic of JavaScript *)

Module JS.

(** [ToInt32]: reduction modulo 2^32 into -2^31 .. 2^31 - 1. *)
Definition ToInt32 (z : Z) : Z := (z + 2 ^ 31) mod 2 ^ 32 - 2 ^ 31.

(** [a << k]: the shift count is taken modulo 32. *)
Definition shl (a k : Z) : Z := ToInt32 (Z.shiftl (ToInt32 a) (k mod 32)).

(** [a & b], [a | b], [~a]. *)
Definition and (a b : Z) : Z := Z.land (ToInt32 a) (ToInt32 b).
Definition or (a b : Z) : Z := Z.lor (ToInt32 a) (ToInt32 b).
Definition not (a : Z) : Z := Z.lnot (ToInt32 a).

(** [a % b] on integers: the remainder has the sign of the dividend. *)
Definition rem (a b : Z) : Z := Z.rem a b.

End JS.

(** ** Node's Buffer *)

Abbreviation Buffer := (list byte).

(** A Number used as a byte offset: [Some i] when it is the integer [i],
    [None] when it has a fractional part (every accessor rejects it). *)
Definition index : Type := option Z.

Module Buf.

(** [Buffer.alloc(n)]: [n] zero bytes. *)
Definition alloc (n : nat) : Buffer := replicate n x00.

Definition u8 (b : byte) : Z := Z.of_N (Byte.to_N b).

(** The byte holding [z] modulo 256, as a typed-array store does. *)
Definition byte_of (z : Z) : byte :=
  match Byte.of_N (Z.to_N (z mod 256)) with
  | Some b => b
  | None => x00
  end.

(** [n] little-endian bytes of [z] (modulo 2^(8n)). *)
Fixpoint le_bytes (n : nat) (z : Z) : list byte :=
  match n with
  | O => []
  | S n' => byte_of z :: le_bytes n' (z / 256)
  end.

(** The unsigned value of little-endian bytes. *)
Fixpoint le_value (bs : list byte) : Z :=
  match bs with
  | [] => 0
  | b :: bs' => u8 b + 256 * le_value bs'
  end.

(** Reinterpretation of an unsigned [w]-bit value as a signed one. *)
Definition signed (w : Z) (u : Z) : Z :=
  if u <? 2 ^ (w - 1) then u else u - 2 ^ w.

(** The bounds check shared by every accessor: [n] bytes at [offset]. *)
Definition in_bounds (data : Buffer) (offset : index) (n : nat) : bool :=
  match offset with
  | Some i => (0 <=? i) && (i + Z.of_nat n <=? Z.of_nat (length data))
  | None => false
  end.

Definition read_bytes (data : Buffer) (offset : index) (n : nat) : result (list byte) :=
  if in_bounds data offset n
  then Ok (take n (drop (Z.to_nat (default 0 offset)) data))
  else Throw RangeError.

Definition write_bytes (bs : list byte) (offset : index) (data : Buffer) : result Buffer :=
  if in_bounds data offset (length bs)
  then let i := Z.to_nat (default 0 offset) in
       Ok (take i data ++ bs ++ drop (i + length bs) data)
  else Throw RangeError.

(** [readUIntN] / [readIntN], little endian. *)
Definition readUInt (n : nat) (data : Buffer) (offset : index) : result Z :=
  bs ← read_bytes data offset n; mret (le_value bs).

Definition readInt (n : nat) (data : Buffer) (offset : index) : result Z :=
  bs ← read_bytes data offset n; mret (signed (8 * Z.of_nat n) (le_value bs)).

(** [writeUIntN] / [writeIntN] of an integer: the value is checked against
    the type's range first, the offset second. *)
Definition check_range (lo hi value : Z) : result Z :=
  if (lo <=? value) && (value <=? hi) then Ok value else Throw RangeError.

Definition umax (n : nat) : Z := 2 ^ (8 * Z.of_nat n) - 1.
Definition imin (n : nat) : Z := - 2 ^ (8 * Z.of_nat n - 1).
Definition imax (n : nat) : Z := 2 ^ (8 * Z.of_nat n - 1) - 1.

Definition writeUInt (n : nat) (value : Z) (offset : index) (data : Buffer) : result Buffer :=
  v ← check_range 0 (umax n) value; write_bytes (le_bytes n v) offset data.

Definition writeInt (n : nat) (value : Z) (offset : index) (data : Buffer) : result Buffer :=
  v ← check_range (imin n) (imax n) value; write_bytes (le_bytes n v) offset data.

End Buf.

Example le_bytes_example : Buf.le_bytes 2 65527 = [xf7; xff].
Proof. reflexivity. Qed.

(** ** The atomic templates ([src/template/atomics/index.js]) *)

Module Atomics.

(** The type codes the table is keyed by (their numeric values live in
    [enip/cip/data-types], outside these sources, and play no role here). *)
Inductive TypeCode : Type :=
| BOOL | SINT | USINT | INT | UINT | WORD | DINT | UDINT
| LINT | REAL | LREAL | TIME | TIME_NSEC.

(** The JavaScript values a template is handed or returns. *)
Inductive Value : Type :=
| VUndefined
| VBool (b : bool)
| VInt (n : Z)                      (* a Number with an integer value *)
| VFloat (x : spec_float)           (* a Number as a binary64 decomposition *)
| VBigInt (n : Z)
| VLowHigh (low high : Z).          (* the object [{low, high}] *)

(** [value ? _ : _] *)
Definition truthy (v : Value) : bool :=
  match v with
  | VUndefined => false
  | VBool b => b
  | VInt n => negb (n =? 0)
  | VFloat (S754_zero _) | VFloat S754_nan => false
  | VFloat _ => true
  | VBigInt n => negb (n =? 0)
  | VLowHigh _ _ => true
  end.

(** [value.low], [value.high] of a value that is not undefined *)
Definition get_low (v : Value) : Value :=
  match v with VLowHigh low _ => VInt low | _ => VUndefined end.
Definition get_high (v : Value) : Value :=
  match v with VLowHigh _ high => VInt high | _ => VUndefined end.

(** A Number: an integer, or a binary64 decomposition. *)
Inductive Num : Type :=
| NZ (z : Z)
| NF (x : spec_float).

(** [+value], the first step of every numeric [write]: a BigInt is refused,
    [undefined] and a plain object give NaN. *)
Definition ToNumber (v : Value) : result Num :=
  match v with
  | VUndefined => Ok (NF S754_nan)
  | VBool b => Ok (NZ (Z.b2z b))
  | VInt n => Ok (NZ n)
  | VFloat x => Ok (NF x)
  | VBigInt _ => Throw TypeError
  | VLowHigh _ _ => Ok (NF S754_nan)
  end.

(** [checkInt]'s [value > max || value < min] followed by the typed-array
    store, which truncates: the integer that ends up in the bytes. NaN passes
    the comparison and is stored as 0. *)
Definition stored_int (lo hi : Z) (x : Num) : result Z :=
  match x with
  | NZ z => Buf.check_range lo hi z
  | NF S754_nan => Ok 0
  | NF (S754_zero _) => Buf.check_range lo hi 0
  | NF (S754_infinity _) => Throw RangeError
  | NF (S754_finite s m e) =>
      let sm := cond_Zopp s (Zpos m) in
      if 0 <=? e then Buf.check_range lo hi (sm * 2 ^ e)
      else let d := 2 ^ (- e) in
           if (lo * d <=? sm) && (sm <=? hi * d) then Ok (Z.quot sm d)
           else Throw RangeError
  end.

Definition writeUInt (n : nat) (value : Value) (offset : index) (data : Buffer)
  : result Buffer :=
  x ← ToNumber value;
  v ← stored_int 0 (Buf.umax n) x;
  Buf.write_bytes (Buf.le_bytes n v) offset data.

Definition writeInt (n : nat) (value : Value) (offset : index) (data : Buffer)
  : result Buffer :=
  x ← ToNumber value;
  v ← stored_int (Buf.imin n) (Buf.imax n) x;
  Buf.write_bytes (Buf.le_bytes n v) offset data.

(** *** Single precision *)

(** The nearest binary32 number, as a [Float32Array] store computes it. *)
Definition binary32_of_Num (x : Num) : spec_float :=
  match x with
  | NZ z => binary_normalize 24 128 z 0 false
  | NF (S754_finite s m e) => binary_normalize 24 128 (cond_Zopp s (Zpos m)) e s
  | NF y => y
  end.

(** The same number in double precision (exact). *)
Definition binary64_of_binary32 (x : spec_float) : spec_float :=
  match x with
  | S754_finite s m e => binary_normalize 53 1024 (cond_Zopp s (Zpos m)) e s
  | y => y
  end.

(** The IEEE-754 interchange encoding of a binary32 number. *)
Definition sign_bit (s : bool) : Z := if s then 2 ^ 31 else 0.

Definition bits_of_binary32 (x : spec_float) : Z :=
  match x with
  | S754_zero s => sign_bit s
  | S754_infinity s => sign_bit s + 255 * 2 ^ 23
  | S754_nan => 255 * 2 ^ 23 + 2 ^ 22
  | S754_finite s m e =>
      if 2 ^ 23 <=? Zpos m
      then sign_bit s + (e + 150) * 2 ^ 23 + (Zpos m - 2 ^ 23)
      else sign_bit s + Zpos m
  end.

Definition binary32_of_bits (b : Z) : spec_float :=
  let s := 2 ^ 31 <=? b in
  let e := (b / 2 ^ 23) mod 256 in
  let m := b mod 2 ^ 23 in
  if e =? 0 then
    match m with
    | Zpos p => S754_finite s p (-149)
    | _ => S754_zero s
    end
  else if e =? 255 then
    (if m =? 0 then S754_infinity s else S754_nan)
  else
    match m + 2 ^ 23 with
    | Zpos p => S754_finite s p (e - 150)
    | _ => S754_nan
    end.

Definition writeFloatLE (value : Value) (offset : index) (data : Buffer) : result Buffer :=
  x ← ToNumber value;
  Buf.write_bytes (Buf.le_bytes 4 (bits_of_binary32 (binary32_of_Num x))) offset data.

Definition readFloatLE (data : Buffer) (offset : index) : result Value :=
  bs ← Buf.read_bytes data offset 4;
  mret (VFloat (binary64_of_binary32 (binary32_of_bits (Buf.le_value bs)))).

(** *** 64-bit unsigned BigInt *)

(** [writeBigUInt64LE]: range and bounds are checked first; a value that is
    not a BigInt then fails in [value & 0xffffffffn]. *)
Definition writeBigUInt64LE (value : Value) (offset : index) (data : Buffer)
  : result Buffer :=
  match value with
  | VBigInt n =>
      v ← Buf.check_range 0 (Buf.umax 8) n;
      Buf.write_bytes (Buf.le_bytes 8 v) offset data
  | VInt n =>
      _ ← Buf.check_range 0 (Buf.umax 8) n;
      _ ← Buf.read_bytes data offset 8; Throw TypeError
  | VFloat x =>
      _ ← stored_int 0 (Buf.umax 8) (NF x);
      _ ← Buf.read_bytes data offset 8; Throw TypeError
  | VUndefined | VBool _ | VLowHigh _ _ =>
      _ ← Buf.read_bytes data offset 8; Throw TypeError
  end.

Definition readBigUInt64LE (data : Buffer) (offset : index) : result Z :=
  Buf.readUInt 8 data offset.

(** [Number(bigint)]: the nearest double. *)
Definition Number_of_BigInt (n : Z) : spec_float := binary_normalize 53 1024 n 0 false.

(** [x / y] on doubles. *)
Definition Number_div (x y : spec_float) : spec_float := SFdiv 53 1024 x y.

(** The literal [1000000000]. *)
Definition nanoseconds_per_second : spec_float :=
  binary_normalize 53 1024 1000000000 0 false.

(** *** Offsets *)

(** [offset / 8]: an integer only on a byte boundary. *)
Definition div8 (offset : Z) : index :=
  if Z.rem offset 8 =? 0 then Some (Z.quot offset 8) else None.

(** [offset / 8 + 4] *)
Definition plus4 (i : index) : index := (fun z => z + 4) <$> i.

(** *** The table *)

Record Template : Type := {
  size : Z;
  alignment : option Z;
  consecutive_alignment : option Z;
  size_multiple : option Z;
  serialize : Value -> option Buffer -> option Z -> result Buffer;
  deserialize : option Buffer -> option Z -> result Value
}.

(** The common shape of the entries that write or read one fixed-width
    field at [offset / 8]; [n] is the size of the default buffer
    [Buffer.alloc(n)]. *)
Definition serialize_at (n : nat) (write : Value -> index -> Buffer -> result Buffer)
  : Value -> option Buffer -> option Z -> result Buffer :=
  fun value data offset =>
    write value (div8 (default 0 offset)) (default (Buf.alloc n) data).

Definition deserialize_at (n : nat) (read : Buffer -> index -> result Z)
  : option Buffer -> option Z -> result Value :=
  fun data offset =>
    VInt <$> read (default (Buf.alloc n) data) (div8 (default 0 offset)).

Definition BOOL_serialize (value : Value) (data : option Buffer) (offset : option Z)
  : result Buffer :=
  let data := default (Buf.alloc 1) data in
  let offset := default 0 offset in
  let bit_offset := JS.rem offset 8 in
  let byte_offset := Some ((offset - bit_offset) / 8) in
  byte_value ← Buf.readUInt 1 data byte_offset;
  Buf.writeUInt 1
    (if truthy value
     then JS.or byte_value (JS.shl 1 bit_offset)
     else JS.and byte_value (JS.and 255 (JS.not (JS.shl 1 bit_offset))))
    byte_offset data.

Definition BOOL_deserialize (data : option Buffer) (offset : option Z) : result Value :=
  let data := default (Buf.alloc 1) data in
  let offset := default 0 offset in
  let bit_offset := JS.rem offset 8 in
  let byte_offset := Some ((offset - bit_offset) / 8) in
  b ← Buf.readInt 1 data byte_offset;
  mret (VBool (negb (JS.and b (JS.shl 1 bit_offset) =? 0))).

Definition SINT_deserialize (data : option Buffer) (offset : option Z) : result Value :=
  let data := default (Buf.alloc 1) data in
  let offset := default 0 offset in
  (* offsetBytes >= data.length, with offsetBytes = offset / 8 *)
  if 8 * Z.of_nat (length data) <=? offset then Ok (VInt 0)
  else VInt <$> Buf.readInt 1 data (div8 offset).

Definition LINT_serialize (value : Value) (data : option Buffer) (offset : option Z)
  : result Buffer :=
  let data := default (Buf.alloc 8) data in
  let offset := default 0 offset in
  match value with
  | VUndefined => Throw TypeError (* [value.low] of undefined *)
  | _ =>
      data ← writeInt 4 (get_low value) (div8 offset) data;
      writeInt 4 (get_high value) (plus4 (div8 offset)) data
  end.

Definition LINT_deserialize (data : option Buffer) (offset : option Z) : result Value :=
  let data := default (Buf.alloc 8) data in
  let offset := default 0 offset in
  low ← Buf.readInt 4 data (div8 offset);
  high ← Buf.readInt 4 data (plus4 (div8 offset));
  mret (VLowHigh low high).

Definition TIME_deserialize (data : option Buffer) (offset : option Z) : result Value :=
  let data := default (Buf.alloc 8) data in
  let offset := default 0 offset in
  n ← readBigUInt64LE data (div8 offset);
  let number := Number_of_BigInt n in
  mret (VFloat (Number_div number nanoseconds_per_second)). (* nano seconds in seconds *)

Definition REAL_deserialize (data : option Buffer) (offset : option Z) : result Value :=
  readFloatLE (default (Buf.alloc 4) data) (div8 (default 0 offset)).

Definition templates (t : TypeCode) : Template :=
  match t with
  | BOOL =>
      {| size := 1; alignment := Some 16; consecutive_alignment := Some 1;
         size_multiple := None;
         serialize := BOOL_serialize; deserialize := BOOL_deserialize |}
  | SINT =>
      {| size := 8; alignment := Some 8; consecutive_alignment := None;
         size_multiple := None;
         serialize := serialize_at 1 (writeInt 1); deserialize := SINT_deserialize |}
  | USINT =>
      {| size := 8; alignment := Some 8; consecutive_alignment := None;
         size_multiple := None;
         serialize := serialize_at 1 (writeUInt 1);
         deserialize := deserialize_at 1 (Buf.readUInt 1) |}
  | INT =>
      {| size := 16; alignment := Some 16; consecutive_alignment := None;
         size_multiple := None;
         serialize := serialize_at 2 (writeInt 2);
         deserialize := deserialize_at 2 (Buf.readInt 2) |}
  | UINT | WORD =>
      {| size := 16; alignment := Some 16; consecutive_alignment := None;
         size_multiple := None;
         serialize := serialize_at 2 (writeUInt 2);
         deserialize := deserialize_at 2 (Buf.readUInt 2) |}
  | DINT =>
      {| size := 32; alignment := None; consecutive_alignment := None;
         size_multiple := None;
         serialize := serialize_at 4 (writeInt 4);
         deserialize := deserialize_at 4 (Buf.readInt 4) |}
  | UDINT =>
      {| size := 32; alignment := None; consecutive_alignment := None;
         size_multiple := None;
         serialize := serialize_at 4 (writeUInt 4);
         deserialize := deserialize_at 4 (Buf.readUInt 4) |}
  | LINT | LREAL =>
      {| size := 64; alignment := Some 64; consecutive_alignment := None;
         size_multiple := Some 64;
         serialize := LINT_serialize; deserialize := LINT_deserialize |}
  | REAL =>
      {| size := 32; alignment := None; consecutive_alignment := None;
         size_multiple := None;
         serialize := serialize_at 4 writeFloatLE; deserialize := REAL_deserialize |}
  | TIME | TIME_NSEC =>
      {| size := 64; alignment := Some 64; consecutive_alignment := None;
         size_multiple := Some 64;
         serialize := serialize_at 8 writeBigUInt64LE; deserialize := TIME_deserialize |}
  end.

End Atomics.

(** ** JavaScript numbers and strings as the tag code uses them *)

Module Num.

Local Open Scope string_scope.
Local Open Scope Z_scope.

Definition is_digit (c : ascii) : bool :=
  let n := N_of_ascii c in ((48 <=? n) && (n <=? 57))%N.

Definition digit_value (c : ascii) : Z := Z.of_N (N_of_ascii c) - 48.

(** The value of a string of decimal digits. *)
Definition decimal_value (s : string) : Z :=
  fold_left (fun acc c => 10 * acc + digit_value c) (list_ascii_of_string s) 0.

Definition all_digits (s : string) : bool :=
  forallb is_digit (list_ascii_of_string s).

(** [s % 1 === 0] for a token [s] of a tag name that passed
    [isValidTagname]: such a token is a run of digits, or it holds a letter,
    an underscore, a colon or a bracket, and then [ToNumber] gives NaN. *)
Definition is_integer (s : string) : bool :=
  negb (String.eqb s "") && all_digits s.

(** The integer-valued double nearest to [z >= 0], ties to even: what a
    Number holds after a conversion or an arithmetic operation whose exact
    result is [z]. Below 2^53 every integer is a double. *)
Definition round_to_double (z : Z) : Z :=
  if z <? 2 ^ 53 then z
  else
    let e := Z.log2 z - 52 in
    let q := z / 2 ^ e in
    let r := z mod 2 ^ e in
    let half := 2 ^ (e - 1) in
    let q' := if r <? half then q
              else if half <? r then q + 1
              else if Z.even q then q else q + 1 in
    q' * 2 ^ e.

(** [parseInt(s)] for a token with [is_integer s]. *)
Definition parseInt (s : string) : Z := round_to_double (decimal_value s).

(** The decimal digits of an integer, with [-] for a negative one. *)
Definition decimal (z : Z) : string := NilZero.string_of_int (Z.to_int z).

Definition digits10 (z : Z) : Z := Z.of_nat (String.length (decimal z)).

(** [Number::toString] of a double [x >= 2^53]: the least [k] and the digits
    [s] ([k] of them) such that [s * 10^(n-k)] rounds to [x]; of two such [s]
    the closer one, the even one on a tie. [n] is the position of the decimal
    point. *)
Definition candidates (x n k : Z) : list (Z * Z) :=
  let p := 10 ^ (n - k) in
  let lo := x / p in
  let up := if lo + 1 <? 10 ^ k then (lo + 1, n) else (10 ^ (k - 1), n + 1) in
  List.filter (fun sn => round_to_double (fst sn * 10 ^ (snd sn - k)) =? x) [(lo, n); up].

Definition closest (x k : Z) (cs : list (Z * Z)) : option (Z * Z) :=
  match cs with
  | [] => None
  | [c] => Some c
  | c1 :: c2 :: _ =>
      let d1 := Z.abs (fst c1 * 10 ^ (snd c1 - k) - x) in
      let d2 := Z.abs (fst c2 * 10 ^ (snd c2 - k) - x) in
      Some (if d1 <? d2 then c1 else if d2 <? d1 then c2
            else if Z.even (fst c1) then c1 else c2)
  end.

Fixpoint shortest (x n k : Z) (fuel : nat) : Z * Z * Z :=
  match fuel with
  | O => (x, n, n)
  | S fuel' =>
      match closest x k (candidates x n k) with
      | Some (s, n') => (s, n', k)
      | None => shortest x n (k + 1) fuel'
      end
  end.

Definition zeros (n : Z) : string := string_of_list_ascii (repeat "0"%char (Z.to_nat n)).

(** [x.toString()] for a double [x >= 0] with an integer value. *)
Definition toString (x : Z) : string :=
  if x <? 2 ^ 53 then decimal x
  else
    let n := digits10 x in
    let '(s, n, k) := shortest x n 1 (Z.to_nat (Z.min n 17)) in
    if n <=? 21 then decimal s ++ zeros (n - k)
    else
      match decimal s with
      | String d EmptyString => String d "e+" ++ decimal (n - 1)
      | String d rest => String d (String "."%char rest) ++ "e+" ++ decimal (n - 1)
      | EmptyString => EmptyString
      end.

(** *** Doubles that are not integers *)

(** Every finite double is a multiple of 2^-1074, the least positive
    double, by an integer of at most 53 significant bits. [round53 p q] is
    the integer of at most 53 significant bits nearest to [p / q], ties to
    even, for [p >= 0] and [q > 0]. *)
Definition round53 (p q : Z) : Z :=
  let q0 := p / q in
  let e := if q0 <? 2 ^ 53 then 0 else Z.log2 q0 - 52 in
  let d := q * 2 ^ e in
  let a := p / d in
  let r := p mod d in
  let a' := if 2 * r <? d then a
            else if d <? 2 * r then a + 1
            else if Z.even a then a else a + 1 in
  a' * 2 ^ e.

(** The double nearest to [p / q], in units of 2^-1074. *)
Definition nearest_double (p q : Z) : Z :=
  if q =? 1 then round_to_double p * 2 ^ 1074 else round53 (p * 2 ^ 1074) q.

(** The value [s * 10^(n-k)] of the [k] digits [s] with the decimal point
    at [n], as a fraction. *)
Definition numerator (s n : Z) : Z := s * 10 ^ Z.max (n - digits10 s) 0.
Definition denominator (s n : Z) : Z := 10 ^ Z.max (digits10 s - n) 0.

(** The position [n] of the decimal point of [x = M / 2^E]:
    [10^(n-1) <= x < 10^n]. *)
Definition point (M E : Z) : Z :=
  if 2 ^ E <=? M then digits10 (M / 2 ^ E) else 1 - digits10 ((2 ^ E - 1) / M).

(** [s * 10^(n-k)] rounds to [M / 2^E]. *)
Definition is_nearest (M E s n : Z) : bool :=
  nearest_double (numerator s n) (denominator s n) * 2 ^ E =? M * 2 ^ 1074.

(** The two [k]-digit decimals around [M / 2^E], those of them that round
    to it. *)
Definition fraction_candidates (M E n k : Z) : list (Z * Z) :=
  let lo := (M * 10 ^ Z.max (k - n) 0) / (2 ^ E * 10 ^ Z.max (n - k) 0) in
  let up := if lo + 1 <? 10 ^ k then (lo + 1, n) else (10 ^ (k - 1), n + 1) in
  List.filter (fun sn => is_nearest M E (fst sn) (snd sn)) [(lo, n); up].

(** The distance of a decimal from [M / 2^E], times [2^E], as a fraction. *)
Definition distance (M E : Z) (c : Z * Z) : Z * Z :=
  (Z.abs (numerator (fst c) (snd c) * 2 ^ E - M * denominator (fst c) (snd c)),
   denominator (fst c) (snd c)).

Definition fraction_closest (M E : Z) (cs : list (Z * Z)) : option (Z * Z) :=
  match cs with
  | [] => None
  | [c] => Some c
  | c1 :: c2 :: _ =>
      let '(a1, b1) := distance M E c1 in
      let '(a2, b2) := distance M E c2 in
      Some (if a1 * b2 <? a2 * b1 then c1 else if a2 * b1 <? a1 * b2 then c2
            else if Z.even (fst c1) then c1 else c2)
  end.

(** The least [k] with a [k]-digit decimal that rounds to [M / 2^E]; 17
    digits are enough for a double, and [M * 5^E / 10^E] is [M / 2^E]
    itself. *)
Fixpoint fraction_shortest (M E n k : Z) (fuel : nat) : Z * Z :=
  match fuel with
  | O => let s := M * 5 ^ E in (s, digits10 s - E)
  | S fuel' =>
      match fraction_closest M E (fraction_candidates M E n k) with
      | Some c => c
      | None => fraction_shortest M E n (k + 1) fuel'
      end
  end.

Fixpoint split_at (n : nat) (s : string) : string * string :=
  match n, s with
  | S n', String c s' => let '(a, b) := split_at n' s' in (String c a, b)
  | _, _ => (EmptyString, s)
  end.

(** The digits with an exponent: [d.ddde+x], [de-x]. *)
Definition exponential (s n : Z) : string :=
  let e := n - 1 in
  let exponent := String (if e <? 0 then "-"%char else "+"%char) (decimal (Z.abs e)) in
  match decimal s with
  | String d EmptyString => String d "e" ++ exponent
  | String d rest => String d (String "."%char rest) ++ "e" ++ exponent
  | EmptyString => EmptyString
  end.

(** The text of the digits [s] with the decimal point at [n], as
    [Number::toString] lays it out: the digits and zeros up to the point,
    the digits with the point among them, [0.] and zeros and the digits, or
    the digits with an exponent. *)
Definition render (s n : Z) : string :=
  let k := digits10 s in
  if (k <=? n) && (n <=? 21) then decimal s ++ zeros (n - k)
  else if (0 <? n) && (n <=? 21) then
    let '(whole, part) := split_at (Z.to_nat n) (decimal s) in
    whole ++ String "."%char part
  else if (-6 <? n) && (n <=? 0) then "0." ++ zeros (- n) ++ decimal s
  else exponential s n.

(** [x.toString()] for a double [x = M / 2^E > 0] that is not an integer:
    [M] odd and [E >= 1]. *)
Definition fraction_toString (M E : Z) : string :=
  let '(s, n) := fraction_shortest M E (point M E) 1 17 in
  render s n.

End Num.

(** ** The values a tag holds, and [JSON.stringify] *)

Module Json.

Local Open Scope string_scope.
Local Open Scope Z_scope.

(** A Number: a double with an integer value, a double that is not an
    integer, the negative zero, NaN, or an infinity. A double that is not
    an integer is an odd number over a power of two, in one way only:
    [Fraction negative m e] is [(2 * m + 1) / 2^(e + 1)], or its opposite. *)
Inductive Number : Type :=
| Finite (z : Z)
| Fraction (negative : bool) (m e : N)
| NegZero
| NaN
| Infinity (negative : bool).

(** null, booleans, numbers, strings, arrays, and objects with their own
    properties in enumeration order. *)
Inductive Value : Type :=
| Null
| Bool (b : bool)
| Num (n : Number)
| Str (s : string)
| Array (items : list Value)
| Object (members : list (string * Value)).

Definition hex_digit (n : N) : ascii :=
  ascii_of_N (if (n <? 10)%N then 48 + n else 87 + n).

Definition quote_char : ascii := "034"%char.
Definition backslash : ascii := "092"%char.

(** [QuoteJSONString], one code unit at a time. *)
Definition escape (c : ascii) : string :=
  let n := N_of_ascii c in
  if (n =? 34)%N then String backslash (String quote_char "")
  else if (n =? 92)%N then String backslash (String backslash "")
  else if (n =? 8)%N then String backslash "b"
  else if (n =? 12)%N then String backslash "f"
  else if (n =? 10)%N then String backslash "n"
  else if (n =? 13)%N then String backslash "r"
  else if (n =? 9)%N then String backslash "t"
  else if (n <? 32)%N then
    String backslash ("u00" ++ String (hex_digit (n / 16)) (String (hex_digit (n mod 16)) ""))
  else String c "".

Fixpoint escape_all (s : string) : string :=
  match s with
  | EmptyString => EmptyString
  | String c s' => escape c ++ escape_all s'
  end.

Definition quote (s : string) : string :=
  String quote_char (escape_all s ++ String quote_char "").

Definition number_text (n : Number) : string :=
  match n with
  | Finite z => if z <? 0 then "-" ++ Num.toString (- z) else Num.toString z
  | Fraction negative m e =>
      let text := Num.fraction_toString (2 * Z.of_N m + 1) (Z.of_N e + 1) in
      if negative then "-" ++ text else text
  | NegZero => "0"
  | NaN | Infinity _ => "null"
  end.

Fixpoint join (parts : list string) : string :=
  match parts with
  | [] => ""
  | [p] => p
  | p :: rest => p ++ "," ++ join rest
  end.

(** [JSON.stringify(value)] *)
Fixpoint stringify (v : Value) : string :=
  match v with
  | Null => "null"
  | Bool true => "true"
  | Bool false => "false"
  | Num n => number_text n
  | Str s => quote s
  | Array items => "[" ++ join (map stringify items) ++ "]"
  | Object members =>
      "{" ++ join (map (fun kv => quote (fst kv) ++ ":" ++ stringify (snd kv)) members) ++ "}"
  end.

(** [value ? _ : _] *)
Definition truthy (v : Value) : bool :=
  match v with
  | Null => false
  | Bool b => b
  | Num (Finite z) => negb (z =? 0)
  | Num (Fraction _ _ _) => true
  | Num NegZero => false
  | Num NaN => false
  | Num (Infinity _) => true
  | Str s => negb (String.eqb s "")
  | Array _ | Object _ => true
  end.

End Json.

(** ** Regular expressions *)

Module Regex.

(** The patterns of [isValidTagname] use character classes, concatenation,
    alternation, [?], [*], [+] and bounded repetition, all anchored with
    [^ ... $]; [test] then decides membership of the whole string in the
    pattern's language, which the derivative of the pattern computes. *)
Inductive re : Type :=
| Void                                  (* matches nothing *)
| Eps                                   (* the empty string *)
| Class (p : ascii -> bool)             (* one character satisfying [p] *)
| Seq (r s : re)
| Alt (r s : re)
| Star (r : re).

Definition lit (c : ascii) : re := Class (Ascii.eqb c).

Fixpoint str (s : string) : re :=
  match s with
  | EmptyString => Eps
  | String c s' => Seq (lit c) (str s')
  end.

Definition opt (r : re) : re := Alt r Eps.
Definition plus (r : re) : re := Seq r (Star r).

Fixpoint nullable (r : re) : bool :=
  match r with
  | Void => false
  | Eps => true
  | Class _ => false
  | Seq r s => nullable r && nullable s
  | Alt r s => nullable r || nullable s
  | Star _ => true
  end.

Definition seq (r s : re) : re :=
  match r, s with
  | Void, _ | _, Void => Void
  | Eps, _ => s
  | _, _ => Seq r s
  end.

Definition alt (r s : re) : re :=
  match r, s with
  | Void, _ => s
  | _, Void => r
  | _, _ => Alt r s
  end.

Fixpoint deriv (c : ascii) (r : re) : re :=
  match r with
  | Void | Eps => Void
  | Class p => if p c then Eps else Void
  | Seq r s =>
      if nullable r then alt (seq (deriv c r) s) (deriv c s)
      else seq (deriv c r) s
  | Alt r s => alt (deriv c r) (deriv c s)
  | Star r' => seq (deriv c r') (Star r')
  end.

(** [new RegExp("^" + r + "$").test(s)] *)
Fixpoint test (r : re) (s : string) : bool :=
  match s with
  | EmptyString => nullable r
  | String c s' => test (deriv c r) s'
  end.

(** [s.split(/[...]/)] on a class of separator characters, and [s.split(c)]
    on a one-character separator: the pieces between separators, empty ones
    included. *)
Fixpoint split (sep : ascii -> bool) (s : string) : list string :=
  match s with
  | EmptyString => [EmptyString]
  | String c s' =>
      if sep c then EmptyString :: split sep s'
      else match split sep s' with
           | piece :: rest => String c piece :: rest
           | [] => [String c EmptyString]
           end
  end.

End Regex.

(** ** The tag ([Tag] class) *)

Module Tag.

Local Open Scope string_scope.
Local Open Scope Z_scope.

(** [datatype]: null, a numeric type code, or the name of a structured type. *)
Inductive Datatype : Type :=
| TypeNull
| TypeCode (code : Z)
| TypeName (name : string).

Inductive Service : Type := READ_TAG | WRITE_TAG | READ_MODIFY_WRITE_TAG.

(** A template as the controller resolves it. *)
Record Template : Type := {
  structure_handle : Z;
  serialize : Json.Value -> result Buffer
}.

(** The controller a tag is bound to; [templates] is [None] when the
    property is not set. *)
Record Controller : Type := {
  templates : option (Datatype -> option Template)
}.

(** What the tag code takes from the rest of the library ([enip/cip] and
    Node's [crypto]), none of it in these sources: the type codes it
    compares with, the check of a type code, the encoder of one path
    segment, the builder of a message-router request, and the MD5 digest. *)
Record Env : Type := {
  SINT : Z;
  INT : Z;
  DINT : Z;
  BIT_STRING : Z;
  STRUCT : Z;
  isValidTypeCode : Z -> bool;
  DATA_build : string -> Buffer;
  MessageRouter_build : Service -> Buffer -> Buffer -> Buffer;
  hash : Buffer -> string
}.

(** [this.state.tag] *)
Record TagFields : Type := {
  bitIndex : option Z;
  program : option string;
  name : string;
  type : Datatype;
  value : Json.Value;
  controller : option Controller;
  controllerValue : Json.Value;
  path : Buffer;
  stage_write : bool
}.

(** [this.state]; [timestamp] is a Date, in milliseconds. *)
Record State : Type := {
  tag : TagFields;
  read_size : Z;
  error : option Z * option Z;
  timestamp : Z;
  instance : string;
  keepAlive : Z
}.

Inductive Event : Type :=
| Initialized
| Changed (lastValue : Json.Value)
| KeepAlive.

(** *** isValidTagname *)

Definition is_letter (c : ascii) : bool :=
  let n := N_of_ascii c in
  (((65 <=? n) && (n <=? 90)) || ((97 <=? n) && (n <=? 122)))%N.

Definition is_alnum (c : ascii) : bool := is_letter c || Num.is_digit c.

Section Patterns.

Import Regex.

Let underscore : re := lit "_".
Let digit : re := Class Num.is_digit.

(** [(_?[a-zA-Z]|_\d)(?:(?=(_?[a-zA-Z0-9]))\N)*]. The lookahead followed by
    the back-reference to its capture consumes one [_?[a-zA-Z0-9]]; at any
    position that group can match in one way only, so the construct is the
    plain repetition [(_?[a-zA-Z0-9])*]. *)
Definition nameRegex : re :=
  Seq (Alt (Seq (opt underscore) (Class is_letter)) (Seq underscore digit))
      (Star (Seq (opt underscore) (Class is_alnum))).

(** [(\[\d+(,\d+){0,2}])] *)
Definition multDimArrayRegex : re :=
  let dim := Seq (lit ",") (plus digit) in
  Seq (lit "[") (Seq (plus digit) (Seq (opt (Seq dim (opt dim))) (lit "]"))).

(** [(\[\d+])] *)
Definition arrayRegex : re := Seq (lit "[") (Seq (plus digit) (lit "]")).

(** [(\.\d{1,2})] *)
Definition bitIndexRegex : re := Seq (lit ".") (Seq digit (opt digit)).

Definition userRegex : re :=
  Seq (opt (Seq (str "Program:") (Seq nameRegex (lit "."))))   (* optional program name *)
  (Seq nameRegex
  (Seq (opt multDimArrayRegex)                                   (* tag name *)
  (Seq (Star (Seq (lit ".") (Seq nameRegex (opt arrayRegex))))  (* option member name *)
       (opt bitIndexRegex)))).                                   (* optional bit index *)

Definition moduleRegex : re :=
  Seq nameRegex                                                  (* module name *)
  (Seq (opt (Seq (lit ":") (Seq digit (opt digit))))             (* optional slot num *)
  (Seq (lit ":") (Seq (Class (fun c => Ascii.eqb c "I" || Ascii.eqb c "O" || Ascii.eqb c "C"))
                                                                 (* input/output/config *)
  (Seq (opt (Seq (lit ".") (Seq nameRegex (opt arrayRegex))))   (* optional member *)
       (opt bitIndexRegex))))).                                  (* optional bit index *)

End Patterns.

Definition member_separator (c : ascii) : bool :=
  Ascii.eqb c "." || Ascii.eqb c "[" || Ascii.eqb c "]" || Ascii.eqb c ",".

Definition segment_separator (c : ascii) : bool :=
  Ascii.eqb c ":" || member_separator c.

(** [Tag.isValidTagname(tagname)] for a string. *)
Definition isValidTagname (tagname : string) : bool :=
  if negb (Regex.test userRegex tagname) && negb (Regex.test moduleRegex tagname)
  then false
  else if 0 <? Z.of_nat (length (List.filter (fun segment => 40 <? Z.of_nat (String.length segment))
                                        (Regex.split segment_separator tagname)))
  then false (* check that all segments are <= 40 char *)
  else true.

(** *** Accessors *)

Definition set_tag (f : TagFields -> TagFields) (st : State) : State :=
  {| tag := f (tag st); read_size := read_size st; error := error st;
     timestamp := timestamp st; instance := instance st; keepAlive := keepAlive st |}.

Definition with_name (n : string) (t : TagFields) : TagFields :=
  {| bitIndex := bitIndex t; program := program t; name := n; type := type t;
     value := value t; controller := controller t;
     controllerValue := controllerValue t; path := path t;
     stage_write := stage_write t |}.

Definition with_value (v : Json.Value) (t : TagFields) : TagFields :=
  {| bitIndex := bitIndex t; program := program t; name := name t; type := type t;
     value := v; controller := controller t;
     controllerValue := controllerValue t; path := path t;
     stage_write := stage_write t |}.

Definition with_controllerValue (v : Json.Value) (t : TagFields) : TagFields :=
  {| bitIndex := bitIndex t; program := program t; name := name t; type := type t;
     value := value t; controller := controller t;
     controllerValue := v; path := path t;
     stage_write := stage_write t |}.

Definition with_stage_write (b : bool) (t : TagFields) : TagFields :=
  {| bitIndex := bitIndex t; program := program t; name := name t; type := type t;
     value := value t; controller := controller t;
     controllerValue := controllerValue t; path := path t;
     stage_write := b |}.

Definition with_timestamp (now : Z) (st : State) : State :=
  {| tag := tag st; read_size := read_size st; error := error st;
     timestamp := now; instance := instance st; keepAlive := keepAlive st |}.

(** [get instance_id], [get bitIndex], [get path], [get value],
    [get controller_value], [get write_ready] *)
Definition get_instance_id (st : State) : string := instance st.
Definition get_bitIndex (st : State) : option Z := bitIndex (tag st).
Definition get_path (st : State) : Buffer := path (tag st).
Definition get_value (st : State) : Json.Value := value (tag st).
Definition get_controller_value (st : State) : Json.Value := controllerValue (tag st).
Definition get_write_ready (st : State) : bool := stage_write (tag st).

(** [get name] *)
Definition get_name (st : State) : string :=
  match program (tag st) with
  | None => name (tag st)
  | Some program => "Program:" ++ program ++ "." ++ name (tag st)
  end.

(** [set name(name)] *)
Definition set_name (n : string) (st : State) : result State :=
  if negb (isValidTagname n) then Throw (Error "Tagname Must be of Type <string>")
  else Ok (set_tag (with_name n) st).

(** [set value(newValue)] *)
Definition set_value (newValue : Json.Value) (st : State) : State :=
  set_tag (with_value newValue) (set_tag (with_stage_write true) st).

(** [set controller_value(newValue)]; [now] is what [new Date()] returns
    during the call. The result is the new state with the events emitted,
    in order. *)
Definition set_controller_value (now : Z) (newValue : Json.Value) (st : State)
  : State * list Event :=
  if negb (String.eqb (Json.stringify newValue)
                      (Json.stringify (controllerValue (tag st)))) then
    let lastValue := controllerValue (tag st) in
    let st := set_tag (with_controllerValue newValue) st in
    let st := if negb (stage_write (tag st)) then set_tag (with_value newValue) st else st in
    let st := with_timestamp now st in
    match lastValue with
    | Json.Null => (st, [Initialized])
    | _ => (st, [Changed lastValue])
    end
  else
    if 0 <? keepAlive st then
      if keepAlive st * 1000 <=? now - timestamp st then
        let st := set_tag (with_controllerValue newValue) st in
        let st := if negb (stage_write (tag st)) then set_tag (with_value newValue) st else st in
        let st := with_timestamp now st in
        (st, [KeepAlive])
      else (st, [])
    else (st, []).

(** [unstageWriteRequest()] *)
Definition unstageWriteRequest (st : State) : State :=
  let st := set_tag (with_stage_write false) st in
  set_tag (with_value (controllerValue (tag st))) st.

Section WithEnv.

Variable env : Env.

(** *** The constructor *)

(** The values the constructor derives from the address: the path segments
    and the bit index. [parse_address] is the part of the constructor from
    [pathArr] down to the bit-index checks. *)
Definition pathArr_of (tagname : string) : list string :=
  List.filter (fun segment => 0 <? Z.of_nat (String.length segment))
         (Regex.split member_separator tagname).

Definition memArr_of (tagname : string) : list string :=
  Regex.split (Ascii.eqb ".") tagname.

Definition last_is_integer (tokens : list string) : bool :=
  match last tokens with
  | Some token => Num.is_integer token
  | None => false
  end.

Definition isBitIndex (tagname : string) : bool :=
  (1 <? Z.of_nat (length (memArr_of tagname))) && last_is_integer (memArr_of tagname).

Definition isBitString (tagname : string) (datatype : Datatype) : bool :=
  match datatype with
  | TypeCode code => (code =? BIT_STRING env) && last_is_integer (pathArr_of tagname)
  | _ => false
  end.

Definition parse_address (tagname : string) (datatype : Datatype)
  : result (list string * option Z) :=
  let pathArr := pathArr_of tagname in
  if isBitString tagname datatype && isBitIndex tagname then
    Throw (Error "Tag cannot be defined as a BIT_STRING and have a bit index")
  else if isBitString tagname datatype then
    (* tag[x] converts to tag[(x-x%32)/32].x%32 *)
    let x := Num.parseInt (default "" (last pathArr)) in
    let bitIndex := x mod 32 in
    Ok ((removelast pathArr
           ++ [Num.toString (Num.round_to_double (x - bitIndex) / 32)])%list,
        Some bitIndex)
  else if isBitIndex tagname then
    (* normal bit index handling *)
    let bitIndex := Num.parseInt (default "" (last pathArr)) in
    if (bitIndex <? 0) || (31 <? bitIndex) then
      Throw (Error "Tag bit index must be between 0 and 31")
    else Ok (removelast pathArr, Some bitIndex)
  else Ok (pathArr, None).

(** [if (program) bufArr.push(... `Program:${program}`)]: nothing for null
    and for the empty string. *)
Definition program_segment (program : option string) : list Buffer :=
  match program with
  | Some p => if negb (String.eqb p "") then [DATA_build env ("Program:" ++ p)] else []
  | None => []
  end.

(** [new Tag(tagname, program, datatype, keepAlive)], at time [now]. *)
Definition new (now : Z) (tagname : string) (program : option string)
    (datatype : Datatype) (keepAlive : Z) : result State :=
  if negb (isValidTagname tagname) then Throw (Error "Tagname Must be of Type <string>")
  else if match datatype with
          | TypeCode code => negb (isValidTypeCode env code)
          | _ => false
          end
  then Throw (Error "Datatype must be a Valid Type Code <number> or <string>")
  else if keepAlive <? 0 then Throw (Error "Tag expected keepAlive to be greater than 0")
  else
    '(pathArr, bitIndex) ← parse_address tagname datatype;
    let bufArr := (program_segment program ++ map (DATA_build env) pathArr)%list in
    let pathBuf := concat bufArr in
    bitIndexBuf ← Buf.writeInt 1 (default 32 bitIndex) (Some 0) (Buf.alloc 1);
    let instanceBuf := (pathBuf ++ bitIndexBuf)%list in
    mret {| tag := {| bitIndex := bitIndex; program := program; name := tagname;
                      type := datatype; value := Json.Null; controller := None;
                      controllerValue := Json.Null; path := pathBuf;
                      stage_write := false |};
            read_size := 1;
            error := (None, None);
            timestamp := now;
            instance := hash env instanceBuf;
            keepAlive := keepAlive |}.

(** *** Requests *)

(** [generateReadMessageRequest(size)] *)
Definition generateReadMessageRequest (size : option Z) (st : State)
  : result (Buffer * State) :=
  let st := match size with
            | Some n => if negb (n =? 0) then
                          {| tag := tag st; read_size := n; error := error st;
                             timestamp := timestamp st; instance := instance st;
                             keepAlive := keepAlive st |}
                        else st
            | None => st
            end in
  buf ← Buf.writeUInt 2 (read_size st) (Some 0) (Buf.alloc 2);
  mret (MessageRouter_build env READ_TAG (path (tag st)) buf, st).

(** [_getTemplate()] *)
Definition getTemplate (st : State) : result Template :=
  match controller (tag st) with
  | None => Throw (Error "Template read error - tag controller property not set")
  | Some c =>
      match templates c with
      | None => Throw (Error "Template read error - tag controller templates property not set")
      | Some table =>
          match type (tag st) with
          | TypeNull | TypeCode 0 | TypeName "" =>
              Throw (Error "Template read error - tag type property not set")
          | ty =>
              match table ty with
              | None => Throw (Error "Template read error - cannot find template for type")
              | Some template => Ok template
              end
          end
      end
  end.

(** [generateWriteMessageRequest(value, size)]; [value] is [Json.Null] and
    [size] is 1 when omitted. The explicit value is stored in
    [state.tag.value] directly, not through [set value]. *)
Definition generateWriteMessageRequest (value : Json.Value) (size : Z) (st : State)
  : result (Buffer * State) :=
  let st := match value with
            | Json.Null => st
            | _ => set_tag (with_value value) st
            end in
  let tag := tag st in
  match type tag with
  | TypeNull =>
      Throw (Error "Tag has not been initialized. Try reading the tag from the controller first or manually providing a valid CIP datatype.")
  | ty =>
      let code := match ty with TypeCode code => Some code | _ => None end in
      match bitIndex tag with
      | Some bitIndex =>
          (* bit index = local serialization *)
          buf ←
            (if bool_decide (code = Some (SINT env)) then
               buf ← Buf.writeInt 2 1 (Some 0) (Buf.alloc 4); (* mask length *)
               buf ← Buf.writeUInt 1
                       (if Json.truthy (Tag.value tag) then JS.shl 1 bitIndex else 0)
                       (Some 2) buf; (* or mask *)
               Buf.writeUInt 1
                 (if Json.truthy (Tag.value tag) then 255
                  else JS.and 255 (JS.not (JS.shl 1 bitIndex)))
                 (Some 3) buf (* and mask *)
             else if bool_decide (code = Some (INT env)) then
               buf ← Buf.writeInt 2 2 (Some 0) (Buf.alloc 6); (* mask length *)
               buf ← Buf.writeUInt 2
                       (if Json.truthy (Tag.value tag) then JS.shl 1 bitIndex else 0)
                       (Some 2) buf; (* or mask *)
               Buf.writeUInt 2
                 (if Json.truthy (Tag.value tag) then 65535
                  else JS.and 65535 (JS.not (JS.shl 1 bitIndex)))
                 (Some 4) buf (* and mask *)
             else if bool_decide (code = Some (DINT env))
                     || bool_decide (code = Some (BIT_STRING env)) then
               buf ← Buf.writeInt 2 4 (Some 0) (Buf.alloc 10); (* mask length *)
               buf ← Buf.writeInt 4
                       (if Json.truthy (Tag.value tag) then JS.shl 1 bitIndex else 0)
                       (Some 2) buf; (* or mask *)
               Buf.writeInt 4
                 (if Json.truthy (Tag.value tag) then -1
                  else JS.and (-1) (JS.not (JS.shl 1 bitIndex)))
                 (Some 6) buf (* and mask *)
             else
               Throw (Error "Bit Indexes can only be used on SINT, INT, DINT, or BIT_STRING data types."));
          (* Build Current Message *)
          mret (MessageRouter_build env READ_MODIFY_WRITE_TAG (path tag) buf, st)
      | None =>
          template ← getTemplate st;
          (* default - template serialization *)
          buf ←
            match ty with
            | TypeName _ =>
                buf ← Buf.writeUInt 2 (STRUCT env) (Some 0) (Buf.alloc 6);
                buf ← Buf.writeUInt 2 (structure_handle template) (Some 2) buf;
                Buf.writeUInt 2 size (Some 4) buf
            | _ =>
                buf ← Buf.writeUInt 2 (default 0 code) (Some 0) (Buf.alloc 4);
                Buf.writeUInt 2 size (Some 2) buf
            end;
          body ← serialize template (Tag.value tag);
          mret (MessageRouter_build env WRITE_TAG (path tag) (buf ++ body)%list, st)
      end
  end.

End WithEnv.

(** *** Responses *)

Definition with_type (ty : Datatype) (t : TagFields) : TagFields :=
  {| bitIndex := bitIndex t; program := program t; name := name t; type := ty;
     value := value t; controller := controller t;
     controllerValue := controllerValue t; path := path t;
     stage_write := stage_write t |}.

Definition with_controller (c : option Controller) (t : TagFields) : TagFields :=
  {| bitIndex := bitIndex t; program := program t; name := name t; type := type t;
     value := value t; controller := c;
     controllerValue := controllerValue t; path := path t;
     stage_write := stage_write t |}.

Definition Datatype_eqb (a b : Datatype) : bool :=
  match a, b with
  | TypeNull, TypeNull => true
  | TypeCode x, TypeCode y => x =? y
  | TypeName x, TypeName y => String.eqb x y
  | _, _ => false
  end.

(** [template.structure_handle = handle] for the template that
    [controller.templates] holds under [key]: the template is the
    controller's own object, so the controller sees the new handle. *)
Definition set_structure_handle (key : Datatype) (handle : Z) (c : Controller)
  : Controller :=
  {| templates :=
       match templates c with
       | Some table =>
           Some (fun ty =>
                   match table ty with
                   | Some template =>
                       if Datatype_eqb ty key
                       then Some {| structure_handle := handle;
                                    serialize := serialize template |}
                       else Some template
                   | None => None
                   end)
       | None => None
       end |}.

(** [(word & (1 << bitIndex)) === 0 ? false : true] *)
Definition bit_of (word bitIndex : Z) : Json.Value :=
  Json.Bool (negb (JS.and word (JS.shl 1 bitIndex) =? 0)).

Section Responses.

Variable env : Env.

(** [Types.STRING], and [template.deserialize] of the templates a
    controller holds: the [Template] class is outside these sources. *)
Variable STRING : Z.
Variable deserialize : Template -> Buffer -> result Json.Value.

(** The type check at the head of [parseReadMessageResponse]: a tag
    without a type takes the type read. *)
Definition check_type (type : Z) (st : State) : result State :=
  match Tag.type (tag st) with
  | TypeNull | TypeCode 0 | TypeName "" => Ok (set_tag (with_type (TypeCode type)) st)
  | TypeCode code =>
      if negb (code =? type) then Throw (Error "Type Read Mismatch") else Ok st
  | TypeName _ =>
      if negb (type =? STRUCT env) && negb (type =? STRING)
      then Throw (Error "Type Read Mismatch")
      else Ok st
  end.

(** [parseReadMessageResponse(data)] at time [now]: the tag as the call
    leaves it, also when it throws, and the events emitted or the
    exception. *)
Definition parseReadMessageResponse (now : Z) (data : Buffer) (st : State)
  : State * result (list Event) :=
  match Buf.readUInt 2 data (Some 0) with
  | Throw e => (st, Throw e)
  | Ok type =>
      match check_type type st with
      | Throw e => (st, Throw e)
      | Ok st =>
          let tag := tag st in
          match bitIndex tag with
          | Some bitIndex =>
              (* bit index local deserialization *)
              let code := match Tag.type tag with TypeCode code => Some code | _ => None end in
              let word :=
                if bool_decide (code = Some (SINT env)) then Buf.readInt 1 data (Some 2)
                else if bool_decide (code = Some (INT env)) then Buf.readInt 2 data (Some 2)
                else if bool_decide (code = Some (DINT env))
                        || bool_decide (code = Some (BIT_STRING env))
                then Buf.readInt 4 data (Some 2)
                else Throw (Error "Data Type other than SINT, INT, DINT, or BIT_STRING returned when a Bit Index was requested") in
              match word with
              | Throw e => (st, Throw e)
              | Ok word =>
                  let '(st, events) := set_controller_value now (bit_of word bitIndex) st in
                  (st, Ok events)
              end
          | None =>
              (* not a bit index - template deserialization *)
              match getTemplate st with
              | Throw e => (st, Throw e)
              | Ok template =>
                  if type =? STRUCT env then
                    match Buf.readUInt 2 data (Some 2) with
                    | Throw e => (st, Throw e)
                    | Ok handle =>
                        let template := {| structure_handle := handle;
                                           serialize := serialize template |} in
                        let st := set_tag (with_controller
                                             (set_structure_handle (Tag.type tag) handle
                                                <$> controller tag)) st in
                        match deserialize template (drop 4 data) with
                        | Throw e => (st, Throw e)
                        | Ok v =>
                            let '(st, events) := set_controller_value now v st in
                            (st, Ok events)
                        end
                    end
                  else
                    match deserialize template (drop 2 data) with
                    | Throw e => (st, Throw e)
                    | Ok v =>
                        let '(st, events) := set_controller_value now v st in
                        (st, Ok events)
                    end
              end
          end
      end
  end.

End Responses.

End Tag.

Module Sample.

Local Open Scope string_scope.

(** Stand-ins for the collaborators, to run the tag code on concrete
    addresses: CIP's codes of the elementary types, a path segment as the
    ANSI extended symbol of its text, a request as its parts in a row, and
    the bytes themselves for their digest. *)
Definition type_codes : list Z :=
  [193; 194; 195; 196; 197; 198; 199; 200; 202; 203; 208; 209; 210; 211; 212; 672].

Definition bytes_of_string (s : string) : Buffer :=
  map (fun c => Buf.byte_of (Z.of_N (N_of_ascii c))) (list_ascii_of_string s).

Definition string_of_bytes (b : Buffer) : string :=
  string_of_list_ascii (map (fun x => ascii_of_N (Byte.to_N x)) b).

Definition service_code (s : Tag.Service) : byte :=
  match s with
  | Tag.READ_TAG => x4c
  | Tag.WRITE_TAG => x4d
  | Tag.READ_MODIFY_WRITE_TAG => x4e
  end.

Definition env : Tag.Env :=
  {| Tag.SINT := 194; Tag.INT := 195; Tag.DINT := 196; Tag.BIT_STRING := 211;
     Tag.STRUCT := 672;
     Tag.isValidTypeCode := fun code => existsb (Z.eqb code) type_codes;
     Tag.DATA_build := fun s =>
       x91 :: Buf.byte_of (Z.of_nat (String.length s)) :: bytes_of_string s;
     Tag.MessageRouter_build := fun service path data =>
       (service_code service :: path ++ data)%list;
     Tag.hash := string_of_bytes |}.

Import Tag.

Local Open Scope Z_scope.

(** The tag [new Tag("tag", null, null, seconds)] built at time 0. *)
Definition fresh (seconds : Z) : State :=
  {| tag := {| bitIndex := None; program := None; name := "tag"; type := TypeNull;
               value := Json.Null; controller := None; controllerValue := Json.Null;
               path := [x91; x03; x74; x61; x67]; stage_write := false |};
     read_size := 1; error := (None, None); timestamp := 0;
     instance := string_of_bytes [x91; x03; x74; x61; x67; x20];
     keepAlive := seconds |}.

(** The tag [new Tag("tag.3", null, INT)] of the sample collaborators. *)
Definition int_bit_3 : State :=
  {| tag := {| bitIndex := Some 3; program := None; name := "tag.3";
               type := TypeCode 195;
               value := Json.Null; controller := None; controllerValue := Json.Null;
               path := [x91; x03; x74; x61; x67]; stage_write := false |};
     read_size := 1; error := (None, None); timestamp := 0;
     instance := string_of_bytes [x91; x03; x74; x61; x67; x03];
     keepAlive := 0 |}.

(** [Types.STRING], and a stand-in for [template.deserialize]: the bytes
    as a little-endian number. *)
Definition STRING : Z := 208.

Definition deserialize (template : Template) (body : Buffer) : result Json.Value :=
  Ok (Json.Num (Json.Finite (Buf.le_value body))).

(** A controller that holds a template for DINT and one for the structure
    [UDT]. *)
Definition dint_template : Template :=
  {| structure_handle := 0;
     serialize := fun v =>
       match v with
       | Json.Num (Json.Finite z) => Buf.writeInt 4 z (Some 0) (Buf.alloc 4)
       | _ => Throw TypeError
       end |}.

Definition udt_template : Template :=
  {| structure_handle := 0; serialize := fun _ => Ok [x2a] |}.

Definition plc : Controller :=
  {| templates :=
       Some (fun ty =>
               match ty with
               | TypeCode code => if code =? 196 then Some dint_template else None
               | TypeName name => if String.eqb name "UDT" then Some udt_template else None
               | TypeNull => None
               end) |}.

(** The tag [new Tag("tag.20", null, SINT)]. *)
Definition sint_bit_20 : State :=
  {| tag := {| bitIndex := Some 20; program := None; name := "tag.20";
               type := TypeCode 194;
               value := Json.Null; controller := None; controllerValue := Json.Null;
               path := [x91; x03; x74; x61; x67]; stage_write := false |};
     read_size := 1; error := (None, None); timestamp := 0;
     instance := string_of_bytes [x91; x03; x74; x61; x67; x14];
     keepAlive := 0 |}.

(** The tags [new Tag("tag", null, DINT)] and [new Tag("tag", null, "UDT")]
    once their controller is set. *)
Definition dint_tag : State :=
  set_tag (with_controller (Some plc)) (set_tag (with_type (TypeCode 196)) (fresh 0)).

Definition udt_tag : State :=
  set_tag (with_controller (Some plc)) (set_tag (with_type (TypeName "UDT")) (fresh 0)).

End Sample.

(* ================================================================= *)
(** * Vocabulary of the statements *)

(** ** Atomic templates *)

Module AtomicsSpec.

Import Atomics.

(** The bytes a template's field occupies (also the size of its default
    buffer). *)
Definition width (t : TypeCode) : nat :=
  match t with
  | BOOL | SINT | USINT => 1
  | INT | UINT | WORD => 2
  | DINT | UDINT | REAL => 4
  | LINT | LREAL | TIME | TIME_NSEC => 8
  end%nat.

(** The field addressed by bit offset [offset] lies inside [data]: any bit of
    the buffer for BOOL, a byte boundary with room for the field otherwise. *)
Definition fits (t : TypeCode) (data : Buffer) (offset : Z) : Prop :=
  match t with
  | BOOL => 0 <= offset < 8 * Z.of_nat (length data)
  | _ => 0 <= offset /\ offset mod 8 = 0 /\
         offset / 8 + Z.of_nat (width t) <= Z.of_nat (length data)
  end.

(** [Math.fround(x)]: [x] rounded to single precision. *)
Definition Math_fround (x : spec_float) : spec_float :=
  binary64_of_binary32 (binary32_of_Num (NF x)).

(** The values of each type: booleans, integers of the type's width, pairs
    of 32-bit words, single-precision numbers ([Math.fround(x) = x]),
    unsigned 64-bit BigInts. *)
Definition in_range (t : TypeCode) (v : Value) : Prop :=
  match t, v with
  | BOOL, VBool _ => True
  | SINT, VInt n => -128 <= n <= 127
  | USINT, VInt n => 0 <= n <= 255
  | INT, VInt n => -32768 <= n <= 32767
  | (UINT | WORD), VInt n => 0 <= n <= 65535
  | DINT, VInt n => -2147483648 <= n <= 2147483647
  | UDINT, VInt n => 0 <= n <= 4294967295
  | (LINT | LREAL), VLowHigh low high =>
      -2147483648 <= low <= 2147483647 /\ -2147483648 <= high <= 2147483647
  | REAL, VFloat x =>
      valid_binary 24 128 (binary32_of_Num (NF x)) = true /\ Math_fround x = x
  | (TIME | TIME_NSEC), VBigInt n => 0 <= n <= 18446744073709551615
  | _, _ => False
  end.

(** Bit [j] of a buffer: bit [j mod 8] of byte [j / 8]. *)
Definition bit_at (data : Buffer) (j : Z) : bool :=
  match data !! Z.to_nat (j / 8) with
  | Some x => Z.testbit (Buf.u8 x) (j mod 8)
  | None => false
  end.

(** What [deserialize] of TIME and TIME_NSEC returns for a stored count of
    [n] nanoseconds: the double nearest to [n], divided by 10^9. *)
Definition seconds_of (n : Z) : Value :=
  VFloat (Number_div (Number_of_BigInt n) nanoseconds_per_second).

(** The types whose values are integers held in a Number. *)
Definition integral (t : TypeCode) : bool :=
  match t with
  | SINT | USINT | INT | UINT | WORD | DINT | UDINT => true
  | _ => false
  end.

(** A value of the kind the type's [serialize] is written for, whatever its
    range. *)
Definition shaped (t : TypeCode) (v : Value) : Prop :=
  match t, v with
  | BOOL, VBool _ => True
  | (SINT | USINT | INT | UINT | WORD | DINT | UDINT), VInt _ => True
  | (LINT | LREAL), VLowHigh _ _ => True
  | REAL, VFloat _ => True
  | (TIME | TIME_NSEC), VBigInt _ => True
  | _, _ => False
  end.

(** The unsigned type of the same width as a signed one. *)
Definition unsigned_of (t : TypeCode) : option TypeCode :=
  match t with
  | SINT => Some USINT
  | INT => Some UINT
  | DINT => Some UDINT
  | _ => None
  end.

(** The buffer and the bit offset a call works on, defaults filled in. *)
Definition buffer_of (t : TypeCode) (data : option Buffer) : Buffer :=
  default (Buf.alloc (width t)) data.

Definition offset_of (offset : option Z) : Z := default 0 offset.

(** The bytes at positions [i .. i + n - 1] are the same in both buffers
    outside that range. *)
Definition same_outside (i : Z) (n : nat) (d d' : Buffer) : Prop :=
  forall k, (k < Z.to_nat i \/ Z.to_nat i + n <= k)%nat -> d' !! k = d !! k.


End AtomicsSpec.

(** ** The constructor *)

Module TagSpec.

Import Tag.

(** The wire path of a list of segments, after the program segment. *)
Definition path_of (env : Env) (program : option string) (pathArr : list string) : Buffer :=
  concat (program_segment env program ++ map (DATA_build env) pathArr).

(** A [datatype] the constructor accepts: null, a name, or a code that
    [isValidTypeCode] knows. *)
Definition acceptable (env : Env) (datatype : Datatype) : Prop :=
  match datatype with
  | TypeCode code => isValidTypeCode env code = true
  | _ => True
  end.

(** When no write is staged, the local value is the controller value. *)
Definition mirrors (st : State) : Prop :=
  stage_write (tag st) = false -> value (tag st) = controllerValue (tag st).

(** The fields a tag gets from its address and keeps: the state apart from
    the two values, the staging flag and the timestamp. *)
Definition same_identity (st st' : State) : Prop :=
  name (tag st') = name (tag st) /\ program (tag st') = program (tag st) /\
  bitIndex (tag st') = bitIndex (tag st) /\ path (tag st') = path (tag st) /\
  type (tag st') = type (tag st) /\ controller (tag st') = controller (tag st) /\
  read_size st' = read_size st /\ error st' = error st /\
  instance st' = instance st /\ keepAlive st' = keepAlive st.


(** The tag after [if (value !== null) tag.value = value]. *)
Definition written (v : Json.Value) (st : State) : State :=
  match v with
  | Json.Null => st
  | _ => set_tag (with_value v) st
  end.

(** The width in bytes of the type of a bit-indexed tag, as the [switch]
    of the request code takes it: SINT first, then INT, then DINT or
    BIT_STRING; none for any other type. *)
Definition mask_bytes (env : Env) (ty : Datatype) : option nat :=
  match ty with
  | TypeCode code =>
      if code =? SINT env then Some 1%nat
      else if code =? INT env then Some 2%nat
      else if (code =? DINT env) || (code =? BIT_STRING env) then Some 4%nat
      else None
  | _ => None
  end.

(** The bytes whose digest is the instance id: the path, then the bit
    index as one byte, 32 when there is none. *)
Definition instance_input (st : State) : Buffer :=
  (get_path st ++ [Buf.byte_of (default 32 (get_bitIndex st))])%list.

(** The characters a tag name is made of: letters, digits, the underscore
    and the punctuation of programs, members and array indexes. *)
Definition tag_char (c : ascii) : bool :=
  is_alnum c || Ascii.eqb c "_" || Ascii.eqb c ":" || Ascii.eqb c "."
  || Ascii.eqb c "[" || Ascii.eqb c "]" || Ascii.eqb c ",".

(** The characters a name can start with. *)
Definition name_start (c : ascii) : bool := is_letter c || Ascii.eqb c "_".

(** A plain identifier: a letter, then letters and digits. *)
Definition plain_name (s : string) : bool :=
  match s with
  | EmptyString => false
  | String c rest => is_letter c && forallb is_alnum (list_ascii_of_string rest)
  end.

End TagSpec.

(** ** Values and their JSON texts *)

Module JsonSpec.

Import Json.

Local Open Scope Z_scope.

(** The same number; the two zeros are one number, as for [===]. *)
Definition number_eqb (x y : Number) : bool :=
  match x, y with
  | Finite a, Finite b => a =? b
  | Fraction s m e, Fraction t n f => Bool.eqb s t && (m =? n)%N && (e =? f)%N
  | NegZero, NegZero => true
  | NegZero, Finite a | Finite a, NegZero => a =? 0
  | NaN, NaN => true
  | Infinity s, Infinity t => Bool.eqb s t
  | _, _ => false
  end.

(** Deep structural equality: the same kind of value, equal scalars, arrays
    equal element by element, objects with the same keys holding equal
    values, whatever the order of the keys. *)
Fixpoint deep_equal (a b : Value) : bool :=
  match a, b with
  | Null, Null => true
  | Bool x, Bool y => Bool.eqb x y
  | Num x, Num y => number_eqb x y
  | Str x, Str y => String.eqb x y
  | Array xs, Array ys =>
      (fix all2 (xs ys : list Value) : bool :=
         match xs, ys with
         | [], [] => true
         | x :: xs', y :: ys' => deep_equal x y && all2 xs' ys'
         | _, _ => false
         end) xs ys
  | Object ms, Object ns =>
      (length ms =? length ns)%nat &&
      (fix all (ms : list (string * Value)) : bool :=
         match ms with
         | [] => true
         | (k, v) :: ms' =>
             match find (fun kw => String.eqb (fst kw) k) ns with
             | Some (_, w) => deep_equal v w
             | None => false
             end && all ms'
         end) ms
  | _, _ => false
  end.

(** A value as JSON can carry it: NaN and the infinities become null, and
    the negative zero is the number 0. *)
Fixpoint norm (v : Value) : Value :=
  match v with
  | Num NaN | Num (Infinity _) => Null
  | Num NegZero => Num (Finite 0)
  | Array items => Array (map norm items)
  | Object members => Object (map (fun kv => (fst kv, norm (snd kv))) members)
  | _ => v
  end.

(** The numbers of the type that are doubles: an integer of at most 53
    significant bits below 2^1024; an odd numerator below 2^53 over a power
    of two up to 2^1074; the negative zero, NaN and the infinities. *)
Definition is_double (n : Number) : bool :=
  match n with
  | Finite z => (Num.round_to_double (Z.abs z) =? Z.abs z) && (Z.abs z <? 2 ^ 1024)
  | Fraction _ m e => (2 * Z.of_N m + 1 <? 2 ^ 53) && (Z.of_N e + 1 <=? 1074)
  | NegZero | NaN | Infinity _ => true
  end.

(** The numbers with a text of their own: all but NaN and the infinities. *)
Definition finite (n : Number) : bool :=
  match n with
  | NaN | Infinity _ => false
  | _ => true
  end.

(** The sign of a number and its magnitude: a whole number, or an odd
    numerator over a power of two. *)
Definition negative (n : Number) : bool :=
  match n with
  | Finite z => z <? 0
  | Fraction s _ _ => s
  | _ => false
  end.

Inductive Magnitude : Type :=
| Whole (z : Z)
| Part (M E : Z).

Definition magnitude (n : Number) : Magnitude :=
  match n with
  | Finite z => Whole (Z.abs z)
  | Fraction _ m e => Part (2 * Z.of_N m + 1) (Z.of_N e + 1)
  | _ => Whole 0
  end.

Definition magnitude_text (g : Magnitude) : string :=
  match g with
  | Whole z => Num.toString z
  | Part M E => Num.fraction_toString M E
  end.

(** The magnitude of a double. *)
Definition double_magnitude (g : Magnitude) : Prop :=
  match g with
  | Whole z => 0 <= z /\ Num.round_to_double z = z
  | Part M E => 0 < M < 2 ^ 53 /\ Z.odd M = true /\ 1 <= E <= 1074
  end.

(** A JavaScript value: every number in it is a double. *)
Fixpoint is_value (v : Value) : bool :=
  match v with
  | Num n => is_double n
  | Array items => forallb is_value items
  | Object members => forallb (fun kv => is_value (snd kv)) members
  | _ => true
  end.

(** The events that announce a new controller value. *)
Definition announces_change (events : list Tag.Event) : bool :=
  existsb (fun e => match e with
                    | Tag.Initialized | Tag.Changed _ => true
                    | Tag.KeepAlive => false
                    end) events.

End JsonSpec.

(** ** Texts *)

Module TextSpec.

Import Json.

Local Open Scope string_scope.
Local Open Scope Z_scope.

Definition sep_free (sep : ascii -> bool) (s : string) : bool :=
  forallb (fun c => negb (sep c)) (list_ascii_of_string s).

(** *** Numbers *)

(** The characters of a number's text. *)
Definition numeric_char (c : ascii) : bool :=
  Num.is_digit c || Ascii.eqb c "-" || Ascii.eqb c "+" || Ascii.eqb c "."
  || Ascii.eqb c "e".

Definition all_chars (p : ascii -> bool) (s : string) : bool :=
  forallb p (list_ascii_of_string s).

(** The digits at the head of a text: their value after the digits [acc]
    read before them, their count added to [cnt], and the rest of the
    text. *)
Fixpoint read_digits (acc cnt : Z) (s : string) : Z * Z * string :=
  match s with
  | String c r =>
      if Num.is_digit c
      then read_digits (10 * acc + Num.digit_value c) (cnt + 1) r
      else (acc, cnt, s)
  | EmptyString => (acc, cnt, s)
  end.

(** The number a decimal text denotes, as a fraction: the text is digits,
    then possibly a point and digits, then possibly [e], a sign and
    digits. *)
Definition denoted (text : string) : Z * Z :=
  let '(a, _, r1) := read_digits 0 0 text in
  let '(c, f, r2) :=
    match r1 with
    | String "." r => read_digits a 0 r
    | _ => (a, 0, r1)
    end in
  let t :=
    match r2 with
    | String "e" (String sign r) =>
        let '(x, _, _) := read_digits 0 0 r in
        (if Ascii.eqb sign "-" then - x else x) - f
    | _ => - f
    end in
  (c * 10 ^ Z.max t 0, 10 ^ Z.max (- t) 0).

(** A number's text without a sign: it starts with a digit. *)
Definition unsigned_text (t : string) : bool :=
  all_chars numeric_char t &&
  match t with
  | String c _ => Num.is_digit c
  | EmptyString => false
  end.

(** The text of a fraction part and of an exponent. *)
Definition fraction_part (frac : option string) : string :=
  match frac with
  | Some w => String "." w
  | None => ""
  end.

Definition exponent_part (ex : option (bool * string)) : string :=
  match ex with
  | Some (negative, w) => String "e" (String (if negative then "-" else "+")%char w)
  | None => ""
  end.

(** A text is delimited when nothing follows it or a [,], a []] or a [}]
    does. *)
Definition delimited (r : string) : bool :=
  match r with
  | EmptyString => true
  | String c _ => Ascii.eqb c "," || Ascii.eqb c "]" || Ascii.eqb c "}"
  end.

(** A text that starts with a character no delimiter is. *)
Definition headed (s : string) : bool :=
  match s with
  | EmptyString => false
  | String c _ => negb (delimited (String c ""))
  end.

(** *** Strings *)

Definition hex_value (c : ascii) : N :=
  let n := N_of_ascii c in if Num.is_digit c then (n - 48)%N else (n - 87)%N.

(** Reads back one escaped character from the head of a text. *)
Definition unescape (s : string) : option (ascii * string) :=
  match s with
  | EmptyString => None
  | String h t =>
      if Ascii.eqb h backslash then
        match t with
        | String k t' =>
            if Ascii.eqb k quote_char then Some (quote_char, t')
            else if Ascii.eqb k backslash then Some (backslash, t')
            else if Ascii.eqb k "b" then Some ("008"%char, t')
            else if Ascii.eqb k "f" then Some ("012"%char, t')
            else if Ascii.eqb k "n" then Some ("010"%char, t')
            else if Ascii.eqb k "r" then Some ("013"%char, t')
            else if Ascii.eqb k "t" then Some ("009"%char, t')
            else
              match t' with
              | String _ (String _ (String x (String y t''))) =>
                  Some (ascii_of_N (16 * hex_value x + hex_value y), t'')
              | _ => None
              end
        | EmptyString => None
        end
      else Some (h, t)
  end.

End TextSpec.

(** ** Patterns *)

Module RegexSpec.

Import Regex.

(** The characters some class of the pattern accepts. *)
Fixpoint alphabet (r : re) (c : ascii) : bool :=
  match r with
  | Void | Eps => false
  | Class p => p c
  | Seq r s | Alt r s => alphabet r c || alphabet s c
  | Star r => alphabet r c
  end.

(** The pattern that matches nothing, as the derivative leaves it. *)
Definition is_Void (r : re) : bool :=
  match r with Void => true | _ => false end.

(** The strings a pattern matches. *)
Inductive matches : re -> string -> Prop :=
| MEps : matches Eps EmptyString
| MClass (p : ascii -> bool) c : p c = true -> matches (Class p) (String c EmptyString)
| MSeq r s a b : matches r a -> matches s b -> matches (Seq r s) (a ++ b)
| MAltL r s a : matches r a -> matches (Alt r s) a
| MAltR r s a : matches s a -> matches (Alt r s) a
| MStar0 r : matches (Star r) EmptyString
| MStarS r a b : matches r a -> matches (Star r) b -> matches (Star r) (a ++ b).

End RegexSpec.

(* ================================================================= *)
(** * Properties *)

(** ** Bytes and little-endian fields *)

Section BufferFacts.

Import Buf.

Lemma u8_range b : 0 <= u8 b < 256.
Proof.
  unfold u8. pose proof (Byte.to_N_bounded b). lia.
Qed.

Lemma u8_byte_of z : u8 (byte_of z) = z mod 256.
Proof.
  unfold u8, byte_of.
  assert (Hr : 0 <= z mod 256 < 256) by (apply Z.mod_pos_bound; lia).
  destruct (Byte.of_N (Z.to_N (z mod 256))) as [b|] eqn:E.
  - apply Byte.to_of_N in E. rewrite E. lia.
  - apply Byte.of_N_None_iff in E. lia.
Qed.

Lemma byte_of_u8 b : byte_of (u8 b) = b.
Proof.
  unfold byte_of, u8. pose proof (Byte.to_N_bounded b) as Hb.
  rewrite Z.mod_small by lia. rewrite N2Z.id, Byte.of_to_N. reflexivity.
Qed.

Lemma length_le_bytes n z : length (le_bytes n z) = n.
Proof.
  revert z. induction n as [|n IH]; intros z; simpl; [reflexivity|].
  now rewrite IH.
Qed.

Lemma le_value_le_bytes n z : le_value (le_bytes n z) = z mod 2 ^ (8 * Z.of_nat n).
Proof.
  revert z. induction n as [|n IH]; intros z.
  - simpl. now rewrite Z.mod_1_r.
  - cbn [le_bytes le_value]. rewrite u8_byte_of, IH.
    replace (8 * Z.of_nat (S n)) with (8 + 8 * Z.of_nat n) by lia.
    rewrite Z.pow_add_r by lia. change (2 ^ 8) with 256.
    rewrite Z.rem_mul_r by lia. reflexivity.
Qed.

Lemma le_value_range bs : 0 <= le_value bs < 2 ^ (8 * Z.of_nat (length bs)).
Proof.
  induction bs as [|b bs IH].
  - simpl. lia.
  - cbn [le_value length]. pose proof (u8_range b).
    replace (8 * Z.of_nat (S (length bs))) with (8 + 8 * Z.of_nat (length bs)) by lia.
    rewrite Z.pow_add_r by lia. change (2 ^ 8) with 256. nia.
Qed.

Lemma signed_mod w v :
  0 < w -> - 2 ^ (w - 1) <= v < 2 ^ (w - 1) -> signed w (v mod 2 ^ w) = v.
Proof.
  intros Hw Hv. unfold signed.
  assert (Hp : 2 ^ w = 2 * 2 ^ (w - 1)).
  { replace w with (1 + (w - 1)) at 1 by lia. rewrite Z.pow_add_r by lia. reflexivity. }
  destruct (Z.le_gt_cases 0 v) as [Hpos|Hneg].
  - rewrite Z.mod_small by lia.
    destruct (Z.ltb_spec v (2 ^ (w - 1))); lia.
  - replace (v mod 2 ^ w) with (v + 2 ^ w).
    + destruct (Z.ltb_spec (v + 2 ^ w) (2 ^ (w - 1))); lia.
    + symmetry. rewrite <- (Z.mod_add v 1) by lia.
      rewrite Z.mod_small; lia.
Qed.

Lemma in_bounds_spec data i n :
  in_bounds data (Some i) n = true <->
  0 <= i /\ i + Z.of_nat n <= Z.of_nat (length data).
Proof.
  unfold in_bounds. rewrite andb_true_iff, Z.leb_le, Z.leb_le. reflexivity.
Qed.

Lemma write_bytes_ok bs i data :
  in_bounds data (Some i) (length bs) = true ->
  exists data', write_bytes bs (Some i) data = Ok data' /\
                length data' = length data /\
                read_bytes data' (Some i) (length bs) = Ok bs /\
                (forall k, (k < Z.to_nat i \/ Z.to_nat i + length bs <= k)%nat ->
                           data' !! k = data !! k).
Proof.
  intros Hb. unfold write_bytes. rewrite Hb. cbv zeta. cbn [default from_option id].
  apply in_bounds_spec in Hb. destruct Hb as [Hi Hn].
  set (j := Z.to_nat i).
  assert (Hj : (j + length bs <= length data)%nat) by (subst j; lia).
  eexists; split; [reflexivity|].
  assert (Hlen : length (take j data ++ bs ++ drop (j + length bs) data) = length data).
  { rewrite !length_app, length_take, length_drop. lia. }
  split; [exact Hlen|]. split.
  - unfold read_bytes.
    replace (in_bounds _ (Some i) (length bs)) with true
      by (symmetry; apply in_bounds_spec; rewrite Hlen; lia).
    cbn [default from_option id]. fold j. f_equal.
    rewrite drop_app_length' by (rewrite length_take; lia).
    rewrite take_app_length. reflexivity.
  - intros k [Hk|Hk].
    + rewrite lookup_app_l by (rewrite length_take; lia).
      apply lookup_take_lt. exact Hk.
    + rewrite lookup_app_r by (rewrite length_take; lia).
      rewrite lookup_app_r by (rewrite length_take; lia).
      rewrite lookup_drop, length_take. f_equal. lia.
Qed.

End BufferFacts.

(** ** The 32-bit operators on a byte *)

Section BitFacts.

Lemma ToInt32_small z : - 2 ^ 31 <= z < 2 ^ 31 -> JS.ToInt32 z = z.
Proof.
  intros Hz. unfold JS.ToInt32. rewrite Z.mod_small; lia.
Qed.

Lemma shl_one k : 0 <= k < 8 -> JS.shl 1 k = 2 ^ k.
Proof.
  intros Hk. unfold JS.shl. rewrite (ToInt32_small 1) by lia.
  rewrite Z.mod_small by lia. rewrite Z.shiftl_1_l.
  apply ToInt32_small.
  assert (0 < 2 ^ k) by (apply Z.pow_pos_nonneg; lia).
  assert (2 ^ k <= 2 ^ 7) by (apply Z.pow_le_mono_r; lia). lia.
Qed.

Lemma pow2_byte k : 0 <= k < 8 -> 1 <= 2 ^ k <= 128.
Proof.
  intros Hk.
  assert (0 < 2 ^ k) by (apply Z.pow_pos_nonneg; lia).
  assert (2 ^ k <= 2 ^ 7) by (apply Z.pow_le_mono_r; lia). lia.
Qed.

Lemma byte_high_bits v j : 0 <= v < 256 -> 8 <= j -> Z.testbit v j = false.
Proof.
  intros Hv Hj. rewrite Z.testbit_eqb by lia.
  rewrite Z.div_small; [reflexivity|].
  assert (2 ^ 8 <= 2 ^ j) by (apply Z.pow_le_mono_r; lia). lia.
Qed.

Lemma byte_of_bits r :
  0 <= r -> (forall j, 8 <= j -> Z.testbit r j = false) -> r < 256.
Proof.
  intros Hr Hb. destruct (Z.lt_ge_cases r 256) as [|Hge]; [assumption|exfalso].
  assert (Hl : 8 <= Z.log2 r) by (apply (Z.log2_le_pow2 r 8); lia).
  specialize (Hb _ Hl). rewrite Z.bit_log2 in Hb by lia. discriminate.
Qed.

Lemma set_bit_spec v k :
  0 <= v < 256 -> 0 <= k < 8 ->
  let r := JS.or v (JS.shl 1 k) in
  0 <= r <= 255 /\
  forall j, 0 <= j -> Z.testbit r j = (j =? k) || Z.testbit v j.
Proof.
  intros Hv Hk r. subst r. pose proof (pow2_byte k Hk) as Hp.
  unfold JS.or. rewrite (shl_one k Hk), !ToInt32_small by lia.
  assert (Hbits : forall j, 0 <= j ->
            Z.testbit (Z.lor v (2 ^ k)) j = (j =? k) || Z.testbit v j).
  { intros j Hj. rewrite Z.lor_spec, Z.pow2_bits_eqb by lia.
    rewrite orb_comm, (Z.eqb_sym k j). reflexivity. }
  split; [|exact Hbits].
  assert (0 <= Z.lor v (2 ^ k)) by (apply Z.lor_nonneg; lia).
  enough (Z.lor v (2 ^ k) < 256) by lia.
  apply byte_of_bits; [assumption|]. intros j Hj.
  rewrite Hbits by lia. rewrite (byte_high_bits v j) by lia.
  destruct (Z.eqb_spec j k); [lia|reflexivity].
Qed.

Lemma clear_bit_spec v k :
  0 <= v < 256 -> 0 <= k < 8 ->
  let r := JS.and v (JS.and 255 (JS.not (JS.shl 1 k))) in
  0 <= r <= 255 /\
  forall j, 0 <= j -> Z.testbit r j = negb (j =? k) && Z.testbit v j.
Proof.
  intros Hv Hk r. subst r. pose proof (pow2_byte k Hk) as Hp.
  unfold JS.and, JS.not. rewrite (shl_one k Hk).
  rewrite (ToInt32_small (2 ^ k)), (ToInt32_small 255), (ToInt32_small v) by lia.
  assert (Hn : Z.lnot (2 ^ k) = - 2 ^ k - 1) by (unfold Z.lnot; lia).
  rewrite (ToInt32_small (Z.lnot (2 ^ k))) by lia.
  assert (Hm : 0 <= Z.land 255 (Z.lnot (2 ^ k)) <= 255).
  { split; [apply Z.land_nonneg; lia|].
    enough (Z.land 255 (Z.lnot (2 ^ k)) < 256) by lia.
    apply byte_of_bits; [apply Z.land_nonneg; lia|].
    intros j Hj. rewrite Z.land_spec, (byte_high_bits 255 j) by lia. reflexivity. }
  rewrite (ToInt32_small (Z.land 255 _)) by lia.
  assert (Hbits : forall j, 0 <= j ->
            Z.testbit (Z.land v (Z.land 255 (Z.lnot (2 ^ k)))) j
            = negb (j =? k) && Z.testbit v j).
  { intros j Hj. rewrite !Z.land_spec, Z.lnot_spec, Z.pow2_bits_eqb by lia.
    rewrite (Z.eqb_sym k j).
    destruct (Z.lt_ge_cases j 8) as [Hlt|Hge].
    - replace (Z.testbit 255 j) with true.
      + destruct (j =? k), (Z.testbit v j); reflexivity.
      + symmetry. change 255 with (Z.ones 8). apply Z.ones_spec_low. lia.
    - rewrite (byte_high_bits v j) by lia.
      destruct (j =? k); reflexivity. }
  split; [|exact Hbits].
  assert (0 <= Z.land v (Z.land 255 (Z.lnot (2 ^ k)))) by (apply Z.land_nonneg; lia).
  enough (Z.land v (Z.land 255 (Z.lnot (2 ^ k))) < 256) by lia.
  apply byte_of_bits; [assumption|]. intros j Hj.
  rewrite Hbits by lia. rewrite (byte_high_bits v j) by lia.
  apply andb_false_r.
Qed.

Lemma land_pow2 x k : 0 <= k -> Z.land x (2 ^ k) = if Z.testbit x k then 2 ^ k else 0.
Proof.
  intros Hk. apply Z.bits_inj'. intros j Hj.
  rewrite Z.land_spec, Z.pow2_bits_eqb by lia.
  destruct (Z.eqb_spec k j) as [->|Hne].
  - destruct (Z.testbit x j); [|now rewrite Z.bits_0].
    rewrite Z.pow2_bits_true by lia. reflexivity.
  - rewrite andb_false_r.
    destruct (Z.testbit x k); [|now rewrite Z.bits_0].
    rewrite Z.pow2_bits_false by lia. reflexivity.
Qed.

Lemma test_bit_spec u k :
  0 <= u < 256 -> 0 <= k < 8 ->
  negb (JS.and (Buf.signed 8 u) (JS.shl 1 k) =? 0) = Z.testbit u k.
Proof.
  intros Hu Hk. pose proof (pow2_byte k Hk) as Hp.
  unfold JS.and. rewrite (shl_one k Hk), (ToInt32_small (2 ^ k)) by lia.
  assert (Hs : - 128 <= Buf.signed 8 u < 128 /\
               Z.testbit (Buf.signed 8 u) k = Z.testbit u k).
  { unfold Buf.signed. change (2 ^ (8 - 1)) with 128. change (2 ^ 8) with 256.
    destruct (Z.ltb_spec u 128); [split; [lia|reflexivity]|].
    split; [lia|].
    rewrite <- (Z.mod_pow2_bits_low (u - 256) 8 k) by lia.
    rewrite <- (Z.mod_pow2_bits_low u 8 k) by lia.
    f_equal. change (2 ^ 8) with 256.
    replace (u - 256) with (u + (-1) * 256) by lia.
    apply Z.mod_add. lia. }
  destruct Hs as [Hr Hb]. rewrite ToInt32_small by lia.
  rewrite land_pow2, Hb by lia.
  destruct (Z.testbit u k); [|reflexivity].
  destruct (Z.eqb_spec (2 ^ k) 0); [lia|reflexivity].
Qed.

End BitFacts.

(** ** Fields of the atomic templates *)

Section FieldFacts.

Import Atomics.

Lemma div8_aligned o : 0 <= o -> o mod 8 = 0 -> div8 o = Some (o / 8).
Proof.
  intros Ho Hm. unfold div8.
  rewrite Z.rem_mod_nonneg, Hm by lia. cbn [Z.eqb].
  rewrite Z.quot_div_nonneg by lia. reflexivity.
Qed.

Lemma read_bytes_frame (d1 d2 : Buffer) i n :
  length d1 = length d2 ->
  (forall k, (Z.to_nat i <= k < Z.to_nat i + n)%nat -> d1 !! k = d2 !! k) ->
  Buf.read_bytes d1 (Some i) n = Buf.read_bytes d2 (Some i) n.
Proof.
  intros Hl Hk. unfold Buf.read_bytes, Buf.in_bounds. rewrite Hl.
  destruct (_ && _); [|reflexivity]. f_equal.
  cbn [default from_option id]. apply list_eq. intros k.
  rewrite !lookup_take, !lookup_drop. case_decide; [|reflexivity].
  apply Hk. lia.
Qed.

Lemma read_bytes_frame_int (d1 d2 : Buffer) i n :
  length d1 = length d2 ->
  (forall k, (Z.to_nat i <= k < Z.to_nat i + n)%nat -> d1 !! k = d2 !! k) ->
  Buf.readInt n d1 (Some i) = Buf.readInt n d2 (Some i).
Proof.
  intros Hl Hk. unfold Buf.readInt. now rewrite (read_bytes_frame d1 d2 i n).
Qed.

(** Writing [n] little-endian bytes of [v] and reading them back. *)
Lemma write_le_read n v i (data : Buffer) :
  Buf.in_bounds data (Some i) n = true ->
  exists data', Buf.write_bytes (Buf.le_bytes n v) (Some i) data = Ok data' /\
    length data' = length data /\
    Buf.readUInt n data' (Some i) = Ok (v mod 2 ^ (8 * Z.of_nat n)) /\
    Buf.readInt n data' (Some i)
      = Ok (Buf.signed (8 * Z.of_nat n) (v mod 2 ^ (8 * Z.of_nat n))) /\
    (forall k, (k < Z.to_nat i \/ Z.to_nat i + n <= k)%nat -> data' !! k = data !! k).
Proof.
  intros Hb.
  destruct (write_bytes_ok (Buf.le_bytes n v) i data) as (data' & Hw & Hl & Hr & Hf).
  { rewrite length_le_bytes. exact Hb. }
  rewrite length_le_bytes in Hr, Hf.
  exists data'. repeat split; try assumption.
  - unfold Buf.readUInt. rewrite Hr. cbn. now rewrite le_value_le_bytes.
  - unfold Buf.readInt. rewrite Hr. cbn. now rewrite le_value_le_bytes.
Qed.

Lemma writeUInt_readUInt n v i (data : Buffer) :
  0 <= v <= Buf.umax n -> Buf.in_bounds data (Some i) n = true ->
  exists data', writeUInt n (VInt v) (Some i) data = Ok data' /\
    length data' = length data /\
    Buf.readUInt n data' (Some i) = Ok v /\
    (forall k, (k < Z.to_nat i \/ Z.to_nat i + n <= k)%nat -> data' !! k = data !! k).
Proof.
  intros Hv Hb.
  destruct (write_le_read n v i data Hb) as (data' & Hw & Hl & Hu & _ & Hf).
  exists data'. repeat split; try assumption.
  - unfold writeUInt. cbn. unfold Buf.check_range.
    replace ((0 <=? v) && (v <=? Buf.umax n)) with true
      by (symmetry; apply andb_true_iff; split; apply Z.leb_le; lia).
    cbn. exact Hw.
  - rewrite Hu. f_equal. apply Z.mod_small. unfold Buf.umax in Hv. lia.
Qed.

Lemma writeInt_readInt n v i (data : Buffer) :
  (0 < n)%nat -> Buf.imin n <= v <= Buf.imax n ->
  Buf.in_bounds data (Some i) n = true ->
  exists data', writeInt n (VInt v) (Some i) data = Ok data' /\
    length data' = length data /\
    Buf.readInt n data' (Some i) = Ok v /\
    (forall k, (k < Z.to_nat i \/ Z.to_nat i + n <= k)%nat -> data' !! k = data !! k).
Proof.
  intros Hn Hv Hb.
  destruct (write_le_read n v i data Hb) as (data' & Hw & Hl & _ & Hs & Hf).
  exists data'. repeat split; try assumption.
  - unfold writeInt. cbn. unfold Buf.check_range.
    replace ((Buf.imin n <=? v) && (v <=? Buf.imax n)) with true
      by (symmetry; apply andb_true_iff; split; apply Z.leb_le; lia).
    cbn. exact Hw.
  - rewrite Hs. f_equal. apply signed_mod; [lia|].
    unfold Buf.imin, Buf.imax in Hv. lia.
Qed.

End FieldFacts.

(** ** The binary32 interchange format *)

Section Binary32Facts.

Import Atomics.

Lemma digits2_bounds m :
  2 ^ (Zpos (digits2_pos m) - 1) <= Zpos m < 2 ^ Zpos (digits2_pos m).
Proof.
  induction m as [m IH|m IH|]; cbn [digits2_pos].
  - rewrite Pos2Z.inj_succ.
    replace (Z.succ (Zpos (digits2_pos m)) - 1) with (Z.succ (Zpos (digits2_pos m) - 1)) by lia.
    rewrite !Z.pow_succ_r by lia. lia.
  - rewrite Pos2Z.inj_succ.
    replace (Z.succ (Zpos (digits2_pos m)) - 1) with (Z.succ (Zpos (digits2_pos m) - 1)) by lia.
    rewrite !Z.pow_succ_r by lia. lia.
  - cbn. lia.
Qed.

(** What [valid_binary 24 128] says of a finite number: a normal number has
    a 24-bit mantissa, a subnormal one the least exponent. *)
Lemma bounded_binary32 m e :
  bounded 24 128 m e = true ->
  (2 ^ 23 <= Zpos m < 2 ^ 24 /\ -149 <= e <= 104) \/
  (Zpos m < 2 ^ 23 /\ e = -149).
Proof.
  unfold bounded, canonical_mantissa, fexp, emin.
  rewrite andb_true_iff, Z.eqb_eq, Z.leb_le. intros [Hc He].
  pose proof (digits2_bounds m) as Hd.
  set (d := Zpos (digits2_pos m)) in *.
  assert (Hd0 : 0 < d) by (subst d; lia).
  destruct (Z.max_spec (d + e - 24) (3 - 128 - 24)) as [[Hlt Hmax]|[Hge Hmax]];
    rewrite Hmax in Hc.
  - right. split; [|lia].
    assert (d <= 23) by lia.
    assert (2 ^ d <= 2 ^ 23) by (apply Z.pow_le_mono_r; lia). lia.
  - left. assert (d = 24) by lia.
    replace d with 24 in Hd. change (24 - 1) with 23 in Hd. lia.
Qed.

Lemma binary32_fields s ex ma :
  0 <= ex < 256 -> 0 <= ma < 2 ^ 23 ->
  let b := sign_bit s + ex * 2 ^ 23 + ma in
  (2 ^ 31 <=? b) = s /\ (b / 2 ^ 23) mod 256 = ex /\ b mod 2 ^ 23 = ma.
Proof.
  intros He Hm b. subst b. unfold sign_bit.
  change (2 ^ 31) with 2147483648. change (2 ^ 23) with 8388608 in *.
  destruct s.
  - split; [apply Z.leb_le; lia|].
    split; Z.div_mod_to_equations; lia.
  - split; [apply Z.leb_gt; lia|].
    split; Z.div_mod_to_equations; lia.
Qed.

Lemma binary32_of_bits_of_binary32 x :
  valid_binary 24 128 x = true -> binary32_of_bits (bits_of_binary32 x) = x.
Proof.
  destruct x as [s|s| |s m e]; cbn [valid_binary bits_of_binary32].
  - intros _. destruct s; reflexivity.
  - intros _. destruct s; reflexivity.
  - intros _. reflexivity.
  - intros Hb. apply bounded_binary32 in Hb.
    destruct Hb as [[Hm He]|[Hm He]].
    + replace (2 ^ 23 <=? Zpos m) with true by (symmetry; apply Z.leb_le; lia).
      destruct (binary32_fields s (e + 150) (Zpos m - 2 ^ 23)) as (Hs & Hx & Hma);
        [lia | change (2 ^ 24) with (2 * 2 ^ 23) in Hm; lia |].
      unfold binary32_of_bits. rewrite Hs, Hx, Hma.
      destruct (Z.eqb_spec (e + 150) 0); [lia|].
      destruct (Z.eqb_spec (e + 150) 255); [lia|].
      replace (Zpos m - 2 ^ 23 + 2 ^ 23) with (Zpos m) by lia.
      f_equal. lia.
    + replace (2 ^ 23 <=? Zpos m) with false by (symmetry; apply Z.leb_gt; lia).
      pose proof (binary32_fields s 0 (Zpos m) ltac:(lia) ltac:(lia)) as H.
      cbv zeta in H.
      replace (sign_bit s + 0 * 2 ^ 23 + Zpos m) with (sign_bit s + Zpos m) in H by lia.
      destruct H as (Hs & Hx & Hma).
      unfold binary32_of_bits. rewrite Hs, Hx, Hma. cbn [Z.eqb]. subst e. reflexivity.
Qed.

Lemma bits_of_binary32_range x :
  valid_binary 24 128 x = true -> 0 <= bits_of_binary32 x < 2 ^ 32.
Proof.
  destruct x as [s|s| |s m e]; cbn [valid_binary bits_of_binary32].
  - intros _. destruct s; cbn; lia.
  - intros _. destruct s; cbn; lia.
  - intros _. cbn. lia.
  - intros Hb. apply bounded_binary32 in Hb.
    change (2 ^ 32) with 4294967296. change (2 ^ 24) with 16777216 in Hb.
    change (2 ^ 23) with 8388608 in *.
    assert (Hs : sign_bit s = 0 \/ sign_bit s = 2147483648)
      by (destruct s; cbn; auto).
    destruct Hb as [[Hm He]|[Hm He]].
    + replace (8388608 <=? Zpos m) with true by (symmetry; apply Z.leb_le; lia). lia.
    + replace (8388608 <=? Zpos m) with false by (symmetry; apply Z.leb_gt; lia). lia.
Qed.

End Binary32Facts.

(** ** Round trip of the atomic templates *)

Section AtomicsFacts.

Import Atomics AtomicsSpec.

Lemma fits_in_bounds t (data : Buffer) offset :
  t <> BOOL -> fits t data offset ->
  div8 offset = Some (offset / 8) /\
  Buf.in_bounds data (Some (offset / 8)) (width t) = true.
Proof.
  intros Ht Hf.
  assert (H : 0 <= offset /\ offset mod 8 = 0 /\
              offset / 8 + Z.of_nat (width t) <= Z.of_nat (length data))
    by (destruct t; try exact Hf; congruence).
  destruct H as (Ho & Hm & Hl). split; [now apply div8_aligned|].
  apply in_bounds_spec. split; [apply Z.div_pos; lia|exact Hl].
Qed.

Lemma signed_roundtrip n v (data : Buffer) offset :
  (0 < n)%nat -> Buf.imin n <= v <= Buf.imax n ->
  div8 offset = Some (offset / 8) ->
  Buf.in_bounds data (Some (offset / 8)) n = true ->
  exists data',
    serialize_at n (writeInt n) (VInt v) (Some data) (Some offset) = Ok data' /\
    length data' = length data /\
    deserialize_at n (Buf.readInt n) (Some data') (Some offset) = Ok (VInt v).
Proof.
  intros Hn Hv Hd Hb.
  destruct (writeInt_readInt n v _ data Hn Hv Hb) as (data' & Hw & Hl & Hr & _).
  exists data'. unfold serialize_at, deserialize_at. cbn [default from_option id].
  rewrite Hd, Hw, Hr. auto.
Qed.

Lemma unsigned_roundtrip n v (data : Buffer) offset :
  0 <= v <= Buf.umax n ->
  div8 offset = Some (offset / 8) ->
  Buf.in_bounds data (Some (offset / 8)) n = true ->
  exists data',
    serialize_at n (writeUInt n) (VInt v) (Some data) (Some offset) = Ok data' /\
    deserialize_at n (Buf.readUInt n) (Some data') (Some offset) = Ok (VInt v).
Proof.
  intros Hv Hd Hb.
  destruct (writeUInt_readUInt n v _ data Hv Hb) as (data' & Hw & Hl & Hr & _).
  exists data'. unfold serialize_at, deserialize_at. cbn [default from_option id].
  rewrite Hd, Hw, Hr. auto.
Qed.

Lemma LINT_roundtrip low high (data : Buffer) offset :
  -2147483648 <= low <= 2147483647 -> -2147483648 <= high <= 2147483647 ->
  fits LINT data offset ->
  exists data',
    LINT_serialize (VLowHigh low high) (Some data) (Some offset) = Ok data' /\
    LINT_deserialize (Some data') (Some offset) = Ok (VLowHigh low high).
Proof.
  intros Hlo Hhi Hf.
  destruct (fits_in_bounds LINT data offset ltac:(discriminate) Hf) as [Hd Hb].
  apply in_bounds_spec in Hb. cbn [width] in Hb.
  set (i := offset / 8) in *.
  destruct (writeInt_readInt 4 low i data) as (d1 & Hw1 & Hl1 & Hr1 & _);
    [lia | exact Hlo | apply in_bounds_spec; lia |].
  destruct (writeInt_readInt 4 high (i + 4) d1) as (d2 & Hw2 & Hl2 & Hr2 & Hf2);
    [lia | exact Hhi | apply in_bounds_spec; lia |].
  exists d2. unfold LINT_serialize, LINT_deserialize.
  cbn [default from_option id get_low get_high]. rewrite Hd.
  cbn [plus4 fmap option_fmap option_map]. rewrite Hw1. cbn [mbind result_bind].
  rewrite Hw2. split; [reflexivity|].
  rewrite (read_bytes_frame_int d2 d1 i) by (try lia; intros; apply Hf2; lia).
  rewrite Hr1. cbn [mbind result_bind]. rewrite Hr2. reflexivity.
Qed.

Lemma read_byte (data : Buffer) q x :
  0 <= q -> data !! Z.to_nat q = Some x -> Buf.read_bytes data (Some q) 1 = Ok [x].
Proof.
  intros Hq Hx. pose proof (lookup_lt_Some _ _ _ Hx) as Hlt.
  unfold Buf.read_bytes.
  replace (Buf.in_bounds data (Some q) 1) with true
    by (symmetry; apply in_bounds_spec; lia).
  cbn [default from_option id]. rewrite (drop_S _ _ _ Hx). reflexivity.
Qed.

Lemma read_byte_inv (data : Buffer) q y :
  Buf.read_bytes data (Some q) 1 = Ok [y] -> data !! Z.to_nat q = Some y.
Proof.
  unfold Buf.read_bytes. destruct (Buf.in_bounds data (Some q) 1); [|discriminate].
  cbn [default from_option id]. intros [= H].
  assert (H0 : take 1 (drop (Z.to_nat q) data) !! 0%nat = Some y) by now rewrite H.
  rewrite lookup_take_lt, lookup_drop in H0 by lia.
  now rewrite Nat.add_0_r in H0.
Qed.

Lemma BOOL_roundtrip b (data : Buffer) offset :
  fits BOOL data offset ->
  exists data',
    BOOL_serialize (VBool b) (Some data) (Some offset) = Ok data' /\
    length data' = length data /\
    BOOL_deserialize (Some data') (Some offset) = Ok (VBool b) /\
    forall j, 0 <= j -> bit_at data' j = if j =? offset then b else bit_at data j.
Proof.
  cbn [fits]. intros Hf.
  unfold BOOL_serialize, BOOL_deserialize. cbn [default from_option id truthy].
  unfold JS.rem. rewrite Z.rem_mod_nonneg by lia.
  set (k := offset mod 8).
  assert (Hk : 0 <= k < 8) by (apply Z.mod_pos_bound; lia).
  assert (Hq : (offset - k) / 8 = offset / 8).
  { subst k. rewrite (Z.div_mod offset 8) at 1 by lia.
    replace (8 * (offset / 8) + offset mod 8 - offset mod 8) with (offset / 8 * 8) by lia.
    apply Z.div_mul. lia. }
  rewrite Hq. set (q := offset / 8).
  assert (Hq0 : 0 <= q < Z.of_nat (length data)).
  { subst q. split; [apply Z.div_pos; lia|]. apply Z.div_lt_upper_bound; lia. }
  destruct (lookup_lt_is_Some_2 data (Z.to_nat q)) as [x Hx]; [lia|].
  pose proof (u8_range x) as Hv.
  unfold Buf.readUInt at 1. rewrite (read_byte data q x) by (lia || assumption).
  cbn [mbind result_bind mret result_ret Buf.le_value]. rewrite Z.mul_0_r, Z.add_0_r.
  set (r := if b then JS.or (Buf.u8 x) (JS.shl 1 k)
            else JS.and (Buf.u8 x) (JS.and 255 (JS.not (JS.shl 1 k)))).
  assert (Hr : 0 <= r <= 255 /\
               forall j, 0 <= j ->
                 Z.testbit r j = if j =? k then b else Z.testbit (Buf.u8 x) j).
  { subst r. destruct b.
    - destruct (set_bit_spec (Buf.u8 x) k Hv Hk) as [H1 H2]. split; [exact H1|].
      intros j Hj. rewrite H2 by lia. destruct (j =? k); reflexivity.
    - destruct (clear_bit_spec (Buf.u8 x) k Hv Hk) as [H1 H2]. split; [exact H1|].
      intros j Hj. rewrite H2 by lia. destruct (j =? k); reflexivity. }
  destruct Hr as [Hr Hbits].
  destruct (write_le_read 1 r q data) as (data' & Hw & Hl & _ & Hs & Hfr);
    [apply in_bounds_spec; lia|].
  exists data'. split.
  { unfold Buf.writeUInt, Buf.check_range. change (Buf.umax 1) with 255.
    replace ((0 <=? r) && (r <=? 255)) with true
      by (symmetry; apply andb_true_iff; split; apply Z.leb_le; lia).
    exact Hw. }
  split; [exact Hl|].
  change (8 * Z.of_nat 1) with 8 in Hs. change (2 ^ 8) with 256 in Hs.
  rewrite Z.mod_small in Hs by lia.
  split.
  { rewrite Hs. cbn [mbind result_bind mret result_ret].
    rewrite test_bit_spec by lia. rewrite Hbits by lia.
    now rewrite Z.eqb_refl. }
  assert (Hy : data' !! Z.to_nat q = Some (Buf.byte_of r)).
  { apply read_byte_inv.
    destruct (write_bytes_ok (Buf.le_bytes 1 r) q data) as (d & Hw' & _ & Hr' & _);
      [apply in_bounds_spec; cbn; lia|].
    rewrite Hw in Hw'. injection Hw' as <-. exact Hr'. }
  intros j Hj. unfold bit_at.
  assert (Hjm : 0 <= j mod 8 < 8) by (apply Z.mod_pos_bound; lia).
  destruct (Z.eq_dec (j / 8) q) as [Heq|Hne].
  - rewrite Heq, Hy, Hx, u8_byte_of, Z.mod_small by lia.
    rewrite Hbits by lia.
    destruct (Z.eqb_spec (j mod 8) k) as [Hjk|Hjk];
      destruct (Z.eqb_spec j offset) as [Hjo|Hjo]; try reflexivity.
    + exfalso. apply Hjo.
      rewrite (Z.div_mod j 8), (Z.div_mod offset 8) by lia.
      fold q. fold k. lia.
    + exfalso. apply Hjk. subst j. reflexivity.
  - destruct (Z.eqb_spec j offset) as [Hjo|Hjo]; [subst j; contradiction|].
    rewrite Hfr; [reflexivity|].
    assert (0 <= j / 8) by (apply Z.div_pos; lia). lia.
Qed.

Lemma REAL_roundtrip x (data : Buffer) offset :
  in_range REAL (VFloat x) -> fits REAL data offset ->
  exists data',
    serialize_at 4 writeFloatLE (VFloat x) (Some data) (Some offset) = Ok data' /\
    REAL_deserialize (Some data') (Some offset) = Ok (VFloat x).
Proof.
  cbn [in_range]. intros [Hvalid Hround] Hf.
  destruct (fits_in_bounds REAL data offset ltac:(discriminate) Hf) as [Hd Hb].
  cbn [width] in Hb.
  set (bits := bits_of_binary32 (binary32_of_Num (NF x))).
  destruct (write_le_read 4 bits _ data Hb) as (data' & Hw & _ & Hr & _).
  exists data'. unfold serialize_at, REAL_deserialize, writeFloatLE, readFloatLE.
  cbn [default from_option id ToNumber mbind result_bind]. rewrite Hd.
  fold bits. split; [exact Hw|].
  unfold Buf.readUInt in Hr. destruct (Buf.read_bytes data' _ 4) as [bs|e];
    [|discriminate].
  cbn [mbind result_bind mret result_ret] in Hr |- *. injection Hr as Hr.
  rewrite Hr, Z.mod_small by (apply bits_of_binary32_range; exact Hvalid).
  subst bits. rewrite binary32_of_bits_of_binary32 by exact Hvalid.
  unfold Math_fround in Hround. now rewrite Hround.
Qed.

Lemma TIME_reads_seconds n (data : Buffer) offset :
  0 <= n <= 18446744073709551615 -> fits TIME data offset ->
  exists data',
    serialize_at 8 writeBigUInt64LE (VBigInt n) (Some data) (Some offset) = Ok data' /\
    TIME_deserialize (Some data') (Some offset) = Ok (seconds_of n).
Proof.
  intros Hn Hf.
  destruct (fits_in_bounds TIME data offset ltac:(discriminate) Hf) as [Hd Hb].
  cbn [width] in Hb.
  destruct (write_le_read 8 n _ data Hb) as (data' & Hw & _ & Hr & _).
  exists data'. unfold serialize_at, TIME_deserialize, writeBigUInt64LE, readBigUInt64LE.
  cbn [default from_option id]. rewrite Hd. unfold Buf.check_range.
  change (Buf.umax 8) with 18446744073709551615.
  replace ((0 <=? n) && (n <=? 18446744073709551615)) with true
    by (symmetry; apply andb_true_iff; split; apply Z.leb_le; lia).
  cbn [mbind result_bind]. split; [exact Hw|].
  rewrite Hr. cbn [mbind result_bind mret result_ret].
  change (2 ^ (8 * Z.of_nat 8)) with 18446744073709551616.
  rewrite Z.mod_small by lia. reflexivity.
Qed.

(** Omitted arguments stand for [Buffer.alloc(width)] and offset 0. *)
Lemma templates_defaults t v (data : option Buffer) (offset : option Z) :
  serialize (templates t) v data offset
  = serialize (templates t) v (Some (default (Buf.alloc (width t)) data))
      (Some (default 0 offset)) /\
  forall d', deserialize (templates t) (Some d') offset
             = deserialize (templates t) (Some d') (Some (default 0 offset)).
Proof.
  destruct t, data, offset; split; reflexivity.
Qed.

End AtomicsFacts.

Section AtomicsClaims.

Import Atomics AtomicsSpec.

(** C1, as amended.  For every template of the table except TIME and
    TIME_NSEC, and every value in the range of its type, [deserialize] of
    what [serialize] wrote (into any buffer with room, the default one
    included) is that value.  For BOOL this holds at every bit offset, and
    [serialize] changes the addressed bit only: every other bit of the
    buffer keeps its value.  TIME and TIME_NSEC write the 64-bit count
    unchanged and read it back divided by 10^9, as a Number of seconds. *)
Theorem atomics_roundtrip :
  (forall t v (data : option Buffer) (offset : option Z),
      t <> TIME -> t <> TIME_NSEC ->
      in_range t v ->
      fits t (default (Buf.alloc (width t)) data) (default 0 offset) ->
      exists data',
        serialize (templates t) v data offset = Ok data' /\
        deserialize (templates t) (Some data') offset = Ok v)
  /\
  (forall b (data : Buffer) offset,
      fits BOOL data offset ->
      exists data',
        serialize (templates BOOL) (VBool b) (Some data) (Some offset) = Ok data' /\
        length data' = length data /\
        forall j, 0 <= j ->
          bit_at data' j = if j =? offset then b else bit_at data j)
  /\
  (forall t n (data : option Buffer) (offset : option Z),
      t = TIME \/ t = TIME_NSEC ->
      in_range t (VBigInt n) ->
      fits t (default (Buf.alloc (width t)) data) (default 0 offset) ->
      exists data',
        serialize (templates t) (VBigInt n) data offset = Ok data' /\
        deserialize (templates t) (Some data') offset = Ok (seconds_of n)).
Proof.
  split; [|split].
  - intros t v data offset Ht1 Ht2 Hv Hf.
    destruct (templates_defaults t v data offset) as [-> Hd].
    set (d := default (Buf.alloc (width t)) data) in *.
    set (o := default 0 offset) in *.
    enough (exists data',
               serialize (templates t) v (Some d) (Some o) = Ok data' /\
               deserialize (templates t) (Some data') (Some o) = Ok v) as Hgen.
    { destruct Hgen as (data' & H1 & H2). exists data'. now rewrite Hd. }
    clearbody d o. clear Hd.
    destruct t; try congruence; destruct v; try contradiction; cbn [in_range] in Hv;
      cbn [templates serialize deserialize].
    + destruct (BOOL_roundtrip b d o Hf) as (d' & H1 & _ & H2 & _). eauto.
    + destruct (fits_in_bounds SINT d o ltac:(discriminate) Hf) as [Hd Hb].
      destruct (signed_roundtrip 1 n d o ltac:(lia) Hv Hd Hb) as (d' & H1 & Hl & H2).
      exists d'. split; [exact H1|].
      unfold SINT_deserialize. cbn [default from_option id]. rewrite Hl.
      apply in_bounds_spec in Hb. cbn [width] in Hb.
      destruct Hf as (Ho & Hm & _).
      replace (8 * Z.of_nat (length d) <=? o) with false.
      * exact H2.
      * symmetry. apply Z.leb_gt.
        rewrite (Z.div_mod o 8) at 1 by lia. lia.
    + destruct (fits_in_bounds USINT d o ltac:(discriminate) Hf) as [Hd Hb].
      apply unsigned_roundtrip; assumption.
    + destruct (fits_in_bounds INT d o ltac:(discriminate) Hf) as [Hd Hb].
      destruct (signed_roundtrip 2 n d o ltac:(lia) Hv Hd Hb) as (d' & H1 & _ & H2).
      eauto.
    + destruct (fits_in_bounds UINT d o ltac:(discriminate) Hf) as [Hd Hb].
      apply unsigned_roundtrip; assumption.
    + destruct (fits_in_bounds WORD d o ltac:(discriminate) Hf) as [Hd Hb].
      apply unsigned_roundtrip; assumption.
    + destruct (fits_in_bounds DINT d o ltac:(discriminate) Hf) as [Hd Hb].
      destruct (signed_roundtrip 4 n d o ltac:(lia) Hv Hd Hb) as (d' & H1 & _ & H2).
      eauto.
    + destruct (fits_in_bounds UDINT d o ltac:(discriminate) Hf) as [Hd Hb].
      apply unsigned_roundtrip; assumption.
    + destruct Hv. apply LINT_roundtrip; assumption.
    + apply REAL_roundtrip; assumption.
    + destruct Hv. apply LINT_roundtrip; assumption.
  - intros b data offset Hf.
    destruct (BOOL_roundtrip b data offset Hf) as (d' & H1 & Hl & _ & H2). eauto.
  - intros t n data offset Ht Hv Hf.
    destruct (templates_defaults t (VBigInt n) data offset) as [-> Hd].
    set (d := default (Buf.alloc (width t)) data) in *.
    set (o := default 0 offset) in *.
    enough (exists data',
               serialize (templates t) (VBigInt n) (Some d) (Some o) = Ok data' /\
               deserialize (templates t) (Some data') (Some o) = Ok (seconds_of n)) as Hgen.
    { destruct Hgen as (data' & H1 & H2). exists data'. now rewrite Hd. }
    clearbody d o. clear Hd.
    destruct Ht; subst t; apply TIME_reads_seconds; assumption.
Qed.

End AtomicsClaims.

(** ** Decimal digits *)

Section DecimalFacts.

Lemma to_int_not_nil z : Z.to_int z <> Decimal.Pos Decimal.Nil /\ Z.to_int z <> Decimal.Neg Decimal.Nil.
Proof.
  destruct z as [|p|p]; cbn; split; try discriminate;
    intros [= H]; exact (DecimalPos.Unsigned.to_uint_nonnil p H).
Qed.

Lemma decimal_inj a b : Num.decimal a = Num.decimal b -> a = b.
Proof.
  unfold Num.decimal. intros H.
  apply DecimalZ.to_int_inj.
  destruct (to_int_not_nil a) as [Ha1 Ha2], (to_int_not_nil b) as [Hb1 Hb2].
  pose proof (NilZero.isi _ Ha1 Ha2) as Ia. pose proof (NilZero.isi _ Hb1 Hb2) as Ib.
  rewrite H in Ia. rewrite Ia in Ib. now injection Ib.
Qed.

Lemma decimal_nonempty z : Num.decimal z <> EmptyString.
Proof.
  unfold Num.decimal. intros H.
  destruct (to_int_not_nil z) as [H1 H2].
  pose proof (NilZero.isi _ H1 H2) as I. rewrite H in I. discriminate.
Qed.

End DecimalFacts.

(** ** Decimal digits and their values *)

Section DigitFacts.

Import Num TextSpec.

Local Open Scope string_scope.
Local Open Scope Z_scope.

Local Abbreviation step := (fun acc c => 10 * acc + digit_value c).

Lemma append_assoc (a b c : string) : (a ++ b) ++ c = a ++ (b ++ c).
Proof.
  induction a as [|x a IH]; cbn; [reflexivity|now rewrite IH].
Qed.

Lemma append_empty_right (a : string) : a ++ "" = a.
Proof. induction a as [|x a IH]; cbn; [reflexivity|now rewrite IH]. Qed.

Lemma length_append (a b : string) :
  String.length (a ++ b) = (String.length a + String.length b)%nat.
Proof. induction a as [|x a IH]; cbn; [reflexivity|now rewrite IH]. Qed.

Lemma list_of_append (a b : string) :
  list_ascii_of_string (a ++ b) = (list_ascii_of_string a ++ list_ascii_of_string b)%list.
Proof. induction a as [|x a IH]; cbn; [reflexivity|now rewrite IH]. Qed.

Lemma length_list_of (a : string) : length (list_ascii_of_string a) = String.length a.
Proof. induction a as [|x a IH]; cbn; [reflexivity|now rewrite IH]. Qed.

Lemma uint_digits d : all_chars is_digit (NilEmpty.string_of_uint d) = true.
Proof.
  unfold all_chars. induction d; cbn [NilEmpty.string_of_uint list_ascii_of_string forallb];
    rewrite ?IHd; reflexivity.
Qed.

Lemma decimal_digits z : 0 <= z -> all_chars is_digit (decimal z) = true.
Proof.
  intros Hz. unfold decimal.
  destruct z as [|p|p]; [reflexivity| |lia].
  cbn [Z.to_int NilZero.string_of_int NilZero.string_of_uint].
  destruct (Pos.to_uint p); try apply uint_digits. reflexivity.
Qed.

(** The value of digits read after others. *)
Lemma fold_digits_shift l : forall acc,
  fold_left step l acc = acc * 10 ^ Z.of_nat (length l) + fold_left step l 0.
Proof.
  induction l as [|c l IH]; intros acc; cbn [fold_left length].
  - rewrite Z.pow_0_r. lia.
  - rewrite IH, (IH (10 * 0 + digit_value c)).
    rewrite Nat2Z.inj_succ, Z.pow_succ_r by lia. ring.
Qed.

Lemma decimal_value_append a b :
  decimal_value (a ++ b)
  = decimal_value a * 10 ^ Z.of_nat (String.length b) + decimal_value b.
Proof.
  unfold decimal_value. rewrite list_of_append, fold_left_app.
  rewrite fold_digits_shift, length_list_of. reflexivity.
Qed.

Lemma fold_digits_bound l : forall acc,
  0 <= acc -> forallb is_digit l = true ->
  acc * 10 ^ Z.of_nat (length l) <= fold_left step l acc
  < (acc + 1) * 10 ^ Z.of_nat (length l).
Proof.
  induction l as [|c l IH]; intros acc Hacc; cbn [fold_left length forallb].
  - intros _. rewrite Z.pow_0_r. lia.
  - rewrite andb_true_iff. intros [Hc Hl].
    assert (Hd : 0 <= digit_value c <= 9).
    { revert Hc. unfold is_digit, digit_value. rewrite andb_true_iff, !N.leb_le. lia. }
    specialize (IH (10 * acc + digit_value c) ltac:(lia) Hl).
    rewrite Nat2Z.inj_succ, Z.pow_succ_r by lia.
    assert (Hp : 0 < 10 ^ Z.of_nat (length l)) by (apply Z.pow_pos_nonneg; lia).
    nia.
Qed.

(** Reading the digits at the head of a text. *)
Lemma read_digits_app w : forall acc cnt r,
  all_digits w = true ->
  (forall c t, r = String c t -> is_digit c = false) ->
  read_digits acc cnt (w ++ r)
  = (fold_left step (list_ascii_of_string w) acc, cnt + Z.of_nat (String.length w), r).
Proof.
  unfold all_digits.
  induction w as [|c w IH]; intros acc cnt r Hw Hr.
  - cbn [append list_ascii_of_string fold_left String.length].
    rewrite Z.add_0_r. destruct r as [|c t]; [reflexivity|].
    cbn [read_digits]. now rewrite (Hr c t eq_refl).
  - cbn [list_ascii_of_string forallb] in Hw. apply andb_true_iff in Hw.
    destruct Hw as [Hc Hw].
    cbn [append read_digits list_ascii_of_string fold_left String.length].
    rewrite Hc, (IH _ _ r Hw Hr). f_equal. f_equal. lia.
Qed.

(** The digits of a number have the number as their value. *)
Lemma string_of_uint_acc d : forall acc,
  fold_left step (list_ascii_of_string (NilEmpty.string_of_uint d)) (Z.pos acc)
  = Z.pos (Pos.of_uint_acc d acc).
Proof.
  induction d; intros acc;
    cbn [NilEmpty.string_of_uint list_ascii_of_string fold_left Pos.of_uint_acc];
    try reflexivity;
    match goal with
    | |- fold_left _ _ ?a = Z.pos (Pos.of_uint_acc _ ?b) =>
        replace a with (Z.pos b) by (unfold digit_value; cbn; lia)
    end; apply IHd.
Qed.

Lemma string_of_uint_value d :
  decimal_value (NilEmpty.string_of_uint d) = Z.of_N (Pos.of_uint d).
Proof.
  unfold decimal_value.
  induction d;
    cbn [NilEmpty.string_of_uint list_ascii_of_string fold_left Pos.of_uint];
    try reflexivity;
    try (match goal with
         | |- fold_left _ _ ?a = Z.of_N (N.pos (Pos.of_uint_acc _ ?b)) =>
             replace a with (Z.pos b) by (unfold digit_value; cbn; lia)
         end; apply string_of_uint_acc).
  exact IHd.
Qed.

Lemma decimal_pos p : decimal (Z.pos p) = NilEmpty.string_of_uint (Pos.to_uint p).
Proof.
  unfold decimal. cbn [Z.to_int NilZero.string_of_int NilZero.string_of_uint].
  destruct (Pos.to_uint p) eqn:E; try reflexivity.
  now apply DecimalPos.Unsigned.to_uint_nonnil in E.
Qed.

Lemma decimal_value_decimal z : 0 <= z -> decimal_value (decimal z) = z.
Proof.
  intros Hz. destruct z as [|p|p]; [reflexivity| |lia].
  rewrite decimal_pos, string_of_uint_value, DecimalPos.Unsigned.of_to. reflexivity.
Qed.

(** A positive number's digits do not start with a zero. *)
Lemma decimal_head z c t : 0 < z -> decimal z = String c t -> c <> "0"%char.
Proof.
  intros Hz. destruct z as [|p|p]; try lia. rewrite decimal_pos.
  pose proof (DecimalPos.Unsigned.to_of (Pos.to_uint p)) as H.
  rewrite DecimalPos.Unsigned.of_to in H. cbn [N.to_uint] in H.
  pose proof (DecimalPos.Unsigned.to_uint_nonzero p) as Hnz.
  assert (Hhead : forall l, Pos.to_uint p <> Decimal.D0 l).
  { intros l El. rewrite H in El. unfold Decimal.unorm in El.
    destruct (Decimal.nzhead (Pos.to_uint p)) eqn:En;
      try discriminate El.
    - injection El as <-. rewrite H in Hnz. unfold Decimal.unorm in Hnz.
      rewrite En in Hnz. now apply Hnz.
    - now apply DecimalFacts.nzhead_nonzero in En. }
  destruct (Pos.to_uint p) as [|l|l|l|l|l|l|l|l|l|l]; cbn [NilEmpty.string_of_uint];
    try discriminate; intros [= <- _]; try discriminate.
  now specialize (Hhead l).
Qed.

Lemma digits10_pos z : 1 <= digits10 z.
Proof.
  unfold digits10. pose proof (decimal_nonempty z).
  destruct (decimal z); [contradiction|]. cbn [String.length]. lia.
Qed.

(** The number of digits of a positive number. *)
Lemma digits10_bounds z : 0 < z -> 10 ^ (digits10 z - 1) <= z < 10 ^ digits10 z.
Proof.
  intros Hz. unfold digits10.
  pose proof (decimal_value_decimal z ltac:(lia)) as Hv.
  pose proof (decimal_digits z ltac:(lia)) as Hd.
  destruct (decimal z) as [|c t] eqn:E; [now apply decimal_nonempty in E|].
  pose proof (decimal_head z c t Hz E) as Hc.
  unfold decimal_value in Hv. unfold all_chars in Hd.
  cbn [list_ascii_of_string fold_left forallb] in Hv, Hd.
  apply andb_true_iff in Hd. destruct Hd as [Hdc Hdt].
  assert (Hdv : 1 <= digit_value c <= 9).
  { revert Hdc Hc. unfold is_digit, digit_value. rewrite andb_true_iff, !N.leb_le.
    intros [H1 H2] Hne.
    assert (N_of_ascii c <> 48%N).
    { intros H48. apply Hne. rewrite <- (ascii_N_embedding c), H48. reflexivity. }
    lia. }
  pose proof (fold_digits_bound (list_ascii_of_string t) (10 * 0 + digit_value c)
                ltac:(lia) Hdt) as Hb.
  rewrite Hv, length_list_of in Hb.
  cbn [String.length]. rewrite Nat2Z.inj_succ.
  replace (Z.succ (Z.of_nat (String.length t)) - 1) with (Z.of_nat (String.length t)) by lia.
  rewrite Z.pow_succ_r by lia.
  assert (Hp : 0 < 10 ^ Z.of_nat (String.length t)) by (apply Z.pow_pos_nonneg; lia).
  nia.
Qed.

Lemma digits10_unique z d : 0 < z -> 10 ^ (d - 1) <= z < 10 ^ d -> digits10 z = d.
Proof.
  intros Hz [Hlo Hhi]. pose proof (digits10_bounds z Hz) as [Blo Bhi].
  pose proof (digits10_pos z) as Hk.
  assert (Hd : 1 <= d).
  { destruct (Z.lt_ge_cases d 1) as [Hlt|]; [|assumption].
    destruct (Z.eq_dec d 0) as [->|]; [cbn in Hhi; lia|].
    rewrite Z.pow_neg_r in Hhi by lia. lia. }
  destruct (Z.lt_trichotomy (digits10 z) d) as [Hlt|[Heq|Hgt]]; [|assumption|].
  - assert (10 ^ digits10 z <= 10 ^ (d - 1)) by (apply Z.pow_le_mono_r; lia). lia.
  - assert (10 ^ d <= 10 ^ (digits10 z - 1)) by (apply Z.pow_le_mono_r; lia). lia.
Qed.

End DigitFacts.

(** ** The double nearest to a fraction *)

Section NearestFacts.

Import Num.

Local Open Scope Z_scope.

(** An integer of at most 53 significant bits is its own rounding. *)
Lemma round53_exact m a q :
  0 < m < 2 ^ 53 -> 0 <= a -> 0 < q -> round53 (q * (m * 2 ^ a)) q = m * 2 ^ a.
Proof.
  intros Hm Ha Hq. unfold round53.
  set (X := m * 2 ^ a).
  assert (Hpa : 0 < 2 ^ a) by (apply Z.pow_pos_nonneg; lia).
  assert (HX : 0 < X) by (subst X; nia).
  replace (q * X / q) with X by (rewrite Z.mul_comm, Z.div_mul; lia).
  destruct (Z.ltb_spec X (2 ^ 53)) as [Hlt|Hge].
  - rewrite Z.pow_0_r, !Z.mul_1_r.
    replace (q * X / q) with X by (rewrite Z.mul_comm, Z.div_mul; lia).
    replace (q * X mod q) with 0 by (rewrite Z.mul_comm, Z.mod_mul; lia).
    destruct (Z.ltb_spec (2 * 0) q); lia.
  - assert (Hlog : Z.log2 X = a + Z.log2 m) by (subst X; apply Z.log2_mul_pow2; lia).
    assert (Hlm : Z.log2 m < 53) by (apply Z.log2_lt_pow2; lia).
    assert (HlX : 53 <= Z.log2 X) by (apply Z.log2_le_pow2; lia).
    set (e := Z.log2 X - 52).
    assert (He : 1 <= e <= a) by (subst e; lia).
    assert (Hpe : 0 < 2 ^ e) by (apply Z.pow_pos_nonneg; lia).
    assert (HXe : X = m * 2 ^ (a - e) * 2 ^ e).
    { subst X. rewrite <- Z.mul_assoc, <- Z.pow_add_r by lia. do 2 f_equal. lia. }
    assert (HP : q * X = m * 2 ^ (a - e) * (q * 2 ^ e)) by (rewrite HXe at 1; ring).
    rewrite HP, Z.div_mul, Z.mod_mul by nia.
    destruct (Z.ltb_spec (2 * 0) (q * 2 ^ e)); [|nia].
    now rewrite <- HXe.
Qed.

(** [M * 5^E / 10^E] is [M / 2^E], and a double when [M] has at most 53 bits
    and [E] is at most 1074. *)
Lemma nearest_fraction_exact M E :
  0 < M < 2 ^ 53 -> 1 <= E <= 1074 ->
  nearest_double (M * 5 ^ E) (10 ^ E) * 2 ^ E = M * 2 ^ 1074.
Proof.
  intros HM HE. unfold nearest_double.
  assert (H10 : 10 <= 10 ^ E).
  { change 10 with (10 ^ 1) at 1. apply Z.pow_le_mono_r; lia. }
  destruct (Z.eqb_spec (10 ^ E) 1) as [H1|_]; [lia|].
  assert (Hsplit : 2 ^ 1074 = 2 ^ E * 2 ^ (1074 - E)).
  { rewrite <- Z.pow_add_r by lia. f_equal. lia. }
  assert (H105 : 10 ^ E = 2 ^ E * 5 ^ E).
  { change 10 with (2 * 5). apply Z.pow_mul_l. }
  replace (M * 5 ^ E * 2 ^ 1074) with (10 ^ E * (M * 2 ^ (1074 - E)))
    by (rewrite Hsplit, H105; ring).
  rewrite round53_exact by lia. rewrite Hsplit. ring.
Qed.

(** An odd number times a power of two is so in one way. *)
Lemma odd_pow2_unique a b i j :
  Z.odd a = true -> Z.odd b = true -> 0 <= i -> 0 <= j ->
  a * 2 ^ i = b * 2 ^ j -> a = b /\ i = j.
Proof.
  assert (Hlt : forall a b i j, Z.odd a = true -> 0 <= i -> i < j ->
              a * 2 ^ i = b * 2 ^ j -> False).
  { intros x y u v Hx Hu Huv H.
    assert (Hp : 0 < 2 ^ u) by (apply Z.pow_pos_nonneg; lia).
    replace v with (u + (1 + (v - u - 1))) in H by lia.
    rewrite !Z.pow_add_r in H by lia. change (2 ^ 1) with 2 in H.
    assert (Hx2 : x = 2 * (y * 2 ^ (v - u - 1))) by nia.
    rewrite Hx2, Z.odd_mul in Hx. discriminate Hx. }
  intros Ha Hb Hi Hj H.
  destruct (Z.lt_trichotomy i j) as [Hij|[->|Hij]].
  - exfalso. exact (Hlt a b i j Ha Hi Hij H).
  - split; [|reflexivity].
    assert (Hp : 0 < 2 ^ j) by (apply Z.pow_pos_nonneg; lia). nia.
  - exfalso. symmetry in H. exact (Hlt b a j i Hb Hj Hij H).
Qed.

End NearestFacts.

(** ** The number a text denotes *)

Section RenderFacts.

Import Num TextSpec.

Local Open Scope string_scope.
Local Open Scope Z_scope.

Lemma all_digits_append a b :
  all_digits (a ++ b) = all_digits a && all_digits b.
Proof. unfold all_digits. now rewrite list_of_append, forallb_app. Qed.

Lemma read_digits_end w acc cnt :
  all_digits w = true ->
  read_digits acc cnt w
  = (acc * 10 ^ Z.of_nat (String.length w) + decimal_value w,
     cnt + Z.of_nat (String.length w), "").
Proof.
  intros Hw. rewrite <- (append_empty_right w) at 1.
  rewrite read_digits_app; [|exact Hw|discriminate].
  rewrite fold_digits_shift, length_list_of. reflexivity.
Qed.

Lemma read_digits_stop w c r acc cnt :
  all_digits w = true -> is_digit c = false ->
  read_digits acc cnt (w ++ String c r)
  = (acc * 10 ^ Z.of_nat (String.length w) + decimal_value w,
     cnt + Z.of_nat (String.length w), String c r).
Proof.
  intros Hw Hc. rewrite read_digits_app; [|exact Hw|now intros c' t [= <- _]].
  rewrite fold_digits_shift, length_list_of. reflexivity.
Qed.

Lemma denoted_layout w1 (frac : option string) (ex : option (bool * string)) :
  all_digits w1 = true ->
  all_digits (default "" frac) = true ->
  all_digits (default "" (snd <$> ex)) = true ->
  denoted (w1 ++ fraction_part frac ++ exponent_part ex)
  = let c := decimal_value (w1 ++ default "" frac) in
    let t := match ex with
             | Some (negative, w3) =>
                 if negative then - decimal_value w3 else decimal_value w3
             | None => 0
             end - Z.of_nat (String.length (default "" frac)) in
    (c * 10 ^ Z.max t 0, 10 ^ Z.max (- t) 0).
Proof.
  intros H1 H2 H3. unfold denoted.
  assert (Hex : forall f,
             match exponent_part ex with
             | String "e" (String sign r) =>
                 let '(x, _, _) := read_digits 0 0 r in
                 (if Ascii.eqb sign "-" then - x else x) - f
             | _ => - f
             end
             = match ex with
               | Some (negative, w3) =>
                   if negative then - decimal_value w3 else decimal_value w3
               | None => 0
               end - f).
  { intros f. destruct ex as [[negative w3]|]; cbn [exponent_part]; [|lia].
    cbn [fmap option_fmap option_map default from_option id snd] in H3.
    rewrite (read_digits_end w3 0 0 H3).
    destruct negative; cbn [Ascii.eqb Bool.eqb]; lia. }
  destruct frac as [w2|]; cbn [fraction_part default from_option id] in *.
  - cbn [append]. rewrite (read_digits_stop w1 "." _ 0 0 H1 eq_refl).
    destruct ex as [[negative w3]|]; cbn [exponent_part] in *.
    + rewrite (read_digits_stop w2 "e" _ _ 0 H2 eq_refl).
      specialize (Hex (0 + Z.of_nat (String.length w2))). cbv zeta in *.
      rewrite Hex, decimal_value_append, Z.add_0_l. reflexivity.
    + rewrite append_empty_right, (read_digits_end w2 _ 0 H2).
      rewrite decimal_value_append. cbv zeta. rewrite !Z.add_0_l. reflexivity.
  - cbn [append String.length Nat2Z.inj]. rewrite !append_empty_right.
    destruct ex as [[negative w3]|]; cbn [exponent_part] in *.
    + rewrite (read_digits_stop w1 "e" _ 0 0 H1 eq_refl).
      specialize (Hex 0). cbv zeta in *. rewrite Hex. cbn [Z.of_nat].
      rewrite Z.add_0_l. reflexivity.
    + rewrite append_empty_right, (read_digits_end w1 0 0 H1).
      cbv zeta. cbn [Z.of_nat]. rewrite Z.add_0_l. reflexivity.
Qed.

Lemma zeros_facts j :
  all_digits (zeros j) = true /\ decimal_value (zeros j) = 0 /\
  String.length (zeros j) = Z.to_nat j.
Proof.
  unfold zeros, all_digits, decimal_value.
  induction (Z.to_nat j) as [|k (IH1 & IH2 & IH3)]; cbn; [auto|].
  cbn in IH1, IH2. rewrite IH3. auto.
Qed.

Lemma split_at_spec n : forall s a b,
  split_at n s = (a, b) ->
  a ++ b = s /\ String.length a = Nat.min n (String.length s).
Proof.
  induction n as [|n IH]; intros s a b; cbn [split_at].
  - intros [= <- <-]. split; [reflexivity|]. now destruct s.
  - destruct s as [|c s]; [intros [= <- <-]; auto|].
    destruct (split_at n s) as [a' b'] eqn:E. intros [= <- <-].
    destruct (IH s a' b' E) as [H1 H2]. cbn. now rewrite H1, H2.
Qed.

Lemma denoted_digits w : all_digits w = true -> denoted w = (decimal_value w, 1).
Proof.
  intros Hw.
  pose proof (denoted_layout w None None Hw eq_refl eq_refl) as H.
  cbn [fraction_part exponent_part default from_option id append] in H.
  rewrite !append_empty_right in H. rewrite H. cbn [String.length].
  change (0 - Z.of_nat 0) with 0. change (- 0) with 0. change (Z.max 0 0) with 0.
  now rewrite Z.pow_0_r, Z.mul_1_r.
Qed.

Lemma decimal_facts s :
  0 <= s ->
  all_digits (decimal s) = true /\ decimal_value (decimal s) = s /\
  Z.of_nat (String.length (decimal s)) = digits10 s.
Proof.
  intros Hs. split; [exact (decimal_digits s Hs)|].
  split; [exact (decimal_value_decimal s Hs)|reflexivity].
Qed.

Lemma exponential_denoted s n :
  0 <= s -> denoted (exponential s n) = (numerator s n, denominator s n).
Proof.
  intros Hs. destruct (decimal_facts s Hs) as (Hd & Hv & Hk).
  destruct (decimal_facts (Z.abs (n - 1)) ltac:(lia)) as (Hed & Hev & _).
  unfold exponential, numerator, denominator. cbv zeta. rewrite <- Hk.
  destruct (decimal s) as [|d rest] eqn:E; [now apply decimal_nonempty in E|].
  assert (Hd1 : all_digits (String d "") = true /\ all_digits rest = true).
  { unfold all_digits in *. cbn [list_ascii_of_string forallb] in *.
    apply andb_true_iff in Hd. now rewrite (proj1 Hd), (proj2 Hd). }
  destruct Hd1 as [Hd1 Hrest].
  set (negative := n - 1 <? 0).
  assert (Ht : (if negative then - decimal_value (decimal (Z.abs (n - 1)))
                else decimal_value (decimal (Z.abs (n - 1)))) = n - 1).
  { rewrite Hev. subst negative. destruct (Z.ltb_spec (n - 1) 0); lia. }
  destruct rest as [|c r].
  - change (String d "e" ++ String (if negative then "-"%char else "+"%char)
                              (decimal (Z.abs (n - 1))))
      with (String d "" ++ fraction_part None
              ++ exponent_part (Some (negative, decimal (Z.abs (n - 1))))).
    rewrite denoted_layout; [|exact Hd1|reflexivity|exact Hed].
    cbv zeta. cbn [default from_option id String.length Z.of_nat].
    rewrite append_empty_right, Ht, Hv. cbn [Z.of_nat Pos.of_succ_nat].
    (f_equal; [f_equal; f_equal; lia|f_equal; lia]).
  - change (String d (String "." (String c r)) ++ "e"
              ++ String (if negative then "-"%char else "+"%char)
                   (decimal (Z.abs (n - 1))))
      with (String d "" ++ fraction_part (Some (String c r))
              ++ exponent_part (Some (negative, decimal (Z.abs (n - 1))))).
    rewrite denoted_layout; [|exact Hd1|exact Hrest|exact Hed].
    cbv zeta. cbn [default from_option id]. rewrite Ht.
    change (String d "" ++ String c r) with (String d (String c r)). rewrite Hv.
    cbn [String.length]. rewrite !Nat2Z.inj_succ.
    (f_equal; [f_equal; f_equal; lia|f_equal; lia]).
Qed.

Lemma render_denoted s n :
  0 <= s -> denoted (render s n) = (numerator s n, denominator s n).
Proof.
  intros Hs. destruct (decimal_facts s Hs) as (Hd & Hv & Hk).
  unfold render. cbv zeta.
  destruct ((digits10 s <=? n) && (n <=? 21)) eqn:C1.
  { apply andb_true_iff in C1. destruct C1 as [C1 _]. apply Z.leb_le in C1.
    destruct (zeros_facts (n - digits10 s)) as (Hz1 & Hz2 & Hz3).
    rewrite denoted_digits by (rewrite all_digits_append, Hd, Hz1; reflexivity).
    rewrite decimal_value_append, Hv, Hz2, Hz3, Z2Nat.id by lia.
    unfold numerator, denominator.
    rewrite Z.max_l, (Z.max_r (digits10 s - n)) by lia.
    f_equal. lia. }
  destruct ((0 <? n) && (n <=? 21)) eqn:C2.
  { apply andb_true_iff in C2. destruct C2 as [C2 C2']. apply Z.ltb_lt in C2.
    apply Z.leb_le in C2'. apply andb_false_iff in C1.
    assert (Hn : n < digits10 s) by (destruct C1 as [C1|C1]; [apply Z.leb_gt in C1|apply Z.leb_gt in C1]; lia).
    destruct (split_at (Z.to_nat n) (decimal s)) as [whole part] eqn:E.
    apply split_at_spec in E. destruct E as [Happ Hlen].
    assert (Hparts : all_digits whole = true /\ all_digits part = true).
    { rewrite <- Happ, all_digits_append in Hd. now apply andb_true_iff in Hd. }
    destruct Hparts as [Hw Hp].
    change (whole ++ String "." part) with (whole ++ String "." part).
    replace (String "."%char part) with (fraction_part (Some part) ++ exponent_part None)
      by (cbn; now rewrite append_empty_right).
    rewrite denoted_layout; [|exact Hw|exact Hp|reflexivity].
    cbv zeta. cbn [default from_option id]. rewrite Happ, Hv.
    assert (Hpl : Z.of_nat (String.length part) = digits10 s - n).
    { rewrite <- Hk, <- Happ, length_append in *. lia. }
    rewrite Hpl. unfold numerator, denominator.
    (f_equal; [f_equal; f_equal; lia|f_equal; lia]). }
  destruct ((-6 <? n) && (n <=? 0)) eqn:C3.
  { apply andb_true_iff in C3. destruct C3 as [_ C3]. apply Z.leb_le in C3.
    destruct (zeros_facts (- n)) as (Hz1 & Hz2 & Hz3).
    change ("0." ++ zeros (- n) ++ decimal s)
      with (String "0" (String "." (zeros (- n) ++ decimal s))).
    replace (String "0" (String "." (zeros (- n) ++ decimal s)))
      with ("0" ++ fraction_part (Some (zeros (- n) ++ decimal s)) ++ exponent_part None)
      by (cbn; now rewrite append_empty_right).
    rewrite denoted_layout;
      [|reflexivity
       |cbn [default from_option id]; rewrite all_digits_append, Hd, Hz1; reflexivity
       |reflexivity].
    cbv zeta. cbn [default from_option id].
    change ("0" ++ zeros (- n) ++ decimal s) with (String "0" (zeros (- n) ++ decimal s)).
    replace (decimal_value (String "0" (zeros (- n) ++ decimal s))) with s.
    2:{ change (String "0" (zeros (- n) ++ decimal s))
          with ("0" ++ (zeros (- n) ++ decimal s)).
        rewrite !decimal_value_append, Hv, Hz2. change (decimal_value "0") with 0.
        lia. }
    rewrite length_append, Hz3, Nat2Z.inj_add, Z2Nat.id, Hk by lia.
    pose proof (digits10_pos s).
    unfold numerator, denominator. (f_equal; [f_equal; f_equal; lia|f_equal; lia]). }
  now apply exponential_denoted.
Qed.

End RenderFacts.

(** ** Number::toString and JSON texts *)

Section NumberTextFacts.

Import Num TextSpec.

Local Open Scope string_scope.
Local Open Scope Z_scope.

Lemma closest_In x k cs c : closest x k cs = Some c -> In c cs.
Proof.
  destruct cs as [|c1 [|c2 cs]]; cbn; [discriminate| |].
  - intros [= <-]. now left.
  - intros [= <-].
    destruct (_ <? _); [now left|].
    destruct (_ <? _); [right; now left|].
    destruct (Z.even _); [now left|right; now left].
Qed.

Lemma candidates_sound x n k s n' :
  In (s, n') (candidates x n k) -> round_to_double (s * 10 ^ (n' - k)) = x.
Proof.
  unfold candidates. rewrite filter_In. cbn [fst snd].
  intros [_ H]. now apply Z.eqb_eq.
Qed.

Lemma shortest_sound fuel : forall x n k s n' k',
  shortest x n k fuel = (s, n', k') ->
  (s = x /\ n' = n /\ k' = n) \/ round_to_double (s * 10 ^ (n' - k')) = x.
Proof.
  induction fuel as [|fuel IH]; intros x n k s n' k'; cbn [shortest].
  - intros [= <- <- <-]. now left.
  - destruct (closest x k (candidates x n k)) as [[s0 n0]|] eqn:E.
    + intros [= <- <- <-]. right.
      apply closest_In in E. now apply candidates_sound in E.
    + apply IH.
Qed.

(** The candidates have [k] digits. *)
Lemma candidates_digits x n k s n' :
  0 < x -> 10 ^ (n - 1) <= x < 10 ^ n -> 1 <= k <= n ->
  In (s, n') (candidates x n k) -> digits10 s = k /\ k <= n' /\ 0 < s.
Proof.
  intros Hx [Hlo Hhi] Hk. unfold candidates. rewrite filter_In. intros [Hin _].
  set (p := 10 ^ (n - k)) in *.
  assert (Hp : 0 < p) by (apply Z.pow_pos_nonneg; lia).
  assert (Hk1 : 0 < 10 ^ (k - 1)) by (apply Z.pow_pos_nonneg; lia).
  assert (Hkk : 10 ^ k = 10 * 10 ^ (k - 1)).
  { rewrite <- Z.pow_succ_r by lia. f_equal. lia. }
  assert (Hn1 : 10 ^ (n - 1) = p * 10 ^ (k - 1)).
  { subst p. rewrite <- Z.pow_add_r by lia. f_equal. lia. }
  assert (Hn : 10 ^ n = p * 10 ^ k).
  { subst p. rewrite <- Z.pow_add_r by lia. f_equal. lia. }
  assert (Hq : 10 ^ (k - 1) <= x / p < 10 ^ k).
  { split.
    - apply Z.div_le_lower_bound; lia.
    - apply Z.div_lt_upper_bound; lia. }
  assert (Hdig : forall y, 10 ^ (k - 1) <= y < 10 ^ k -> digits10 y = k /\ 0 < y).
  { intros y Hy. split; [apply digits10_unique; lia|lia]. }
  destruct Hin as [[= <- <-]|[Hup|[]]].
  - destruct (Hdig (x / p) Hq). auto with zarith.
  - destruct (Z.ltb_spec (x / p + 1) (10 ^ k)) as [Hc|Hc]; injection Hup as <- <-.
    + destruct (Hdig (x / p + 1) ltac:(lia)). auto with zarith.
    + destruct (Hdig (10 ^ (k - 1)) ltac:(lia)). auto with zarith.
Qed.

Lemma shortest_digits fuel : forall x n k s n' k',
  0 < x -> 10 ^ (n - 1) <= x < 10 ^ n -> 1 <= k -> k + Z.of_nat fuel <= n + 1 ->
  shortest x n k fuel = (s, n', k') ->
  digits10 s = k' /\ k' <= n' /\ 0 < s.
Proof.
  induction fuel as [|fuel IH]; intros x n k s n' k' Hx Hn Hk Hf; cbn [shortest].
  - intros [= <- <- <-]. split; [now apply digits10_unique|lia].
  - destruct (closest x k (candidates x n k)) as [[s0 n0]|] eqn:E.
    + intros [= <- <- <-]. apply closest_In in E.
      apply (candidates_digits x n k s0 n0 Hx Hn); [lia|exact E].
    + apply IH; try assumption; lia.
Qed.

Lemma toString_exponential s n :
  1 <= n ->
  match decimal s with
  | String d EmptyString => String d "e+" ++ decimal (n - 1)
  | String d rest => String d (String "."%char rest) ++ "e+" ++ decimal (n - 1)
  | EmptyString => EmptyString
  end = exponential s n.
Proof.
  intros Hn. unfold exponential. cbv zeta.
  destruct (Z.ltb_spec (n - 1) 0); [lia|]. rewrite Z.abs_eq by lia.
  destruct (decimal s) as [|d [|c r]]; reflexivity.
Qed.

(** The text of a double with an integer value denotes an integer that
    rounds to it. *)
Lemma toString_denoted z :
  0 <= z -> round_to_double z = z ->
  exists V, denoted (toString z) = (V, 1) /\ round_to_double V = z.
Proof.
  intros Hz Hr. unfold toString.
  destruct (Z.ltb_spec z (2 ^ 53)) as [Hlt|Hge].
  { exists z. rewrite denoted_digits by now apply decimal_digits.
    now rewrite decimal_value_decimal. }
  assert (Hz0 : 0 < z) by (change (2 ^ 53) with 9007199254740992 in Hge; lia).
  pose proof (digits10_bounds z Hz0) as Hb. pose proof (digits10_pos z) as Hn.
  destruct (shortest z (digits10 z) 1 _) as [[s n'] k'] eqn:E.
  assert (Hf : 1 + Z.of_nat (Z.to_nat (Z.min (digits10 z) 17)) <= digits10 z + 1) by lia.
  pose proof (shortest_digits _ _ _ _ _ _ _ Hz0 Hb (Z.le_refl 1) Hf E)
    as (Hk & Hkn & Hs).
  assert (Hv : round_to_double (s * 10 ^ (n' - k')) = z).
  { apply shortest_sound in E. destruct E as [(-> & -> & ->)|E]; [|exact E].
    now rewrite Z.sub_diag, Z.pow_0_r, Z.mul_1_r. }
  exists (s * 10 ^ (n' - k')). split; [|exact Hv].
  pose proof (digits10_pos s) as Hk1. rewrite Hk in Hk1.
  destruct (n' <=? 21).
  - destruct (zeros_facts (n' - k')) as (Hz1 & Hz2 & Hz3).
    assert (Hds : all_digits (decimal s) = true) by (apply decimal_digits; lia).
    rewrite denoted_digits by (rewrite all_digits_append, Hz1, Hds; reflexivity).
    rewrite decimal_value_append, decimal_value_decimal, Hz2, Hz3, Z2Nat.id by lia.
    f_equal. lia.
  - rewrite toString_exponential by lia.
    rewrite exponential_denoted by lia. unfold numerator, denominator. rewrite Hk.
    rewrite Z.max_l, Z.max_r by lia. reflexivity.
Qed.

Lemma fraction_closest_In M E cs c : fraction_closest M E cs = Some c -> In c cs.
Proof.
  destruct cs as [|c1 [|c2 cs]]; cbn [fraction_closest]; [discriminate| |].
  - intros [= <-]. now left.
  - destruct (distance M E c1), (distance M E c2). intros [= <-].
    destruct (_ <? _); [now left|].
    destruct (_ <? _); [right; now left|].
    destruct (Z.even _); [now left|right; now left].
Qed.

Lemma fraction_shortest_sound fuel : forall M E n k s n',
  0 < M -> 0 <= E ->
  fraction_shortest M E n k fuel = (s, n') ->
  0 <= s /\
  (is_nearest M E s n' = true \/ (s = M * 5 ^ E /\ n' = digits10 s - E)).
Proof.
  induction fuel as [|fuel IH]; intros M E n k s n' HM HE; cbn [fraction_shortest].
  - intros [= <- <-]. split; [|now right].
    assert (0 < 5 ^ E) by (apply Z.pow_pos_nonneg; lia). nia.
  - destruct (fraction_closest M E (fraction_candidates M E n k)) as [[s0 n0]|] eqn:C.
    + intros [= <- <-]. apply fraction_closest_In in C.
      unfold fraction_candidates in C. apply filter_In in C. cbn [fst snd] in C.
      destruct C as [Hin Hnear]. split; [|now left].
      set (lo := M * 10 ^ Z.max (k - n) 0 / (2 ^ E * 10 ^ Z.max (n - k) 0)) in *.
      assert (Hlo : 0 <= lo).
      { subst lo. apply Z.div_pos.
        - assert (0 < 10 ^ Z.max (k - n) 0) by (apply Z.pow_pos_nonneg; lia). nia.
        - assert (0 < 10 ^ Z.max (n - k) 0) by (apply Z.pow_pos_nonneg; lia).
          assert (0 < 2 ^ E) by (apply Z.pow_pos_nonneg; lia). nia. }
      destruct Hin as [[= <- _]|[Hup|[]]]; [exact Hlo|].
      destruct (lo + 1 <? 10 ^ k); injection Hup as <- _; [lia|].
      apply Z.pow_nonneg. lia.
    + now apply IH.
Qed.

Lemma fraction_toString_sound M E :
  0 < M -> 1 <= E ->
  exists s n,
    0 <= s /\ fraction_toString M E = render s n /\
    (is_nearest M E s n = true \/ (s = M * 5 ^ E /\ n = digits10 s - E)).
Proof.
  intros HM HE. unfold fraction_toString.
  destruct (fraction_shortest M E (point M E) 1 17) as [s n] eqn:S.
  apply fraction_shortest_sound in S; [|lia|lia].
  exists s, n. tauto.
Qed.

(** The text of a double that is not an integer denotes a fraction that
    rounds to it. *)
Lemma fraction_denoted M E :
  0 < M < 2 ^ 53 -> 1 <= E <= 1074 ->
  nearest_double (fst (denoted (fraction_toString M E)))
    (snd (denoted (fraction_toString M E))) * 2 ^ E
  = M * 2 ^ 1074.
Proof.
  intros HM HE.
  destruct (fraction_toString_sound M E) as (s & n & Hs & -> & Hn); [lia|lia|].
  rewrite render_denoted by exact Hs. cbn [fst snd].
  destruct Hn as [Hn|[-> ->]].
  - now apply Z.eqb_eq in Hn.
  - set (s := M * 5 ^ E). unfold numerator, denominator.
    replace (digits10 s - E - digits10 s) with (- E) by lia.
    replace (digits10 s - (digits10 s - E)) with E by lia.
    rewrite Z.max_r, Z.max_l, Z.pow_0_r, Z.mul_1_r by lia.
    now apply nearest_fraction_exact.
Qed.

(** It never denotes an integer. *)
Lemma fraction_not_integer M E p :
  0 < M -> Z.odd M = true -> 1 <= E -> denoted (fraction_toString M E) <> (p, 1).
Proof.
  intros HM Hodd HE.
  destruct (fraction_toString_sound M E HM HE) as (s & n & Hs & -> & Hn).
  rewrite render_denoted by exact Hs. intros [= Hnum Hden].
  destruct Hn as [Hn|[-> ->]].
  - unfold is_nearest in Hn. rewrite Hnum, Hden in Hn. apply Z.eqb_eq in Hn.
    unfold nearest_double in Hn. cbn [Z.eqb Pos.eqb] in Hn.
    assert (Hp : 0 < 2 ^ 1074) by (apply Z.pow_pos_nonneg; lia).
    assert (HM2 : M = 2 * (round_to_double p * 2 ^ (E - 1))).
    { replace E with (1 + (E - 1)) in Hn at 1 by lia.
      rewrite Z.pow_add_r in Hn by lia. change (2 ^ 1) with 2 in Hn. nia. }
    rewrite HM2, Z.odd_mul in Hodd. discriminate Hodd.
  - unfold denominator in Hden.
    replace (digits10 (M * 5 ^ E) - (digits10 (M * 5 ^ E) - E)) with E in Hden by lia.
    rewrite Z.max_l in Hden by lia.
    assert (10 ^ 1 <= 10 ^ E) by (apply Z.pow_le_mono_r; lia). lia.
Qed.

Lemma append_single a b c :
  a <> "" -> a ++ b = String c "" -> a = String c "" /\ b = "".
Proof.
  destruct a as [|c0 a]; [congruence|]. intros _. cbn. intros [= -> H].
  destruct a; [|discriminate]. cbn in H. now subst.
Qed.

Lemma zeros_empty j : zeros j = "" -> j <= 0.
Proof.
  unfold zeros. destruct (Z.to_nat j) eqn:E; [lia|discriminate].
Qed.

Lemma toString_seven z : 0 <= z -> toString z = "7" -> z = 7.
Proof.
  intros Hz. unfold toString.
  destruct (Z.ltb_spec z (2 ^ 53)) as [Hlt|Hge].
  { intros H. now apply decimal_inj. }
  destruct (shortest z (digits10 z) 1 _) as [[s n'] k'] eqn:E.
  apply shortest_sound in E.
  destruct (n' <=? 21).
  - intros H. apply append_single in H; [|apply decimal_nonempty].
    destruct H as [Hs Hj]. apply zeros_empty in Hj.
    apply (decimal_inj s 7) in Hs. subst s.
    destruct E as [(-> & _ & _)|E]; [change (2 ^ 53) with 9007199254740992 in Hge; lia|].
    exfalso. assert (Hp : 10 ^ (n' - k') = 0 \/ 10 ^ (n' - k') = 1).
    { destruct (Z.eq_dec (n' - k') 0) as [->|]; [now right|left].
      apply Z.pow_neg_r. lia. }
    change (2 ^ 53) with 9007199254740992 in Hge.
    destruct Hp as [Hp|Hp]; rewrite Hp in E; vm_compute in E; lia.
  - destruct (decimal s) as [|d [|d' rest]]; cbn; discriminate.
Qed.

Lemma odd_numerator m : Z.odd (2 * Z.of_N m + 1) = true.
Proof. now rewrite Z.add_comm, Z.odd_add_mul_2. Qed.

Lemma stringify_seven c :
  Json.stringify c = "7" -> c = Json.Num (Json.Finite 7).
Proof.
  destruct c as [|[|]|n|s|items|members]; try (cbn; discriminate).
  destruct n as [z|negative m e| | |[|]]; try (cbn; discriminate);
    cbn [Json.stringify Json.number_text].
  - destruct (Z.ltb_spec z 0) as [Hneg|Hpos]; [discriminate|].
    intros H. apply toString_seven in H; [now subst|assumption].
  - cbv zeta. destruct negative; [discriminate|]. intros H. exfalso.
    apply (fraction_not_integer (2 * Z.of_N m + 1) (Z.of_N e + 1) 7);
      [lia|apply odd_numerator|lia|now rewrite H].
Qed.

End NumberTextFacts.

(** ** Staged and controller values *)

Section TagStateClaims.

Import Tag.

Local Abbreviation num z := (Json.Num (Json.Finite z)).

(** A read never touches the local value while a write is staged. *)
Lemma staged_value_kept now v st :
  stage_write (tag st) = true ->
  get_value (fst (set_controller_value now v st)) = get_value st /\
  get_write_ready (fst (set_controller_value now v st)) = true.
Proof.
  intros Hs. unfold set_controller_value.
  destruct (negb (String.eqb _ _)).
  - destruct (controllerValue (tag st)); cbn; rewrite Hs; cbn; auto.
  - destruct (0 <? keepAlive st); [|auto].
    destruct (_ <=? _); cbn; [rewrite Hs; cbn|]; auto.
Qed.

(** C2.  While a write is staged, [set controller_value] leaves the local
    value alone; after [set value(10)] a read of 7 leaves the local value at
    10 and makes the controller value 7, and [unstageWriteRequest] then
    clears the flag and brings the local value to 7. *)
Theorem stage_isolation (st : State) (now : Z) :
  (forall v, stage_write (tag st) = true ->
             get_value (fst (set_controller_value now v st)) = get_value st) /\
  let st1 := set_value (num 10) st in
  let st2 := fst (set_controller_value now (num 7) st1) in
  let st3 := unstageWriteRequest st2 in
  get_value st1 = num 10 /\ get_write_ready st1 = true /\
  get_value st2 = num 10 /\ get_controller_value st2 = num 7 /\
  get_write_ready st2 = true /\
  get_write_ready st3 = false /\ get_value st3 = num 7 /\
  get_controller_value st3 = num 7.
Proof.
  split.
  { intros v Hs. now apply staged_value_kept. }
  intros st1 st2 st3.
  assert (H1 : stage_write (tag st1) = true) by reflexivity.
  assert (Hv1 : get_value st1 = num 10) by reflexivity.
  destruct (staged_value_kept now (num 7) st1 H1) as [Hv2 Hw2].
  fold st2 in Hv2, Hw2.
  assert (Hc2 : get_controller_value st2 = num 7).
  { subst st2. unfold set_controller_value.
    destruct (String.eqb_spec (Json.stringify (num 7))
                (Json.stringify (controllerValue (tag st1)))) as [He|Hne]; cbn [negb].
    - symmetry in He. apply stringify_seven in He.
      destruct (0 <? keepAlive st1); [|exact He].
      destruct (_ <=? _); [reflexivity|exact He].
    - destruct (controllerValue (tag st1)); reflexivity. }
  repeat split; try assumption; try congruence.
Qed.

(** C3, as amended.  From a tag with no controller value and no staged
    write, reads of 5, 5 and 6 emit [Initialized], nothing, and [Changed]
    with previous value 5, provided keep-alive cannot fire at the second
    read: it is off ([keepAlive] 0, the default), or less than [keepAlive]
    seconds have passed since the first read.  After each emitting read the
    local value is the value read. *)
Theorem change_detection (st : State) (t1 t2 t3 : Z) :
  controllerValue (tag st) = Json.Null ->
  stage_write (tag st) = false ->
  keepAlive st <= 0 \/ t2 - t1 < keepAlive st * 1000 ->
  let r1 := set_controller_value t1 (num 5) st in
  let r2 := set_controller_value t2 (num 5) (fst r1) in
  let r3 := set_controller_value t3 (num 6) (fst r2) in
  snd r1 = [Initialized] /\ get_value (fst r1) = num 5 /\
  snd r2 = [] /\ fst r2 = fst r1 /\
  snd r3 = [Changed (num 5)] /\ get_value (fst r3) = num 6.
Proof.
  intros Hc Hs Hk r1 r2 r3.
  set (st1 := with_timestamp t1
                (set_tag (with_value (num 5)) (set_tag (with_controllerValue (num 5)) st))).
  assert (Hr1 : r1 = (st1, [Initialized])).
  { subst r1 st1. unfold set_controller_value. rewrite Hc.
    cbn [set_tag with_controllerValue tag stage_write]. rewrite Hs. reflexivity. }
  assert (Hr2 : r2 = (st1, [])).
  { subst r2. rewrite Hr1. cbn [fst]. unfold set_controller_value.
    change (controllerValue (tag st1)) with (num 5).
    rewrite String.eqb_refl. cbn [negb].
    change (keepAlive st1) with (keepAlive st).
    change (timestamp st1) with t1.
    destruct (Z.ltb_spec 0 (keepAlive st)); [|reflexivity].
    destruct (Z.leb_spec (keepAlive st * 1000) (t2 - t1)); [lia|reflexivity]. }
  assert (Hr3 : r3 = (with_timestamp t3
                        (set_tag (with_value (num 6))
                           (set_tag (with_controllerValue (num 6)) st1)),
                      [Changed (num 5)])).
  { subst r3. rewrite Hr2. cbn [fst]. unfold set_controller_value.
    change (controllerValue (tag st1)) with (num 5).
    cbn [set_tag with_controllerValue tag stage_write].
    change (stage_write (tag st1)) with (stage_write (tag st)). rewrite Hs.
    reflexivity. }
  rewrite Hr1, Hr2, Hr3. cbn [fst snd]. repeat split; reflexivity.
Qed.

(** C9.  With [keepAlive] 1, reading the value the tag already holds less
    than a second after the last update emits nothing and leaves the state
    as it is; from one second on it emits [KeepAlive] and sets the timestamp
    to the time of the read.  [KeepAlive] is emitted only when [keepAlive]
    is positive and at least [keepAlive] seconds have passed. *)
Theorem keep_alive (st : State) (now : Z) :
  (keepAlive st = 1 -> now - timestamp st < 1000 ->
   set_controller_value now (controllerValue (tag st)) st = (st, [])) /\
  (keepAlive st = 1 -> 1000 <= now - timestamp st ->
   snd (set_controller_value now (controllerValue (tag st)) st) = [KeepAlive] /\
   timestamp (fst (set_controller_value now (controllerValue (tag st)) st)) = now /\
   get_controller_value (fst (set_controller_value now (controllerValue (tag st)) st))
   = controllerValue (tag st)) /\
  (forall v, In KeepAlive (snd (set_controller_value now v st)) ->
             0 < keepAlive st /\ keepAlive st * 1000 <= now - timestamp st).
Proof.
  split; [|split].
  - intros Hk Ht. unfold set_controller_value.
    rewrite String.eqb_refl, Hk. cbn [negb Z.ltb Z.compare].
    destruct (Z.leb_spec (1 * 1000) (now - timestamp st)); [lia|reflexivity].
  - intros Hk Ht. unfold set_controller_value.
    rewrite String.eqb_refl, Hk. cbn [negb Z.ltb Z.compare].
    destruct (Z.leb_spec (1 * 1000) (now - timestamp st)); [|lia].
    cbn [snd fst]. split; [reflexivity|]. split; [reflexivity|].
    destruct (negb _); reflexivity.
  - intros v. unfold set_controller_value.
    destruct (negb (String.eqb _ _)).
    + destruct (controllerValue (tag st)); cbn; intros [H|[]]; discriminate.
    + destruct (Z.ltb_spec 0 (keepAlive st)); [|intros []].
      destruct (Z.leb_spec (keepAlive st * 1000) (now - timestamp st)); [|intros []].
      intros _. split; assumption.
Qed.

(** C10.  [set name] with a valid name replaces the stored name and nothing
    else: path, bit index, program, instance id and every other field keep
    the values the constructor gave them. *)
Theorem set_name_frame (st : State) (n : string) :
  isValidTagname n = true ->
  exists st',
    set_name n st = Ok st' /\
    name (tag st') = n /\
    get_path st' = get_path st /\
    get_bitIndex st' = get_bitIndex st /\
    program (tag st') = program (tag st) /\
    get_instance_id st' = get_instance_id st /\
    type (tag st') = type (tag st) /\
    get_value st' = get_value st /\
    get_controller_value st' = get_controller_value st /\
    get_write_ready st' = get_write_ready st /\
    controller (tag st') = controller (tag st) /\
    read_size st' = read_size st /\ error st' = error st /\
    timestamp st' = timestamp st /\ keepAlive st' = keepAlive st.
Proof.
  intros Hv. unfold set_name. rewrite Hv. cbn [negb].
  eexists. split; [reflexivity|]. repeat split.
Qed.

End TagStateClaims.

(** ** Splitting an address *)

Section SplitFacts.

Import Regex TextSpec.

Lemma split_nonempty sep s : split sep s <> [].
Proof.
  destruct s as [|c s]; cbn; [discriminate|].
  destruct (sep c); [discriminate|].
  destruct (split sep s); discriminate.
Qed.

Lemma split_app sep pre c rest :
  sep c = true ->
  split sep (pre ++ String c rest) = split sep pre ++ split sep rest.
Proof.
  intros Hc. induction pre as [|a pre IH]; cbn.
  - now rewrite Hc.
  - rewrite IH. destruct (sep a); [reflexivity|].
    pose proof (split_nonempty sep pre) as Hne.
    destruct (split sep pre); [contradiction|reflexivity].
Qed.

(** A string either has no separator, and is its own only piece, or it ends
    with a separator followed by its last piece. *)
Lemma split_last sep s :
  (sep_free sep s = true /\ split sep s = [s]) \/
  (exists pre c piece,
      s = (pre ++ String c piece)%string /\ sep c = true /\
      sep_free sep piece = true /\ split sep s = split sep pre ++ [piece]).
Proof.
  induction s as [|a s IH].
  - left. split; reflexivity.
  - destruct IH as [[Hf Hs]|(pre & c & piece & -> & Hc & Hf & Hs)].
    + destruct (sep a) eqn:Ha.
      * right. exists EmptyString, a, s. cbn. rewrite Ha, Hs. auto.
      * left. unfold sep_free in *. cbn. rewrite Ha, Hf, Hs. auto.
    + right. exists (String a pre), c, piece. repeat split; try assumption.
      change (String a pre ++ String c piece)%string
        with (String a (pre ++ String c piece)%string).
      cbn [split]. rewrite Hs.
      destruct (sep a); [reflexivity|].
      pose proof (split_nonempty sep pre) as Hne.
      destruct (split sep pre); [contradiction|reflexivity].
Qed.

Lemma split_sep_free sep s : sep_free sep s = true -> split sep s = [s].
Proof.
  unfold sep_free. induction s as [|a s IH]; cbn; [reflexivity|].
  rewrite andb_true_iff, negb_true_iff. intros [-> Hs]. now rewrite IH.
Qed.

Lemma digit_not_member_separator c :
  Num.is_digit c = true -> Tag.member_separator c = false.
Proof.
  intros Hd. unfold Tag.member_separator.
  repeat match goal with
         | |- context [Ascii.eqb c ?x] =>
             destruct (Ascii.eqb_spec c x); [subst c; discriminate Hd|]
         end.
  reflexivity.
Qed.

Lemma all_digits_sep_free s :
  Num.all_digits s = true -> sep_free Tag.member_separator s = true.
Proof.
  unfold Num.all_digits, sep_free. rewrite !forallb_forall.
  intros H c Hc. now rewrite digit_not_member_separator by auto.
Qed.

Lemma is_integer_spec s :
  Num.is_integer s = true -> s <> EmptyString /\ Num.all_digits s = true.
Proof.
  unfold Num.is_integer. rewrite andb_true_iff, negb_true_iff.
  intros [Hn Hd]. split; [|exact Hd].
  intros ->. discriminate.
Qed.

(** A numeric last member of the address is also the last path segment. *)
Lemma isBitIndex_last env tagname :
  Tag.isBitIndex tagname = true ->
  exists token,
    last (Tag.memArr_of tagname) = Some token /\
    Num.is_integer token = true /\
    last (Tag.pathArr_of tagname) = Some token /\
    Tag.last_is_integer (Tag.pathArr_of tagname) = true /\
    forall datatype,
      Tag.isBitString env tagname datatype
      = match datatype with
        | Tag.TypeCode code => code =? Tag.BIT_STRING env
        | _ => false
        end.
Proof.
  unfold Tag.isBitIndex, Tag.memArr_of. rewrite andb_true_iff, Z.ltb_lt.
  intros [Hlen Hint].
  destruct (split_last (Ascii.eqb ".") tagname)
    as [[_ Hs]|(pre & c & token & -> & Hc & Hf & Hs)].
  - rewrite Hs in Hlen. cbn in Hlen. lia.
  - apply Ascii.eqb_eq in Hc. subst c.
    unfold Tag.last_is_integer in Hint. rewrite Hs, last_snoc in Hint.
    exists token. rewrite Hs, last_snoc.
    destruct (is_integer_spec token Hint) as [Hne Hd].
    assert (Hp : Tag.pathArr_of (pre ++ String "." token)
                 = Tag.pathArr_of pre ++ [token]).
    { unfold Tag.pathArr_of. rewrite split_app by reflexivity.
      rewrite (split_sep_free _ token) by now apply all_digits_sep_free.
      rewrite List.filter_app. f_equal. cbn.
      destruct token; [contradiction|reflexivity]. }
    assert (Hl : Tag.last_is_integer (Tag.pathArr_of (pre ++ String "." token)) = true).
    { unfold Tag.last_is_integer. now rewrite Hp, last_snoc. }
    repeat split; try assumption.
    + now rewrite Hp, last_snoc.
    + intros [|code|nm]; cbn [Tag.isBitString]; try reflexivity.
      rewrite Hl. apply andb_true_r.
Qed.

End SplitFacts.

(** ** Integer-valued doubles *)

Section DoubleFacts.

Import Num.

Lemma round_small z : z < 2 ^ 53 -> round_to_double z = z.
Proof.
  intros Hz. unfold round_to_double.
  destruct (Z.ltb_spec z (2 ^ 53)); [reflexivity|lia].
Qed.

(** A double above 2^53 is a 53-bit mantissa times a power of two, and
    rounding leaves it as it is. *)
Lemma round_exact m e :
  1 <= e -> 2 ^ 52 <= m < 2 ^ 53 -> round_to_double (m * 2 ^ e) = m * 2 ^ e.
Proof.
  intros He Hm.
  assert (Hp : 0 < 2 ^ e) by (apply Z.pow_pos_nonneg; lia).
  assert (H2 : 2 <= 2 ^ e) by (change 2 with (2 ^ 1) at 1; apply Z.pow_le_mono_r; lia).
  assert (Hlog : Z.log2 (m * 2 ^ e) = 52 + e).
  { apply Z.log2_unique; [lia|].
    rewrite Z.pow_succ_r, Z.pow_add_r by lia.
    change (2 ^ 53) with (2 * 2 ^ 52) in Hm. nia. }
  unfold round_to_double.
  destruct (Z.ltb_spec (m * 2 ^ e) (2 ^ 53)) as [Hlt|_]; [nia|].
  rewrite Hlog. replace (52 + e - 52) with e by lia.
  rewrite Z.div_mul, Z.mod_mul by lia.
  assert (0 < 2 ^ (e - 1)) by (apply Z.pow_pos_nonneg; lia).
  destruct (Z.ltb_spec 0 (2 ^ (e - 1))); [reflexivity|lia].
Qed.

Lemma round_shape z :
  2 ^ 53 <= z ->
  exists m e, 1 <= e /\ 2 ^ 52 <= m < 2 ^ 53 /\ round_to_double z = m * 2 ^ e.
Proof.
  intros Hz. unfold round_to_double.
  destruct (Z.ltb_spec z (2 ^ 53)) as [Hlt|_]; [lia|].
  assert (Hz0 : 0 < z) by (change (2 ^ 53) with 9007199254740992 in Hz; lia).
  destruct (Z.log2_spec z Hz0) as [Hl1 Hl2].
  assert (Hlog : 53 <= Z.log2 z) by (apply Z.log2_le_pow2; lia).
  set (e := Z.log2 z - 52) in *.
  assert (He : 1 <= e) by (subst e; lia).
  assert (Hp : 0 < 2 ^ e) by (apply Z.pow_pos_nonneg; lia).
  assert (Hq : 2 ^ 52 <= z / 2 ^ e < 2 ^ 53).
  { replace (Z.log2 z) with (52 + e) in Hl1 by (subst e; lia).
    replace (Z.succ (Z.log2 z)) with (53 + e) in Hl2 by (subst e; lia).
    rewrite Z.pow_add_r in Hl1, Hl2 by lia.
    split.
    - apply Z.div_le_lower_bound; lia.
    - apply Z.div_lt_upper_bound; lia. }
  set (q := z / 2 ^ e) in *.
  assert (Hcases : forall q', q' = q \/ q' = q + 1 ->
            exists m e', 1 <= e' /\ 2 ^ 52 <= m < 2 ^ 53 /\ q' * 2 ^ e = m * 2 ^ e').
  { intros q' [->| ->].
    - exists q, e. auto.
    - destruct (Z.eq_dec (q + 1) (2 ^ 53)) as [Heq|Hne].
      + exists (2 ^ 52), (e + 1). split; [lia|]. split; [lia|].
        rewrite Heq, Z.pow_add_r by lia. change (2 ^ 53) with (2 ^ 52 * 2 ^ 1). ring.
      + exists (q + 1), e. split; [lia|]. split; [lia|reflexivity]. }
  apply Hcases.
  destruct (_ <? _); [now left|].
  destruct (_ <? _); [now right|].
  destruct (Z.even q); [now left|now right].
Qed.

(** Clearing the five low bits of a double gives a double: the subtraction
    of [parseInt(x) - bitIndex] is exact. *)
Lemma round_clear_low z :
  0 <= z ->
  let x := round_to_double z in
  round_to_double (x - x mod 32) = x - x mod 32.
Proof.
  intros Hz x. subst x.
  assert (Hm32 : forall y, 0 <= y mod 32 < 32) by (intros; apply Z.mod_pos_bound; lia).
  destruct (Z.lt_ge_cases z (2 ^ 53)) as [Hlt|Hge].
  { rewrite (round_small z Hlt). apply round_small. specialize (Hm32 z). lia. }
  destruct (round_shape z Hge) as (m & e & He & Hm & ->).
  destruct (Z.lt_ge_cases e 5) as [He5|He5].
  - assert (Hd : exists m', 2 ^ 52 <= m' < 2 ^ 53 /\
                            m * 2 ^ e - (m * 2 ^ e) mod 32 = m' * 2 ^ e).
    { change (2 ^ 52) with 4503599627370496 in *.
      change (2 ^ 53) with 9007199254740992 in *.
      assert (Hcase : e = 1 \/ e = 2 \/ e = 3 \/ e = 4) by lia.
      destruct Hcase as [->|[->|[->| ->]]].
      - exists (m - m mod 16). change (2 ^ 1) with 2.
        split; Z.div_mod_to_equations; lia.
      - exists (m - m mod 8). change (2 ^ 2) with 4.
        split; Z.div_mod_to_equations; lia.
      - exists (m - m mod 4). change (2 ^ 3) with 8.
        split; Z.div_mod_to_equations; lia.
      - exists (m - m mod 2). change (2 ^ 4) with 16.
        split; Z.div_mod_to_equations; lia. }
    destruct Hd as (m' & Hm' & ->). now apply round_exact.
  - assert (H0 : (m * 2 ^ e) mod 32 = 0).
    { replace e with (5 + (e - 5)) by lia. rewrite Z.pow_add_r by lia.
      change (2 ^ 5) with 32.
      replace (m * (32 * 2 ^ (e - 5))) with (m * 2 ^ (e - 5) * 32) by ring.
      apply Z.mod_mul. lia. }
    rewrite H0, Z.sub_0_r. now apply round_exact.
Qed.

Lemma digit_value_range c : is_digit c = true -> 0 <= digit_value c <= 9.
Proof.
  unfold is_digit, digit_value. rewrite andb_true_iff, !N.leb_le. lia.
Qed.

Lemma decimal_value_nonneg s : all_digits s = true -> 0 <= decimal_value s.
Proof.
  unfold all_digits, decimal_value.
  enough (H : forall l acc, 0 <= acc -> forallb is_digit l = true ->
              0 <= fold_left (fun a c => 10 * a + digit_value c) l acc)
    by (apply H; lia).
  induction l as [|c l IH]; intros acc Hacc; cbn [fold_left forallb]; [lia|].
  rewrite andb_true_iff. intros [Hc Hl]. apply IH; [|exact Hl].
  pose proof (digit_value_range c Hc). lia.
Qed.

End DoubleFacts.

(** ** The constructor *)

Section ConstructorFacts.

Import Tag TagSpec.

Variable env : Env.

Local Open Scope string_scope.
Local Open Scope Z_scope.

Lemma parse_address_bitIndex_range tagname datatype pathArr b :
  parse_address env tagname datatype = Ok (pathArr, Some b) -> 0 <= b <= 31.
Proof.
  unfold parse_address.
  destruct (isBitString env tagname datatype && isBitIndex tagname); [discriminate|].
  destruct (isBitString env tagname datatype).
  - intros [= _ <-].
    pose proof (Z.mod_pos_bound (Num.parseInt (default "" (last (pathArr_of tagname)))) 32).
    lia.
  - destruct (isBitIndex tagname); [|discriminate].
    destruct (Z.ltb_spec (Num.parseInt (default "" (last (pathArr_of tagname)))) 0);
      [discriminate|].
    destruct (Z.ltb_spec 31 (Num.parseInt (default "" (last (pathArr_of tagname)))));
      [discriminate|].
    cbn [orb]. intros [= _ <-]. lia.
Qed.

Lemma writeInt8_bitIndex (bitIndex : option Z) :
  (forall b, bitIndex = Some b -> 0 <= b <= 31) ->
  exists buf, Buf.writeInt 1 (default 32 bitIndex) (Some 0) (Buf.alloc 1) = Ok buf.
Proof.
  intros Hb.
  assert (Hr : 0 <= default 32 bitIndex <= 32).
  { destruct bitIndex as [b|]; cbn; [specialize (Hb b eq_refl)|]; lia. }
  unfold Buf.writeInt, Buf.check_range.
  change (Buf.imin 1) with (-128). change (Buf.imax 1) with 127.
  replace ((-128 <=? default 32 bitIndex) && (default 32 bitIndex <=? 127)) with true
    by (symmetry; apply andb_true_iff; split; apply Z.leb_le; lia).
  cbn [mbind result_bind]. eexists. reflexivity.
Qed.

(** What a successful construction computed. *)
Lemma new_inv now tagname program datatype keepAlive st :
  new env now tagname program datatype keepAlive = Ok st ->
  exists pathArr,
    isValidTagname tagname = true /\ acceptable env datatype /\ 0 <= keepAlive /\
    parse_address env tagname datatype = Ok (pathArr, get_bitIndex st) /\
    get_path st = path_of env program pathArr /\
    name (tag st) = tagname /\ Tag.program (tag st) = program /\
    type (tag st) = datatype /\ Tag.keepAlive st = keepAlive /\
    get_value st = Json.Null /\ get_controller_value st = Json.Null /\
    get_write_ready st = false /\ timestamp st = now.
Proof.
  unfold new.
  destruct (isValidTagname tagname); [|discriminate]. cbn [negb].
  destruct (match datatype with TypeCode code => negb (isValidTypeCode env code) | _ => false end)
    eqn:Hd; [discriminate|].
  destruct (Z.ltb_spec keepAlive 0); [discriminate|].
  destruct (parse_address env tagname datatype) as [[pathArr bitIndex]|e]; [|discriminate].
  cbn [mbind result_bind].
  destruct (Buf.writeInt 1 (default 32 bitIndex) (Some 0) (Buf.alloc 1)); [|discriminate].
  cbn [mbind result_bind mret result_ret]. intros [= <-].
  exists pathArr. repeat split; try reflexivity; try lia.
  destruct datatype; cbn in *; try exact I. now apply negb_false_iff.
Qed.

(** Construction succeeds once the checks pass and the address parses. *)
Lemma new_ok now tagname program datatype keepAlive pathArr bitIndex :
  isValidTagname tagname = true -> acceptable env datatype -> 0 <= keepAlive ->
  parse_address env tagname datatype = Ok (pathArr, bitIndex) ->
  exists st,
    new env now tagname program datatype keepAlive = Ok st /\
    get_bitIndex st = bitIndex /\ get_path st = path_of env program pathArr.
Proof.
  intros Hv Hd Hk Hp. unfold new. rewrite Hv. cbn [negb].
  replace (match datatype with TypeCode code => negb (isValidTypeCode env code) | _ => false end)
    with false by (destruct datatype; cbn in *; try reflexivity; now rewrite Hd).
  destruct (Z.ltb_spec keepAlive 0); [lia|].
  rewrite Hp. cbn [mbind result_bind].
  destruct (writeInt8_bitIndex bitIndex) as [buf ->].
  { intros b ->. exact (parse_address_bitIndex_range _ _ _ _ Hp). }
  cbn [mbind result_bind mret result_ret]. eexists. repeat split.
Qed.

Lemma new_throws now tagname program datatype keepAlive e :
  parse_address env tagname datatype = Throw e ->
  exists e', new env now tagname program datatype keepAlive = Throw e'.
Proof.
  intros Hp. unfold new.
  destruct (negb (isValidTagname tagname)); [eauto|].
  destruct (match datatype with TypeCode code => negb (isValidTypeCode env code) | _ => false end);
    [eauto|].
  destruct (keepAlive <? 0); [eauto|].
  rewrite Hp. cbn. eauto.
Qed.

Lemma isBitString_other tagname datatype :
  datatype <> TypeCode (BIT_STRING env) -> isBitString env tagname datatype = false.
Proof.
  intros Hd. destruct datatype as [|code|nm]; cbn; try reflexivity.
  destruct (Z.eqb_spec code (BIT_STRING env)); [subst; contradiction|reflexivity].
Qed.

(** The addresses of the examples. *)
Lemma parse_tag_44 :
  parse_address env "tag[44]" (TypeCode (BIT_STRING env)) = Ok (["tag"; "1"], Some 12).
Proof.
  unfold parse_address, isBitString. rewrite Z.eqb_refl. reflexivity.
Qed.

Lemma parse_bit_index tagname datatype token :
  datatype <> TypeCode (BIT_STRING env) ->
  isBitIndex tagname = true ->
  last (pathArr_of tagname) = Some token ->
  parse_address env tagname datatype
  = if (Num.parseInt token <? 0) || (31 <? Num.parseInt token)
    then Throw (Error "Tag bit index must be between 0 and 31")
    else Ok (removelast (pathArr_of tagname), Some (Num.parseInt token)).
Proof.
  intros Hd Hb Hl. unfold parse_address.
  rewrite (isBitString_other tagname datatype Hd), Hb, Hl. reflexivity.
Qed.

End ConstructorFacts.

Section ConstructorClaims.

Import Tag TagSpec.

Variable env : Env.

Local Open Scope string_scope.
Local Open Scope Z_scope.

(** C5.  A tag built with datatype BIT_STRING on an address whose last path
    segment is the number [N] has bit index [N mod 32], and that segment
    becomes the text of [(N - N mod 32) / 32].  [N] is the Number that
    [parseInt] gives for the segment: its decimal value when that is below
    2^53.  For [tag[44]] the bit index is 12 and the segment is [1]. *)
Theorem bit_string_remap (now : Z) (program : option string) (keepAlive : Z) :
  (forall tagname st segment,
      new env now tagname program (TypeCode (BIT_STRING env)) keepAlive = Ok st ->
      last (pathArr_of tagname) = Some segment ->
      Num.is_integer segment = true ->
      let N := Num.parseInt segment in
      get_bitIndex st = Some (N mod 32) /\
      get_path st = path_of env program
                      (removelast (pathArr_of tagname)
                         ++ [Num.toString ((N - N mod 32) / 32)])%list /\
      (Num.decimal_value segment < 2 ^ 53 -> N = Num.decimal_value segment)) /\
  (isValidTypeCode env (BIT_STRING env) = true -> 0 <= keepAlive ->
   exists st,
     new env now "tag[44]" program (TypeCode (BIT_STRING env)) keepAlive = Ok st /\
     get_bitIndex st = Some 12 /\
     get_path st = path_of env program ["tag"; "1"]).
Proof.
  split.
  - intros tagname st segment Hnew Hlast Hint N.
    destruct (new_inv env _ _ _ _ _ _ Hnew) as (pathArr & _ & _ & _ & Hp & Hpath & _).
    unfold parse_address in Hp.
    assert (Hbs : isBitString env tagname (TypeCode (BIT_STRING env)) = true).
    { unfold isBitString, last_is_integer. now rewrite Z.eqb_refl, Hlast, Hint. }
    rewrite Hbs in Hp. cbn [andb] in Hp.
    destruct (isBitIndex tagname); [discriminate|].
    rewrite Hlast in Hp. cbn [default from_option id] in Hp. fold N in Hp.
    destruct (is_integer_spec segment Hint) as [_ Hd].
    assert (Hexact : Num.round_to_double (N - N mod 32) = N - N mod 32)
      by (apply (round_clear_low (Num.decimal_value segment)), decimal_value_nonneg, Hd).
    rewrite Hexact in Hp. injection Hp as Hp1 Hp2.
    split; [now rewrite <- Hp2|]. split; [now rewrite Hpath, <- Hp1|].
    intros Hsmall. subst N. unfold Num.parseInt. now apply round_small.
  - intros Hcode Hk.
    destruct (new_ok env now "tag[44]" program (TypeCode (BIT_STRING env)) keepAlive
                ["tag"; "1"] (Some 12)) as (st & Hst & Hb & Hp);
      [reflexivity | exact Hcode | exact Hk | apply parse_tag_44 | eauto].
Qed.

(** C6.  With datatype BIT_STRING, an address whose last member is numeric
    under the bit-index rule is refused, [tag.5] for one; no tag is built for
    which both rules apply. *)
Theorem bit_string_excludes_bit_index (now : Z) (program : option string) (keepAlive : Z) :
  (forall tagname,
      isBitIndex tagname = true ->
      exists e, new env now tagname program (TypeCode (BIT_STRING env)) keepAlive = Throw e) /\
  (exists e, new env now "tag.5" program (TypeCode (BIT_STRING env)) keepAlive = Throw e) /\
  (forall tagname datatype st,
      new env now tagname program datatype keepAlive = Ok st ->
      isBitString env tagname datatype && isBitIndex tagname = false).
Proof.
  assert (H1 : forall tagname,
             isBitIndex tagname = true ->
             exists e, new env now tagname program (TypeCode (BIT_STRING env)) keepAlive
                       = Throw e).
  { intros tagname Hb.
    destruct (isBitIndex_last env tagname Hb) as (token & _ & _ & _ & _ & Hs).
    apply (new_throws env now tagname program _ keepAlive
             (Error "Tag cannot be defined as a BIT_STRING and have a bit index")).
    unfold parse_address. rewrite (Hs (TypeCode (BIT_STRING env))), Z.eqb_refl, Hb.
    reflexivity. }
  split; [exact H1|]. split; [apply H1; reflexivity|].
  intros tagname datatype st Hnew.
  destruct (new_inv env _ _ _ _ _ _ Hnew) as (pathArr & _ & _ & _ & Hp & _).
  unfold parse_address in Hp.
  destruct (isBitString env tagname datatype && isBitIndex tagname);
    [discriminate|reflexivity].
Qed.

(** C7.  When the last member of the address is numeric, a tag that is built
    has that number as its bit index, between 0 and 31, and its path leaves
    the member out.  [tag.0] and [tag.31] are accepted, with bit index 0 and
    31, for any datatype the constructor accepts other than BIT_STRING and
    any keep-alive that is not negative; [tag.32] is refused. *)
Theorem bit_index_bounds (now : Z) (program : option string) (datatype : Datatype)
    (keepAlive : Z) :
  (forall tagname st,
      new env now tagname program datatype keepAlive = Ok st ->
      isBitIndex tagname = true ->
      exists token,
        last (memArr_of tagname) = Some token /\
        get_bitIndex st = Some (Num.parseInt token) /\
        0 <= Num.parseInt token <= 31 /\
        get_path st = path_of env program (removelast (pathArr_of tagname))) /\
  (acceptable env datatype -> datatype <> TypeCode (BIT_STRING env) -> 0 <= keepAlive ->
   (exists st, new env now "tag.0" program datatype keepAlive = Ok st /\
               get_bitIndex st = Some 0 /\ get_path st = path_of env program ["tag"]) /\
   (exists st, new env now "tag.31" program datatype keepAlive = Ok st /\
               get_bitIndex st = Some 31 /\ get_path st = path_of env program ["tag"])) /\
  (exists e, new env now "tag.32" program datatype keepAlive = Throw e).
Proof.
  split; [|split].
  - intros tagname st Hnew Hb.
    destruct (new_inv env _ _ _ _ _ _ Hnew) as (pathArr & _ & _ & _ & Hp & Hpath & _).
    destruct (isBitIndex_last env tagname Hb) as (token & Hm & _ & Hl & _ & Hs).
    exists token. split; [exact Hm|].
    unfold parse_address in Hp. rewrite Hb, andb_true_r in Hp.
    destruct (isBitString env tagname datatype); [discriminate|].
    rewrite Hl in Hp. cbn [default from_option id] in Hp.
    destruct (Z.ltb_spec (Num.parseInt token) 0); [discriminate|].
    destruct (Z.ltb_spec 31 (Num.parseInt token)); [discriminate|].
    cbn [orb] in Hp. injection Hp as Hp1 Hp2.
    split; [now rewrite <- Hp2|]. split; [lia|]. now rewrite Hpath, <- Hp1.
  - intros Hd Hbs Hk. split.
    + destruct (new_ok env now "tag.0" program datatype keepAlive ["tag"] (Some 0))
        as (st & Hst & Hb & Hp); try assumption; [reflexivity| |eauto].
      now rewrite (parse_bit_index env "tag.0" datatype "0").
    + destruct (new_ok env now "tag.31" program datatype keepAlive ["tag"] (Some 31))
        as (st & Hst & Hb & Hp); try assumption; [reflexivity| |eauto].
      now rewrite (parse_bit_index env "tag.31" datatype "31").
  - destruct (isBitString env "tag.32" datatype) eqn:Hbs.
    + apply (new_throws env now "tag.32" program datatype keepAlive
               (Error "Tag cannot be defined as a BIT_STRING and have a bit index")).
      unfold parse_address. now rewrite Hbs.
    + apply (new_throws env now "tag.32" program datatype keepAlive
               (Error "Tag bit index must be between 0 and 31")).
      unfold parse_address. now rewrite Hbs.
Qed.

(** C8.  A bit write on a 16-bit integer (INT) tag with bit index 3 sends
    the mask length 2 in little-endian order, then the OR mask 0x0008 and
    the AND mask 0xFFFF when the value to write is truthy, the OR mask
    0x0000 and the AND mask 0xFFF7 when it is falsy.  The value to write is
    the argument, or the tag's value when the argument is null. *)
Theorem bit_write_masks (newValue : Json.Value) (size : Z) (st : State) :
  type (tag st) = TypeCode (INT env) ->
  INT env <> SINT env ->
  bitIndex (tag st) = Some 3 ->
  let written := match newValue with Json.Null => get_value st | _ => newValue end in
  exists st',
    generateWriteMessageRequest env newValue size st
    = Ok (MessageRouter_build env READ_MODIFY_WRITE_TAG (get_path st)
            (if Json.truthy written
             then [x02; x00; x08; x00; xff; xff]
             else [x02; x00; x00; x00; xf7; xff]),
          st') /\
    get_value st' = written.
Proof.
  intros Hty Hne Hbit written.
  assert (Hgen : forall st0,
             type (tag st0) = TypeCode (INT env) -> bitIndex (tag st0) = Some 3 ->
             generateWriteMessageRequest env Json.Null size st0
             = Ok (MessageRouter_build env READ_MODIFY_WRITE_TAG (get_path st0)
                     (if Json.truthy (get_value st0)
                      then [x02; x00; x08; x00; xff; xff]
                      else [x02; x00; x00; x00; xf7; xff]),
                   st0)).
  { intros st0 H1 H2. unfold generateWriteMessageRequest. rewrite H1, H2.
    rewrite bool_decide_eq_false_2 by (intros [= H]; contradiction).
    rewrite bool_decide_eq_true_2 by reflexivity.
    unfold get_value, get_path. destruct (Json.truthy (value (tag st0))); reflexivity. }
  destruct newValue as [|b|n|s|items|members]; subst written.
  - eexists. split; [apply Hgen; assumption|reflexivity].
  - exists (set_tag (with_value (Json.Bool b)) st).
    split; [exact (Hgen (set_tag (with_value (Json.Bool b)) st) Hty Hbit)|reflexivity].
  - exists (set_tag (with_value (Json.Num n)) st).
    split; [exact (Hgen (set_tag (with_value (Json.Num n)) st) Hty Hbit)|reflexivity].
  - exists (set_tag (with_value (Json.Str s)) st).
    split; [exact (Hgen (set_tag (with_value (Json.Str s)) st) Hty Hbit)|reflexivity].
  - exists (set_tag (with_value (Json.Array items)) st).
    split; [exact (Hgen (set_tag (with_value (Json.Array items)) st) Hty Hbit)|reflexivity].
  - exists (set_tag (with_value (Json.Object members)) st).
    split; [exact (Hgen (set_tag (with_value (Json.Object members)) st) Hty Hbit)|reflexivity].
Qed.

End ConstructorClaims.

(** ** The claims at concrete inputs *)

Section AtomicsInstances.

Import Atomics AtomicsSpec.

(** C1 at INT -2 in the default buffer, at BOOL true on bit 12 of two bytes,
    and at TIME on one second. *)
Lemma atomics_roundtrip_witness :
  (exists data',
      serialize (templates INT) (VInt (-2)) None None = Ok data' /\
      deserialize (templates INT) (Some data') None = Ok (VInt (-2))) /\
  (exists data',
      serialize (templates BOOL) (VBool true) (Some [x81; x00]) (Some 12) = Ok data' /\
      length data' = length [x81; x00] /\
      forall j, 0 <= j ->
        bit_at data' j = if j =? 12 then true else bit_at [x81; x00] j) /\
  (exists data',
      serialize (templates TIME) (VBigInt 1000000000) None None = Ok data' /\
      deserialize (templates TIME) (Some data') None = Ok (seconds_of 1000000000)).
Proof.
  split; [|split].
  - apply (proj1 atomics_roundtrip INT (VInt (-2)) None None);
      [discriminate | discriminate | cbn; lia | compute; easy].
  - apply (proj1 (proj2 atomics_roundtrip) true [x81; x00] 12). compute. easy.
  - apply (proj2 (proj2 atomics_roundtrip) TIME 1000000000 None None);
      [now left | cbn; lia | compute; easy].
Defined.

(** C1 as stated fails for TIME (and TIME_NSEC, the same code): a count of
    10^9 nanoseconds is in range and fits the default buffer, it is written
    as the eight bytes of 10^9, and it reads back as the Number 1 (2^52 *
    2^-52), which is neither the BigInt written nor equal to it in value. *)
Lemma atomics_roundtrip_fails_for_TIME :
  in_range TIME (VBigInt 1000000000) /\
  fits TIME (Buf.alloc 8) 0 /\
  serialize (templates TIME) (VBigInt 1000000000) None None
  = Ok [x00; xca; x9a; x3b; x00; x00; x00; x00] /\
  deserialize (templates TIME) (Some [x00; xca; x9a; x3b; x00; x00; x00; x00]) None
  = Ok (VFloat (S754_finite false 4503599627370496 (-52))) /\
  deserialize (templates TIME) (Some [x00; xca; x9a; x3b; x00; x00; x00; x00]) None
  <> Ok (VBigInt 1000000000) /\
  SFcompare (S754_finite false 4503599627370496 (-52)) (Number_of_BigInt 1000000000)
  = Some Lt.
Proof.
  split; [cbn; lia|]. split; [compute; easy|].
  split; [reflexivity|]. split; [reflexivity|]. split; [|reflexivity].
  discriminate.
Qed.

End AtomicsInstances.

Section TagInstances.

Import Tag TagSpec Sample.

Local Open Scope string_scope.
Local Open Scope Z_scope.

Local Abbreviation num z := (Json.Num (Json.Finite z)).

Lemma fresh_is_new :
  new Sample.env 0 "tag" None TypeNull 0 = Ok (fresh 0) /\
  new Sample.env 0 "tag" None TypeNull 1 = Ok (fresh 1).
Proof. split; reflexivity. Qed.

(** C2 on a fresh tag. *)
Lemma stage_isolation_witness :
  get_value (fst (set_controller_value 5 (num 7) (set_value (num 10) (fresh 0))))
  = get_value (set_value (num 10) (fresh 0)).
Proof.
  apply (proj1 (stage_isolation (set_value (num 10) (fresh 0)) 5) (num 7)).
  reflexivity.
Defined.

(** C3 on a fresh tag with keep-alive off, reads at 0, 10 and 20 ms. *)
Lemma change_detection_witness :
  let r1 := set_controller_value 0 (num 5) (fresh 0) in
  let r2 := set_controller_value 10 (num 5) (fst r1) in
  let r3 := set_controller_value 20 (num 6) (fst r2) in
  snd r1 = [Initialized] /\ get_value (fst r1) = num 5 /\
  snd r2 = [] /\ fst r2 = fst r1 /\
  snd r3 = [Changed (num 5)] /\ get_value (fst r3) = num 6.
Proof.
  apply (change_detection (fresh 0) 0 10 20); [reflexivity | reflexivity | left; cbn; lia].
Defined.

(** C3 as stated fails when keep-alive is on: the tag built with a
    keep-alive of one second has no controller value and no staged write,
    and reads of 5 at 0 ms and again at 1000 ms emit [Initialized] and then
    [KeepAlive]. *)
Lemma change_detection_keep_alive_fires :
  new Sample.env 0 "tag" None TypeNull 1 = Ok (fresh 1) /\
  get_controller_value (fresh 1) = Json.Null /\
  get_write_ready (fresh 1) = false /\
  let r1 := set_controller_value 0 (num 5) (fresh 1) in
  let r2 := set_controller_value 1000 (num 5) (fst r1) in
  snd r1 = [Initialized] /\ snd r2 = [KeepAlive] /\ snd r2 <> [].
Proof.
  repeat split; try reflexivity. discriminate.
Qed.

(** C9 on a tag with a keep-alive of one second that read 5 at time 0. *)
Lemma keep_alive_witness :
  let st := fst (set_controller_value 0 (num 5) (fresh 1)) in
  set_controller_value 999 (controllerValue (tag st)) st = (st, []) /\
  snd (set_controller_value 1000 (controllerValue (tag st)) st) = [KeepAlive] /\
  timestamp (fst (set_controller_value 1000 (controllerValue (tag st)) st)) = 1000.
Proof.
  set (st := fst (set_controller_value 0 (num 5) (fresh 1))).
  split; [|split].
  - apply (proj1 (keep_alive st 999)); [reflexivity | compute; easy].
  - apply (proj1 (proj2 (keep_alive st 1000))); [reflexivity | compute; easy].
  - apply (proj1 (proj2 (keep_alive st 1000))); [reflexivity | compute; easy].
Defined.

(** C10: renaming the fresh tag. *)
Lemma set_name_frame_witness :
  exists st',
    set_name "Motor[3].Status" (fresh 0) = Ok st' /\
    name (tag st') = "Motor[3].Status" /\
    get_path st' = get_path (fresh 0) /\
    get_bitIndex st' = get_bitIndex (fresh 0) /\
    program (tag st') = program (tag (fresh 0)) /\
    get_instance_id st' = get_instance_id (fresh 0).
Proof.
  destruct (set_name_frame (fresh 0) "Motor[3].Status" eq_refl)
    as (st' & H1 & H2 & H3 & H4 & H5 & H6 & _).
  exists st'. repeat split; assumption.
Defined.

(** C5 with the sample collaborators. *)
Lemma bit_string_remap_witness :
  exists st,
    new Sample.env 0 "tag[44]" None (TypeCode 211) 0 = Ok st /\
    get_bitIndex st = Some 12 /\
    get_path st = path_of Sample.env None ["tag"; "1"].
Proof.
  apply (proj2 (bit_string_remap Sample.env 0 None 0)); [reflexivity | lia].
Defined.

(** C6 with the sample collaborators. *)
Lemma bit_string_excludes_bit_index_witness :
  exists e, new Sample.env 0 "Motor.Flags.7" None (TypeCode 211) 0 = Throw e.
Proof.
  apply (proj1 (bit_string_excludes_bit_index Sample.env 0 None 0) "Motor.Flags.7").
  reflexivity.
Defined.

(** C7 with the sample collaborators and datatype DINT. *)
Lemma bit_index_bounds_witness :
  (exists st, new Sample.env 0 "tag.0" None (TypeCode 196) 0 = Ok st /\
              get_bitIndex st = Some 0 /\ get_path st = path_of Sample.env None ["tag"]) /\
  (exists st, new Sample.env 0 "tag.31" None (TypeCode 196) 0 = Ok st /\
              get_bitIndex st = Some 31 /\ get_path st = path_of Sample.env None ["tag"]).
Proof.
  apply (proj1 (proj2 (bit_index_bounds Sample.env 0 None (TypeCode 196) 0)));
    [reflexivity | discriminate | lia].
Defined.

Lemma int_bit_3_is_new :
  new Sample.env 0 "tag.3" None (TypeCode (INT Sample.env)) 0 = Ok int_bit_3.
Proof. reflexivity. Qed.

(** C8: writing true to bit 3 of an INT tag. *)
Lemma bit_write_masks_witness :
  exists st',
    generateWriteMessageRequest Sample.env (Json.Bool true) 1 int_bit_3
    = Ok (MessageRouter_build Sample.env READ_MODIFY_WRITE_TAG (get_path int_bit_3)
            [x02; x00; x08; x00; xff; xff],
          st') /\
    get_value st' = Json.Bool true.
Proof.
  apply (bit_write_masks Sample.env (Json.Bool true) 1 int_bit_3);
    [reflexivity | discriminate | reflexivity].
Defined.

End TagInstances.

(** ** What the comparison of JSON texts tells apart *)

Section JsonFacts.

Import Json JsonSpec TextSpec.

Local Open Scope string_scope.
Local Open Scope Z_scope.

Lemma Value_ind_nested (P : Value -> Prop) :
  P Null -> (forall b, P (Bool b)) -> (forall n, P (Num n)) -> (forall s, P (Str s)) ->
  (forall items, Forall P items -> P (Array items)) ->
  (forall members, Forall (fun kv => P (snd kv)) members -> P (Object members)) ->
  forall v, P v.
Proof.
  intros HN HB HNum HS HA HO.
  fix IH 1. intros [|b|n|s|items|members].
  - exact HN.
  - apply HB.
  - apply HNum.
  - apply HS.
  - apply HA. induction items as [|x items IHl]; constructor; [apply IH|exact IHl].
  - apply HO. induction members as [|[k x] members IHl]; constructor; [apply IH|exact IHl].
Qed.

(** *** Numbers *)

Lemma all_chars_append p a b : all_chars p (a ++ b) = all_chars p a && all_chars p b.
Proof. unfold all_chars. now rewrite list_of_append, forallb_app. Qed.

Lemma digits_numeric w : Num.all_digits w = true -> all_chars numeric_char w = true.
Proof.
  unfold Num.all_digits, all_chars.
  induction (list_ascii_of_string w) as [|c l IH]; cbn [forallb]; [reflexivity|].
  rewrite !andb_true_iff. intros [Hc Hl]. unfold numeric_char. rewrite Hc. auto.
Qed.

Lemma decimal_unsigned s : 0 <= s -> unsigned_text (Num.decimal s) = true.
Proof.
  intros Hs. pose proof (decimal_digits s Hs) as Hd. unfold unsigned_text.
  rewrite (digits_numeric _ Hd).
  destruct (Num.decimal s) as [|c t] eqn:E; [now apply decimal_nonempty in E|].
  unfold all_chars in Hd. cbn [list_ascii_of_string forallb] in Hd.
  apply andb_true_iff in Hd. now rewrite (proj1 Hd).
Qed.

(** A text that starts as an unsigned text and goes on with the characters
    of numbers. *)
Lemma unsigned_append a b :
  unsigned_text a = true -> all_chars numeric_char b = true ->
  unsigned_text (a ++ b) = true.
Proof.
  unfold unsigned_text. rewrite !andb_true_iff, all_chars_append.
  intros [Ha Hh] Hb. rewrite Ha, Hb. split; [reflexivity|].
  destruct a; [discriminate|exact Hh].
Qed.

Lemma zeros_numeric j : all_chars numeric_char (Num.zeros j) = true.
Proof. apply digits_numeric. apply zeros_facts. Qed.

Lemma all_chars_cons p c t : all_chars p (String c t) = p c && all_chars p t.
Proof. reflexivity. Qed.

Lemma unsigned_cons d t :
  Num.is_digit d = true -> all_chars numeric_char t = true ->
  unsigned_text (String d t) = true.
Proof.
  intros Hd Ht. unfold unsigned_text. rewrite all_chars_cons, Ht, Hd.
  unfold numeric_char. now rewrite Hd.
Qed.

Lemma exponential_unsigned s n : 0 <= s -> unsigned_text (Num.exponential s n) = true.
Proof.
  intros Hs. pose proof (decimal_unsigned s Hs) as Hu.
  pose proof (decimal_digits (Z.abs (n - 1)) ltac:(lia)) as He.
  apply digits_numeric in He.
  unfold Num.exponential. cbv zeta.
  set (X := String (if n - 1 <? 0 then "-"%char else "+"%char)
              (Num.decimal (Z.abs (n - 1)))).
  assert (Hex : all_chars numeric_char (String "e" X) = true).
  { subst X. rewrite !all_chars_cons, He. destruct (n - 1 <? 0); reflexivity. }
  destruct (Num.decimal s) as [|d rest]; [discriminate Hu|].
  unfold unsigned_text in Hu. apply andb_true_iff in Hu. destruct Hu as [Hall Hd].
  rewrite all_chars_cons in Hall. apply andb_true_iff in Hall.
  destruct Hall as [_ Hrest].
  destruct rest as [|c r].
  - change (String d "e" ++ X) with (String d (String "e" X)).
    now apply unsigned_cons.
  - change (String d (String "." (String c r)) ++ "e" ++ X)
      with (String d (String "." (String c r ++ String "e" X))).
    apply unsigned_cons; [exact Hd|].
    rewrite all_chars_cons, all_chars_append, Hrest, Hex. reflexivity.
Qed.

Lemma render_unsigned s n : 0 <= s -> unsigned_text (Num.render s n) = true.
Proof.
  intros Hs. pose proof (decimal_unsigned s Hs) as Hu.
  unfold Num.render. cbv zeta.
  destruct ((Num.digits10 s <=? n) && (n <=? 21));
    [apply unsigned_append; [exact Hu|apply zeros_numeric]|].
  destruct ((0 <? n) && (n <=? 21)) eqn:C.
  { apply andb_true_iff in C. destruct C as [C _]. apply Z.ltb_lt in C.
    destruct (Num.split_at (Z.to_nat n) (Num.decimal s)) as [whole part] eqn:E.
    apply split_at_spec in E. destruct E as [Happ Hlen].
    assert (Hall : all_chars numeric_char whole = true /\
                   all_chars numeric_char part = true).
    { unfold unsigned_text in Hu. apply andb_true_iff in Hu. destruct Hu as [Hall _].
      rewrite <- Happ, all_chars_append in Hall. now apply andb_true_iff in Hall. }
    apply unsigned_append.
    - unfold unsigned_text. rewrite (proj1 Hall). cbn [andb].
      destruct whole as [|c w].
      + exfalso. cbn [String.length] in Hlen.
        destruct (Num.decimal s) eqn:Ed; [now apply decimal_nonempty in Ed|].
        cbn [String.length] in Hlen. lia.
      + rewrite <- Happ in Hu. unfold unsigned_text in Hu.
        apply andb_true_iff in Hu. exact (proj2 Hu).
    - rewrite all_chars_cons. now rewrite (proj2 Hall). }
  destruct ((-6 <? n) && (n <=? 0)).
  { change ("0." ++ Num.zeros (- n) ++ Num.decimal s)
      with (String "0" (String "." (Num.zeros (- n) ++ Num.decimal s))).
    apply unsigned_cons; [reflexivity|].
    rewrite all_chars_cons, all_chars_append, zeros_numeric.
    unfold unsigned_text in Hu. apply andb_true_iff in Hu. now rewrite (proj1 Hu). }
  now apply exponential_unsigned.
Qed.

Lemma toString_unsigned z : 0 <= z -> unsigned_text (Num.toString z) = true.
Proof.
  intros Hz. unfold Num.toString.
  destruct (Z.ltb_spec z (2 ^ 53)) as [Hlt|Hge]; [now apply decimal_unsigned|].
  assert (Hz0 : 0 < z) by (change (2 ^ 53) with 9007199254740992 in Hge; lia).
  pose proof (digits10_bounds z Hz0) as Hb. pose proof (digits10_pos z) as Hn.
  destruct (Num.shortest z (Num.digits10 z) 1 _) as [[s n'] k'] eqn:E.
  assert (Hf : 1 + Z.of_nat (Z.to_nat (Z.min (Num.digits10 z) 17)) <= Num.digits10 z + 1)
    by lia.
  pose proof (shortest_digits _ _ _ _ _ _ _ Hz0 Hb (Z.le_refl 1) Hf E) as (Hk & Hkn & Hs).
  pose proof (digits10_pos s) as Hk1. rewrite Hk in Hk1.
  destruct (n' <=? 21).
  - apply unsigned_append; [apply decimal_unsigned; lia|apply zeros_numeric].
  - rewrite toString_exponential by lia. apply exponential_unsigned. lia.
Qed.

Lemma fraction_unsigned M E :
  0 < M -> 1 <= E -> unsigned_text (Num.fraction_toString M E) = true.
Proof.
  intros HM HE. destruct (fraction_toString_sound M E HM HE) as (s & n & Hs & -> & _).
  now apply render_unsigned.
Qed.

Lemma number_text_split n :
  finite n = true ->
  number_text n
  = if negative n then String "-" (magnitude_text (magnitude n))
    else magnitude_text (magnitude n).
Proof.
  destruct n as [z|s m e| | |[|]]; try discriminate; intros _;
    cbn [number_text negative magnitude magnitude_text].
  - destruct (Z.ltb_spec z 0).
    + now rewrite Z.abs_neq by lia.
    + now rewrite Z.abs_eq by lia.
  - cbv zeta. destruct s; reflexivity.
  - reflexivity.
Qed.

Lemma magnitude_double n : is_double n = true -> double_magnitude (magnitude n).
Proof.
  destruct n as [z|s m e| | |[|]]; cbn [is_double magnitude double_magnitude];
    try (intros _; split; [lia|reflexivity]).
  - rewrite andb_true_iff, Z.eqb_eq. intros [H _]. split; [lia|exact H].
  - rewrite andb_true_iff, Z.ltb_lt, Z.leb_le. intros [HM HE].
    split; [lia|]. split; [apply odd_numerator|lia].
Qed.

Lemma magnitude_unsigned g :
  double_magnitude g -> unsigned_text (magnitude_text g) = true.
Proof.
  destruct g as [z|M E]; cbn [double_magnitude magnitude_text].
  - intros [Hz _]. now apply toString_unsigned.
  - intros (HM & _ & HE). apply fraction_unsigned; lia.
Qed.

(** The text of a double's magnitude tells the magnitude. *)
Lemma magnitude_text_inj g h :
  double_magnitude g -> double_magnitude h ->
  magnitude_text g = magnitude_text h -> g = h.
Proof.
  assert (Hmixed : forall z M E,
             double_magnitude (Whole z) -> double_magnitude (Part M E) ->
             Num.toString z <> Num.fraction_toString M E).
  { intros z M E [Hz Hr] (HM & Hodd & HE) H.
    destruct (toString_denoted z Hz Hr) as (V & HV & _).
    rewrite H in HV. revert HV. apply fraction_not_integer; [lia|exact Hodd|lia]. }
  destruct g as [a|M1 E1], h as [b|M2 E2]; cbn [magnitude_text]; intros Hg Hh H.
  - destruct Hg as [Ha Hra], Hh as [Hb Hrb].
    destruct (toString_denoted a Ha Hra) as (Va & HVa & <-).
    destruct (toString_denoted b Hb Hrb) as (Vb & HVb & <-).
    rewrite H, HVb in HVa. now injection HVa as ->.
  - exfalso. exact (Hmixed a M2 E2 Hg Hh H).
  - exfalso. symmetry in H. exact (Hmixed b M1 E1 Hh Hg H).
  - destruct Hg as (HM1 & Ho1 & HE1), Hh as (HM2 & Ho2 & HE2).
    pose proof (fraction_denoted M1 E1 HM1 HE1) as H1.
    pose proof (fraction_denoted M2 E2 HM2 HE2) as H2.
    rewrite H in H1.
    set (N := Num.nearest_double _ _) in *.
    assert (Hc : 0 < 2 ^ 1074) by (apply Z.pow_pos_nonneg; lia).
    assert (Heq : M1 * 2 ^ E2 = M2 * 2 ^ E1).
    { apply (Z.mul_reg_r _ _ (2 ^ 1074)); [lia|].
      transitivity (N * 2 ^ E1 * 2 ^ E2); [rewrite H1; ring|].
      replace (N * 2 ^ E1 * 2 ^ E2) with (N * 2 ^ E2 * 2 ^ E1) by ring.
      rewrite H2. ring. }
    destruct (odd_pow2_unique M1 M2 E2 E1 Ho1 Ho2 ltac:(lia) ltac:(lia) Heq) as [-> ->].
    reflexivity.
Qed.

Lemma sign_magnitude_norm x y :
  finite x = true -> finite y = true ->
  negative x = negative y -> magnitude x = magnitude y ->
  norm (Num x) = norm (Num y).
Proof.
  destruct x as [a|s m e| | |[|]], y as [b|t n f| | |[|]]; try discriminate;
    intros _ _; cbn [negative magnitude norm]; intros Hs Hm;
    try discriminate Hm; try reflexivity.
  - injection Hm as Hm. do 2 f_equal.
    destruct (Z.ltb_spec a 0), (Z.ltb_spec b 0); try discriminate Hs; lia.
  - injection Hm as Hm. do 2 f_equal.
    destruct (Z.ltb_spec a 0); [discriminate Hs|lia].
  - injection Hm as Hm He. subst t.
    assert (m = n) by lia. assert (e = f) by lia. now subst.
  - injection Hm as Hm. do 2 f_equal.
    destruct (Z.ltb_spec b 0); [discriminate Hs|lia].
Qed.

(** The text of a double tells the double, the two zeros apart. *)
Lemma number_text_unique x y :
  finite x = true -> finite y = true ->
  is_double x = true -> is_double y = true ->
  number_text x = number_text y -> norm (Num x) = norm (Num y).
Proof.
  intros Fx Fy Dx Dy. rewrite (number_text_split x Fx), (number_text_split y Fy).
  pose proof (magnitude_double x Dx) as Gx. pose proof (magnitude_double y Dy) as Gy.
  pose proof (magnitude_unsigned _ Gx) as Ux. pose proof (magnitude_unsigned _ Gy) as Uy.
  assert (Hsign : forall u t, unsigned_text u = true -> String "-" t <> u).
  { intros u t Hu <-. unfold unsigned_text in Hu.
    apply andb_true_iff in Hu. destruct Hu as [_ Hu]. discriminate Hu. }
  destruct (negative x) eqn:Sx, (negative y) eqn:Sy; intros H.
  - injection H as H. apply magnitude_text_inj in H; try assumption.
    apply sign_magnitude_norm; congruence.
  - now apply Hsign in H.
  - symmetry in H. now apply Hsign in H.
  - apply magnitude_text_inj in H; try assumption.
    apply sign_magnitude_norm; congruence.
Qed.

Lemma finite_text n :
  finite n = true -> is_double n = true ->
  all_chars numeric_char (number_text n) = true /\
  exists c t, number_text n = String c t /\ numeric_char c = true.
Proof.
  intros F D. rewrite (number_text_split n F).
  pose proof (magnitude_unsigned _ (magnitude_double n D)) as U.
  set (u := magnitude_text (magnitude n)) in *.
  unfold unsigned_text in U. apply andb_true_iff in U. destruct U as [Hall Hhead].
  destruct u as [|c t]; [discriminate Hhead|].
  destruct (negative n).
  - split; [rewrite all_chars_cons, Hall; reflexivity|].
    exists "-"%char, (String c t). auto.
  - split; [exact Hall|]. exists c, t. split; [reflexivity|].
    unfold numeric_char. now rewrite Hhead.
Qed.

Lemma infinite_text n :
  finite n = false -> number_text n = "null" /\ norm (Num n) = Null.
Proof. destruct n as [z|s m e| | |[|]]; try discriminate; auto. Qed.

Lemma delimited_not_numeric c r :
  delimited (String c r) = true -> numeric_char c = false.
Proof.
  cbn [delimited]. rewrite !orb_true_iff, !Ascii.eqb_eq.
  intros [[->| ->]| ->]; reflexivity.
Qed.

(** A numeric text followed by a delimited rest is determined by the whole. *)
Lemma numeric_prefix_unique t1 : forall t2 r1 r2,
  all_chars numeric_char t1 = true -> all_chars numeric_char t2 = true ->
  delimited r1 = true -> delimited r2 = true ->
  t1 ++ r1 = t2 ++ r2 -> t1 = t2 /\ r1 = r2.
Proof.
  unfold all_chars.
  induction t1 as [|c1 t1 IH]; intros [|c2 t2] r1 r2 H1 H2 D1 D2; cbn.
  - auto.
  - intros ->. apply delimited_not_numeric in D1.
    cbn in H2. apply andb_true_iff in H2. destruct H2 as [H2 _]. congruence.
  - intros <-. apply delimited_not_numeric in D2.
    cbn in H1. apply andb_true_iff in H1. destruct H1 as [H1 _]. congruence.
  - intros [= -> H]. cbn in H1, H2.
    apply andb_true_iff in H1. apply andb_true_iff in H2.
    destruct (IH t2 r1 r2) as [-> ->]; tauto.
Qed.

Lemma unescape_escape c x : unescape (escape c ++ x) = Some (c, x).
Proof.
  destruct c as [[|] [|] [|] [|] [|] [|] [|] [|]]; reflexivity.
Qed.

Lemma escape_inj c1 c2 x1 x2 :
  escape c1 ++ x1 = escape c2 ++ x2 -> c1 = c2 /\ x1 = x2.
Proof.
  intros H. apply (f_equal unescape) in H.
  rewrite !unescape_escape in H. now injection H.
Qed.

Lemma escape_head c x r : escape c ++ x <> String quote_char r.
Proof.
  destruct c as [[|] [|] [|] [|] [|] [|] [|] [|]]; discriminate.
Qed.

Lemma escape_all_unique s : forall s' r1 r2,
  escape_all s ++ String quote_char r1 = escape_all s' ++ String quote_char r2 ->
  s = s' /\ r1 = r2.
Proof.
  induction s as [|c s IH]; intros [|c' s'] r1 r2; cbn [escape_all append].
  - intros [= ->]. auto.
  - rewrite append_assoc. intros H. symmetry in H. now apply escape_head in H.
  - rewrite append_assoc. intros H. now apply escape_head in H.
  - rewrite !append_assoc. intros H. apply escape_inj in H. destruct H as [-> H].
    apply IH in H. destruct H as [-> ->]. auto.
Qed.

Lemma quote_unique k k' x y : quote k ++ x = quote k' ++ y -> k = k' /\ x = y.
Proof.
  unfold quote. cbn [append]. rewrite !append_assoc. cbn [append].
  intros [= H]. now apply escape_all_unique in H.
Qed.

(** *** Values *)

Lemma headed_not_delimited s r : headed s = true -> delimited (s ++ r) = false.
Proof.
  destruct s as [|c s]; [discriminate|]. cbn. now rewrite negb_true_iff.
Qed.

Lemma number_text_headed n :
  is_double n = true -> headed (number_text n) = true.
Proof.
  intros D. destruct (finite n) eqn:F.
  - destruct (finite_text n F D) as (_ & c & t & -> & Hc).
    cbn [headed]. apply negb_true_iff.
    destruct (delimited (String c "")) eqn:E; [|reflexivity].
    apply delimited_not_numeric in E. congruence.
  - now rewrite (proj1 (infinite_text n F)).
Qed.

Lemma stringify_headed v : is_value v = true -> headed (stringify v) = true.
Proof.
  destruct v as [|[|]|n|s|items|members]; try reflexivity.
  cbn [is_value stringify]. apply number_text_headed.
Qed.

Lemma join_cons (p : string) (rest : list string) (r : string) :
  join (p :: rest) ++ r
  = p ++ match rest with
         | [] => r
         | _ :: _ => String "," (join rest ++ r)
         end.
Proof.
  destruct rest as [|q rest]; cbn [join]; [reflexivity|].
  now rewrite append_assoc.
Qed.

(** Texts joined with commas and closed by a bracket: when each element's
    text, followed by a delimited rest, determines what [g] keeps of the
    element, the whole determines what [g] keeps of the list. *)
Lemma join_unique {A B : Type} (f : A -> string) (g : A -> B) (ok : A -> Prop)
    (close : ascii) :
  delimited (String close "") = true -> close <> ","%char ->
  forall xs,
    Forall (fun x => headed (f x) = true /\
                     forall y r1 r2, ok y ->
                       delimited r1 = true -> delimited r2 = true ->
                       f x ++ r1 = f y ++ r2 -> g x = g y /\ r1 = r2) xs ->
  forall ys, Forall (fun y => ok y /\ headed (f y) = true) ys ->
  forall r1 r2,
    join (map f xs) ++ String close r1 = join (map f ys) ++ String close r2 ->
    map g xs = map g ys /\ r1 = r2.
Proof.
  intros Hclose Hcomma.
  assert (Hdc : forall r, delimited (String close r) = true) by (intros r; exact Hclose).
  assert (Hnot : forall (s : string) r r', headed s = true -> s ++ r <> String close r').
  { intros s r r' Hs H. pose proof (headed_not_delimited s r Hs) as Hd.
    rewrite H, Hdc in Hd. discriminate. }
  induction xs as [|x xs IH]; intros Hxs ys Hys r1 r2.
  - destruct ys as [|y ys]; cbn [map].
    + cbn [join append]. intros [= ->]. auto.
    + rewrite join_cons. cbn [join append]. intros H. symmetry in H.
      apply Forall_inv in Hys. now apply Hnot in H.
  - pose proof (Forall_inv Hxs) as [Hhx Hx]. apply Forall_inv_tail in Hxs.
    destruct ys as [|y ys]; cbn [map].
    + rewrite join_cons. cbn [join append]. intros H. now apply Hnot in H.
    + pose proof (Forall_inv Hys) as [Hoy Hhy]. apply Forall_inv_tail in Hys.
      rewrite !join_cons. intros H.
      assert (Hd : forall (l : list A) r,
                 delimited match map f l with
                           | [] => String close r
                           | _ :: _ => String "," (join (map f l) ++ String close r)
                           end = true).
      { intros l r. destruct (map f l); [apply Hdc|reflexivity]. }
      apply Hx in H; try assumption; try apply Hd.
      destruct H as [Hg H]. rewrite Hg.
      destruct xs as [|x' xs], ys as [|y' ys]; cbn [map] in H |- *.
      * injection H as ->. auto.
      * exfalso. injection H as Hc _. contradiction.
      * exfalso. injection H as Hc _. symmetry in Hc. contradiction.
      * injection H as H.
        destruct (IH Hxs (y' :: ys) Hys r1 r2 H) as [Hm ->].
        cbn [map] in Hm. rewrite Hm. auto.
Qed.

(** Two values have the same JSON text exactly when they are the same
    after NaN and the infinities are replaced by null and the negative zero
    by 0. *)
Lemma stringify_unique a :
  is_value a = true ->
  forall b r1 r2, is_value b = true ->
    delimited r1 = true -> delimited r2 = true ->
    stringify a ++ r1 = stringify b ++ r2 -> norm a = norm b /\ r1 = r2.
Proof.
  (* a text that starts with a letter, a quote or a bracket is not a number's *)
  assert (Hnum : forall n c t r,
             finite n = true -> is_double n = true ->
             String c t = number_text n ++ r -> numeric_char c = true).
  { intros n c t r F D H.
    pose proof (finite_text n F D) as (_ & c' & t' & E & Hc').
    rewrite E in H. cbn in H. injection H as -> _. exact Hc'. }
  (* a value that is not a number against a number *)
  assert (Hother : forall (text : string) (v : Value) n r1 r2,
             is_double n = true ->
             (exists c t, text = String c t /\ numeric_char c = false) ->
             (text = "null" -> v = Null) ->
             (forall t, text <> String "n" t \/ text = "null") ->
             text ++ r1 = number_text n ++ r2 -> v = norm (Num n) /\ r1 = r2).
  { intros text v n r1 r2 D (c & t & -> & Hc) Hnull Hn H.
    destruct (finite n) eqn:F.
    - cbn [append] in H. apply Hnum in H; [congruence|exact F|exact D].
    - destruct (infinite_text n F) as [Et ->]. rewrite Et in H.
      destruct (Hn t) as [Hne|Heq].
      + exfalso. cbn in H. injection H as -> _. now apply Hne.
      + rewrite Heq in H. cbn in H. injection H as ->. split; [now apply Hnull|reflexivity]. }
  induction a as [|x|n|s|items IH|members IH] using Value_ind_nested;
    intros Ha b r1 r2 Hb D1 D2.
  - (* null *)
    destruct b as [|[|]|n'|s'|items'|members']; cbn [stringify];
      try (cbn; discriminate).
    + cbn. intros [= ->]. auto.
    + apply (Hother "null" Null); [exact Hb|eexists; eexists; split; reflexivity|auto|auto].
  - (* booleans *)
    destruct b as [|[|]|n'|s'|items'|members'], x; cbn [stringify];
      try (cbn; discriminate);
      try (cbn; intros [= ->]; auto; fail).
    + apply (Hother "true" (Bool true));
        [exact Hb|eexists; eexists; split; reflexivity|discriminate|left; discriminate].
    + apply (Hother "false" (Bool false));
        [exact Hb|eexists; eexists; split; reflexivity|discriminate|left; discriminate].
  - (* numbers *)
    assert (Hsym : forall (text : string) (v : Value),
               (exists c t, text = String c t /\ numeric_char c = false) ->
               (text = "null" -> v = Null) ->
               (forall t, text <> String "n" t \/ text = "null") ->
               number_text n ++ r1 = text ++ r2 -> norm (Num n) = v /\ r1 = r2).
    { intros text v Hc Hnull Hn H. symmetry in H.
      destruct (Hother text v n r2 r1 Ha Hc Hnull Hn H) as [-> ->]. auto. }
    destruct b as [|[|]|n'|s'|items'|members']; cbn [stringify].
    + apply (Hsym "null" Null); [eexists; eexists; split; reflexivity|auto|auto].
    + apply (Hsym "true" (Bool true));
        [eexists; eexists; split; reflexivity|discriminate|left; discriminate].
    + apply (Hsym "false" (Bool false));
        [eexists; eexists; split; reflexivity|discriminate|left; discriminate].
    + cbn [is_value] in Ha, Hb.
      destruct (finite n) eqn:F, (finite n') eqn:F'.
      * pose proof (finite_text n F Ha) as (Hall & _).
        pose proof (finite_text n' F' Hb) as (Hall' & _).
        intros H. apply numeric_prefix_unique in H; try assumption.
        destruct H as [H ->]. split; [|reflexivity].
        now apply number_text_unique.
      * destruct (infinite_text n' F') as [Et En]. rewrite Et.
        pose proof (finite_text n F Ha) as (_ & c & t & E & Hc). rewrite E.
        cbn. intros [= -> _]. discriminate Hc.
      * destruct (infinite_text n F) as [Et En]. rewrite Et.
        pose proof (finite_text n' F' Hb) as (_ & c & t & E & Hc). rewrite E.
        cbn. intros [= <- _]. discriminate Hc.
      * destruct (infinite_text n F) as [Et En], (infinite_text n' F') as [Et' En'].
        rewrite Et, Et', En, En'. cbn. intros [= ->]. auto.
    + apply (Hsym (quote s') (norm (Str s')));
        [eexists; eexists; split; reflexivity|discriminate|left; discriminate].
    + apply (Hsym ("[" ++ join (map stringify items') ++ "]") (norm (Array items')));
        [eexists; eexists; split; reflexivity|discriminate|left; discriminate].
    + apply (Hsym ("{" ++ join (map (fun kv => quote (fst kv) ++ ":" ++ stringify (snd kv))
                                  members') ++ "}") (norm (Object members')));
        [eexists; eexists; split; reflexivity|discriminate|left; discriminate].
  - (* strings *)
    destruct b as [|[|]|n'|s'|items'|members']; cbn [stringify norm];
      try (cbn; discriminate).
    + apply (Hother (quote s) (Str s));
        [exact Hb|eexists; eexists; split; reflexivity|discriminate|left; discriminate].
    + intros H. apply quote_unique in H. destruct H as [-> ->]. auto.
  - (* arrays *)
    destruct b as [|[|]|n'|s'|items'|members']; cbn [stringify];
      try (cbn; discriminate).
    { apply (Hother ("[" ++ join (map stringify items) ++ "]") (norm (Array items)));
        [exact Hb|eexists; eexists; split; reflexivity|discriminate|left; discriminate]. }
    cbn [norm append]. rewrite !append_assoc. cbn [append]. intros [= H].
    cbn [is_value] in Ha, Hb. rewrite forallb_forall in Ha, Hb.
    apply (join_unique stringify norm (fun y => is_value y = true) "]") in H;
      [destruct H as [-> ->]; auto | reflexivity | discriminate | |].
    + rewrite Forall_forall in IH |- *. intros x Hx.
      pose proof (proj1 (list_elem_of_In _ _) Hx) as Hx'. split.
      * apply stringify_headed, Ha, Hx'.
      * intros y q1 q2 Hy. apply IH; [exact Hx|apply Ha, Hx'|exact Hy].
    + rewrite Forall_forall. intros y Hy. apply list_elem_of_In in Hy.
      split; [apply Hb, Hy|]. apply stringify_headed, Hb, Hy.
  - (* objects *)
    destruct b as [|[|]|n'|s'|items'|members']; cbn [stringify];
      try (cbn; discriminate).
    { apply (Hother ("{" ++ join (map (fun kv => quote (fst kv) ++ ":" ++ stringify (snd kv))
                                    members) ++ "}") (norm (Object members)));
        [exact Hb|eexists; eexists; split; reflexivity|discriminate|left; discriminate]. }
    cbn [norm append]. rewrite !append_assoc. cbn [append]. intros [= H].
    cbn [is_value] in Ha, Hb. rewrite forallb_forall in Ha, Hb.
    apply (join_unique (fun kv => quote (fst kv) ++ ":" ++ stringify (snd kv))
             (fun kv => (fst kv, norm (snd kv)))
             (fun kv => is_value (snd kv) = true) "}") in H;
      [destruct H as [-> ->]; auto | reflexivity | discriminate | |].
    + rewrite Forall_forall in IH |- *. intros [k x] Hx.
      pose proof (proj1 (list_elem_of_In _ _) Hx) as Hx'. cbn [fst snd]. split.
      * reflexivity.
      * intros [k' y] q1 q2 Hy Dq1 Dq2. cbn [fst snd] in Hy |- *.
        rewrite !append_assoc. intros H'. apply quote_unique in H'.
        destruct H' as [-> H']. cbn [append] in H'. injection H' as H'.
        apply (IH (k', x) Hx) in H'; try assumption; [|apply (Ha (k', x) Hx')].
        cbn [fst snd] in H'. destruct H' as [-> ->]. auto.
    + rewrite Forall_forall. intros [k y] Hy. apply list_elem_of_In in Hy.
      split; [apply (Hb (k, y) Hy)|reflexivity].
Qed.

Lemma stringify_norm v : stringify (norm v) = stringify v.
Proof.
  induction v as [|x|n|s|items IH|members IH] using Value_ind_nested;
    try reflexivity.
  - destruct n as [z|s m e| | |[|]]; reflexivity.
  - cbn [norm stringify]. rewrite map_map. do 3 f_equal.
    apply map_ext_Forall. exact IH.
  - cbn [norm stringify]. rewrite map_map. do 3 f_equal.
    apply map_ext_Forall. eapply Forall_impl; [exact IH|].
    intros [k x] Hx. cbn [fst snd] in *. now rewrite Hx.
Qed.

(** The comparison [JSON.stringify(a) !== JSON.stringify(b)]. *)
Lemma same_text_iff a b :
  is_value a = true -> is_value b = true ->
  (stringify a = stringify b <-> norm a = norm b).
Proof.
  intros Ha Hb. split.
  - intros H.
    assert (H' : stringify a ++ "" = stringify b ++ "") by now rewrite H.
    now apply stringify_unique in H'.
  - intros H. rewrite <- (stringify_norm a), <- (stringify_norm b). now rewrite H.
Qed.

End JsonFacts.

(** ** The comparison made by a read *)

Section ComparisonClaims.

Import Tag JsonSpec.

Local Open Scope string_scope.
Local Open Scope Z_scope.

(** C4 (amended). [set controller_value] compares the JSON texts of the new
    value and of the current controller value. For all values the tag can
    hold (null, booleans, numbers with or without a fraction part, strings,
    arrays, objects) the two are treated as equal exactly when they are the
    same value once NaN and the infinities are replaced by null, the two
    zeros being one number, and array elements and object members taken in
    their order. Treated as equal: neither Initialized nor Changed is
    emitted, the controller value stays that same value, and unless a
    keep-alive is due the state is left as it is.
    Treated as different: the controller value becomes the new value and the
    one event emitted is Initialized when the previous value was null,
    Changed with the previous value otherwise. *)
Theorem compares_json_text (st : State) (now : Z) (newValue : Json.Value) :
  is_value newValue = true ->
  is_value (get_controller_value st) = true ->
  (norm newValue = norm (get_controller_value st) ->
     announces_change (snd (set_controller_value now newValue st)) = false /\
     norm (get_controller_value (fst (set_controller_value now newValue st)))
     = norm (get_controller_value st) /\
     (keepAlive st <= 0 \/ now - timestamp st < keepAlive st * 1000 ->
      set_controller_value now newValue st = (st, []))) /\
  (norm newValue <> norm (get_controller_value st) ->
     get_controller_value (fst (set_controller_value now newValue st)) = newValue /\
     snd (set_controller_value now newValue st) =
       [match get_controller_value st with
        | Json.Null => Initialized
        | lastValue => Changed lastValue
        end]).
Proof.
  intros Hnew Hcur.
  pose proof (same_text_iff newValue (get_controller_value st) Hnew Hcur) as Htext.
  unfold get_controller_value in *. unfold set_controller_value.
  destruct (String.eqb_spec (Json.stringify newValue)
              (Json.stringify (controllerValue (tag st)))) as [E|E];
    cbn [negb]; split; intros Hnorm.
  - split; [|split].
    + destruct (0 <? keepAlive st); [|reflexivity].
      destruct (keepAlive st * 1000 <=? now - timestamp st); reflexivity.
    + destruct (0 <? keepAlive st); [|reflexivity].
      destruct (keepAlive st * 1000 <=? now - timestamp st); [|reflexivity].
      cbn [fst with_timestamp tag set_tag with_controllerValue stage_write].
      destruct (negb (stage_write (tag st))); exact Hnorm.
    + intros Hdue. destruct (Z.ltb_spec 0 (keepAlive st)); [|reflexivity].
      destruct (Z.leb_spec (keepAlive st * 1000) (now - timestamp st));
        [lia|reflexivity].
  - exfalso. apply Hnorm, Htext, E.
  - exfalso. apply E, Htext, Hnorm.
  - cbv zeta. destruct (controllerValue (tag st));
      cbn [fst snd]; (split; [|reflexivity]);
      cbn [set_tag tag stage_write with_controllerValue];
      destruct (stage_write (tag st)); reflexivity.
Qed.

End ComparisonClaims.

Section ComparisonInstances.

Import Tag JsonSpec Sample.

Local Open Scope string_scope.
Local Open Scope Z_scope.

(** C4 on a fresh tag that reads 0.5; on a tag that holds 0.5 and reads 0.5
    again, then 0.25, then -0.5; on a tag that holds 2^53 and reads
    2^53 + 2; and on a fresh tag that reads null. *)
Lemma compares_json_text_witness :
  let half := Json.Num (Json.Fraction false 0 0) in
  let quarter := Json.Num (Json.Fraction false 0 1) in
  let minus_half := Json.Num (Json.Fraction true 0 0) in
  let big := Json.Num (Json.Finite (2 ^ 53)) in
  let bigger := Json.Num (Json.Finite (2 ^ 53 + 2)) in
  let st := set_tag (with_controllerValue half) (fresh 0) in
  let st' := set_tag (with_controllerValue big) (fresh 0) in
  (get_controller_value (fst (set_controller_value 7 half (fresh 0))) = half /\
   snd (set_controller_value 7 half (fresh 0)) = [Initialized]) /\
  set_controller_value 7 half st = (st, []) /\
  (get_controller_value (fst (set_controller_value 7 quarter st)) = quarter /\
   snd (set_controller_value 7 quarter st) = [Changed half]) /\
  (get_controller_value (fst (set_controller_value 7 minus_half st)) = minus_half /\
   snd (set_controller_value 7 minus_half st) = [Changed half]) /\
  (get_controller_value (fst (set_controller_value 7 bigger st')) = bigger /\
   snd (set_controller_value 7 bigger st') = [Changed big]) /\
  set_controller_value 7 Json.Null (fresh 0) = (fresh 0, []).
Proof.
  intros half quarter minus_half big bigger st st'.
  split; [apply (compares_json_text (fresh 0) 7 half);
          [reflexivity | reflexivity | discriminate]|].
  split; [apply (compares_json_text st 7 half);
          [reflexivity | reflexivity | reflexivity | left; cbn; lia]|].
  split; [apply (compares_json_text st 7 quarter);
          [reflexivity | reflexivity | discriminate]|].
  split; [apply (compares_json_text st 7 minus_half);
          [reflexivity | reflexivity | discriminate]|].
  split; [apply (compares_json_text st' 7 bigger);
          [reflexivity | reflexivity | discriminate]|].
  apply (compares_json_text (fresh 0) 7 Json.Null);
    [reflexivity | reflexivity | reflexivity | left; cbn; lia].
Defined.

(** C4 as stated fails: NaN and null are structurally different, a number
    and no value, yet a fresh tag that reads NaN emits nothing and keeps
    null as its controller value. *)
Lemma deep_equality_fails_for_NaN :
  deep_equal (Json.Num Json.NaN) (get_controller_value (fresh 0)) = false /\
  set_controller_value 7 (Json.Num Json.NaN) (fresh 0) = (fresh 0, []).
Proof. split; reflexivity. Qed.

(** The order of the keys tells two objects apart: the same members in
    another order are announced as a change. *)
Lemma key_order_is_compared :
  let lint := Json.Object [("low", Json.Num (Json.Finite 1)); ("high", Json.Num (Json.Finite 2))] in
  let swapped := Json.Object [("high", Json.Num (Json.Finite 2)); ("low", Json.Num (Json.Finite 1))] in
  deep_equal lint swapped = true /\
  snd (set_controller_value 8 swapped (fst (set_controller_value 7 lint (fresh 0))))
    = [Changed lint].
Proof. split; reflexivity. Qed.

End ComparisonInstances.

(* ================================================================= *)
(** * Further properties of the code *)

(** ** Atomic templates: what a call can and cannot do *)

Section AtomicsFields.

Import Atomics AtomicsSpec.

Lemma write_bytes_inv bs off (data data' : Buffer) :
  Buf.write_bytes bs off data = Ok data' ->
  exists i, off = Some i /\ 0 <= i /\
            i + Z.of_nat (length bs) <= Z.of_nat (length data) /\
            length data' = length data /\
            same_outside i (length bs) data data' /\
            (forall k, (k < length bs)%nat -> data' !! (Z.to_nat i + k)%nat = bs !! k).
Proof.
  intros H. destruct off as [i|]; [|discriminate H].
  destruct (Buf.in_bounds data (Some i) (length bs)) eqn:Hb;
    [|unfold Buf.write_bytes in H; rewrite Hb in H; discriminate H].
  destruct (write_bytes_ok bs i data Hb) as (d & Hw & Hl & Hr & Hf).
  rewrite Hw in H. injection H as ->.
  apply in_bounds_spec in Hb. destruct Hb as [Hi Hn].
  exists i. repeat split; try assumption.
  intros k Hk. unfold Buf.read_bytes in Hr.
  destruct (Buf.in_bounds data' (Some i) (length bs)); [|discriminate Hr].
  injection Hr as Hr. cbn [default from_option id] in Hr.
  rewrite <- Hr. rewrite lookup_take_lt by exact Hk.
  now rewrite lookup_drop.
Qed.

Lemma read_bytes_inv (data : Buffer) off n bs :
  Buf.read_bytes data off n = Ok bs ->
  exists i, off = Some i /\ 0 <= i /\ i + Z.of_nat n <= Z.of_nat (length data).
Proof.
  unfold Buf.read_bytes. destruct (Buf.in_bounds data off n) eqn:Hb; [|discriminate].
  intros _. destruct off as [i|]; [|discriminate Hb].
  apply in_bounds_spec in Hb. exists i. tauto.
Qed.

Lemma div8_inv o i :
  div8 o = Some i -> 0 <= i -> 0 <= o /\ o mod 8 = 0 /\ o / 8 = i.
Proof.
  unfold div8. destruct (Z.eqb_spec (Z.rem o 8) 0) as [Hr|]; [|discriminate].
  intros [= <-] Hi. pose proof (Z.quot_rem' o 8) as Ho. rewrite Hr in Ho.
  set (q := Z.quot o 8) in *.
  assert (Ho' : o = q * 8) by lia. clearbody q. clear Ho Hr. subst o.
  split; [lia|]. split; [apply Z.mod_mul; lia|apply Z.div_mul; lia].
Qed.

(** A write of [n] bytes at [offset / 8]. *)
Lemma field_write_inv n bs o (d d' : Buffer) :
  length bs = n ->
  Buf.write_bytes bs (div8 o) d = Ok d' ->
  (0 <= o /\ o mod 8 = 0 /\ o / 8 + Z.of_nat n <= Z.of_nat (length d)) /\
  length d' = length d /\
  same_outside (o / 8) n d d' /\
  (forall k, (k < n)%nat -> d' !! (Z.to_nat (o / 8) + k)%nat = bs !! k).
Proof.
  intros Hn H. apply write_bytes_inv in H.
  destruct H as (i & Hd & Hi & Hlen & Hl & Hf & Hk). rewrite Hn in *.
  destruct (div8_inv o i Hd Hi) as (Ho & Hm & ->). tauto.
Qed.

Lemma writeInt_inv n v off (d d' : Buffer) :
  writeInt n v off d = Ok d' ->
  exists z, stored_int (Buf.imin n) (Buf.imax n) <$> ToNumber v = Ok (Ok z) /\
            Buf.write_bytes (Buf.le_bytes n z) off d = Ok d'.
Proof.
  unfold writeInt. destruct (ToNumber v) as [x|]; [|discriminate].
  cbn [mbind result_bind fmap result_fmap].
  destruct (stored_int _ _ x) as [z|]; [|discriminate]. eauto.
Qed.

Lemma writeUInt_inv n v off (d d' : Buffer) :
  writeUInt n v off d = Ok d' ->
  exists z, stored_int 0 (Buf.umax n) <$> ToNumber v = Ok (Ok z) /\
            Buf.write_bytes (Buf.le_bytes n z) off d = Ok d'.
Proof.
  unfold writeUInt. destruct (ToNumber v) as [x|]; [|discriminate].
  cbn [mbind result_bind fmap result_fmap].
  destruct (stored_int _ _ x) as [z|]; [|discriminate]. eauto.
Qed.

Lemma check_range_inv lo hi z z' :
  Buf.check_range lo hi z = Ok z' -> z' = z /\ lo <= z <= hi.
Proof.
  unfold Buf.check_range.
  destruct (Z.leb_spec lo z), (Z.leb_spec z hi); cbn; try discriminate.
  intros [= <-]. lia.
Qed.

Lemma check_range_in lo hi z :
  lo <= z <= hi -> Buf.check_range lo hi z = Ok z.
Proof.
  intros H. unfold Buf.check_range.
  destruct (Z.leb_spec lo z), (Z.leb_spec z hi); cbn; try reflexivity; lia.
Qed.

Lemma check_range_out lo hi z :
  ~ lo <= z <= hi -> Buf.check_range lo hi z = Throw RangeError.
Proof.
  intros H. unfold Buf.check_range.
  destruct (Z.leb_spec lo z), (Z.leb_spec z hi); cbn; try reflexivity. lia.
Qed.

(** What [serialize] of a template other than BOOL writes, when it
    returns: [width t] bytes at [offset / 8]. *)
Lemma LINT_serialize_defined v (data : option Buffer) (offset : option Z) data' :
  LINT_serialize v data offset = Ok data' ->
  (d1 ← writeInt 4 (get_low v) (div8 (default 0 offset)) (default (Buf.alloc 8) data);
   writeInt 4 (get_high v) (plus4 (div8 (default 0 offset))) d1) = Ok data'.
Proof. unfold LINT_serialize. destruct v; [discriminate|auto..]. Qed.

Lemma serialize_inv t v data offset data' :
  t <> BOOL ->
  serialize (templates t) v data offset = Ok data' ->
  exists bs,
    length bs = width t /\
    fits t (buffer_of t data) (offset_of offset) /\
    length data' = length (buffer_of t data) /\
    same_outside (offset_of offset / 8) (width t) (buffer_of t data) data' /\
    (forall k, (k < width t)%nat ->
               data' !! (Z.to_nat (offset_of offset / 8) + k)%nat = bs !! k) /\
    (forall n, v = VInt n -> integral t = true -> bs = Buf.le_bytes (width t) n) /\
    (forall low high, v = VLowHigh low high -> t = LINT \/ t = LREAL ->
                      bs = (Buf.le_bytes 4 low ++ Buf.le_bytes 4 high)%list).
Proof.
  intros Ht H. unfold buffer_of, offset_of.
  set (d := default (Buf.alloc (width t)) data).
  set (o := default 0 offset).
  assert (Hone : forall n z,
             n = width t ->
             Buf.write_bytes (Buf.le_bytes n z) (div8 o) d = Ok data' ->
             fits t d o /\ length data' = length d /\
             same_outside (o / 8) (width t) d data' /\
             (forall k, (k < width t)%nat ->
                        data' !! (Z.to_nat (o / 8) + k)%nat = Buf.le_bytes n z !! k)).
  { intros n z -> Hw.
    apply (field_write_inv (width t)) in Hw; [|apply length_le_bytes].
    destruct Hw as (Hfit & Hl & Hf & Hk).
    repeat split; try assumption; destruct t; try exact Hfit; congruence. }
  assert (Hint : forall z lo hi w,
             stored_int lo hi <$> ToNumber v = Ok (Ok z) -> v = VInt w -> z = w).
  { intros z lo hi w Hs ->. cbn in Hs. injection Hs as Hs.
    now apply check_range_inv in Hs. }
  destruct t; try congruence; cbn [templates serialize width] in H;
    unfold serialize_at in H; fold d o in H.
  1-7: (apply writeInt_inv in H || apply writeUInt_inv in H);
       destruct H as (z & Hz & Hw);
       apply Hone in Hw; [|reflexivity];
       destruct Hw as (Hfit & Hl & Hf & Hk);
       eexists; split; [apply length_le_bytes|];
       split; [exact Hfit|]; split; [exact Hl|]; split; [exact Hf|];
       split; [exact Hk|]; split;
       [intros n -> _; f_equal; eapply Hint; [exact Hz|reflexivity]
       |intros low high _ [|]; discriminate].
  - (* LINT *)
    apply LINT_serialize_defined in H. cbn [width] in d. fold d o in H.
    destruct (writeInt 4 (get_low v) (div8 o) d) as [d1|] eqn:H1; [|discriminate H].
    cbn [mbind result_bind] in H.
    apply writeInt_inv in H1. destruct H1 as (z1 & Hz1 & Hw1).
    apply writeInt_inv in H. destruct H as (z2 & Hz2 & Hw2).
    apply (field_write_inv 4) in Hw1; [|reflexivity].
    destruct Hw1 as ((Ho & Hm & Hlen1) & Hl1 & Hf1 & Hk1).
    assert (Hd : div8 o = Some (o / 8)) by now apply div8_aligned.
    rewrite Hd in Hw2. cbn [plus4 fmap option_fmap option_map] in Hw2.
    apply write_bytes_inv in Hw2.
    destruct Hw2 as (i & [= <-] & Hi & Hlen2 & Hl2 & Hf2 & Hk2).
    change (length (Buf.le_bytes 4 z2)) with 4%nat in *.
    assert (Hq : 0 <= o / 8) by (apply Z.div_pos; lia).
    exists (Buf.le_bytes 4 z1 ++ Buf.le_bytes 4 z2)%list.
    split; [reflexivity|]. split; [cbn [fits width]; lia|].
    split; [lia|]. split; [|split; [|split]].
    + intros k Hk. cbn [width] in Hk. unfold same_outside in Hf1, Hf2.
      rewrite Hf2 by lia. apply Hf1. lia.
    + intros k Hk. cbn [width] in Hk.
      destruct (Nat.lt_ge_cases k 4) as [Hk4|Hk4].
      * unfold same_outside in Hf2.
        rewrite Hf2 by lia. rewrite lookup_app_l by (cbn; lia). now apply Hk1.
      * rewrite lookup_app_r by (cbn; lia). change (length (Buf.le_bytes 4 z1)) with 4%nat.
        rewrite <- Hk2 by lia. f_equal. lia.
    + intros n -> Hi'. discriminate Hi'.
    + intros low high -> _. cbn in Hz1, Hz2.
      injection Hz1 as Hz1. injection Hz2 as Hz2.
      apply check_range_inv in Hz1, Hz2. destruct Hz1 as [-> _], Hz2 as [-> _].
      reflexivity.
  - (* REAL *)
    unfold writeFloatLE in H. destruct (ToNumber v) as [x|]; [|discriminate H].
    cbn [mbind result_bind] in H. apply (Hone 4%nat) in H; [|reflexivity].
    destruct H as (Hfit & Hl & Hf & Hk).
    eexists; split; [apply (length_le_bytes 4)|].
    split; [exact Hfit|]. split; [exact Hl|]. split; [exact Hf|]. split; [exact Hk|].
    split; [intros n _ [=]|intros low high _ [|]; discriminate].
  - (* LREAL *)
    apply LINT_serialize_defined in H. cbn [width] in d. fold d o in H.
    destruct (writeInt 4 (get_low v) (div8 o) d) as [d1|] eqn:H1; [|discriminate H].
    cbn [mbind result_bind] in H.
    apply writeInt_inv in H1. destruct H1 as (z1 & Hz1 & Hw1).
    apply writeInt_inv in H. destruct H as (z2 & Hz2 & Hw2).
    apply (field_write_inv 4) in Hw1; [|reflexivity].
    destruct Hw1 as ((Ho & Hm & Hlen1) & Hl1 & Hf1 & Hk1).
    assert (Hd : div8 o = Some (o / 8)) by now apply div8_aligned.
    rewrite Hd in Hw2. cbn [plus4 fmap option_fmap option_map] in Hw2.
    apply write_bytes_inv in Hw2.
    destruct Hw2 as (i & [= <-] & Hi & Hlen2 & Hl2 & Hf2 & Hk2).
    change (length (Buf.le_bytes 4 z2)) with 4%nat in *.
    assert (Hq : 0 <= o / 8) by (apply Z.div_pos; lia).
    exists (Buf.le_bytes 4 z1 ++ Buf.le_bytes 4 z2)%list.
    split; [reflexivity|]. split; [cbn [fits width]; lia|].
    split; [lia|]. split; [|split; [|split]].
    + intros k Hk. cbn [width] in Hk. unfold same_outside in Hf1, Hf2.
      rewrite Hf2 by lia. apply Hf1. lia.
    + intros k Hk. cbn [width] in Hk.
      destruct (Nat.lt_ge_cases k 4) as [Hk4|Hk4].
      * unfold same_outside in Hf2.
        rewrite Hf2 by lia. rewrite lookup_app_l by (cbn; lia). now apply Hk1.
      * rewrite lookup_app_r by (cbn; lia). change (length (Buf.le_bytes 4 z1)) with 4%nat.
        rewrite <- Hk2 by lia. f_equal. lia.
    + intros n -> Hi'. discriminate Hi'.
    + intros low high -> _. cbn in Hz1, Hz2.
      injection Hz1 as Hz1. injection Hz2 as Hz2.
      apply check_range_inv in Hz1, Hz2. destruct Hz1 as [-> _], Hz2 as [-> _].
      reflexivity.
  - (* TIME *)
    assert (Hb : exists z, Buf.write_bytes (Buf.le_bytes 8 z) (div8 o) d = Ok data').
    { unfold writeBigUInt64LE in H. destruct v as [| | | |n|].
      all: repeat match type of H with
             | context [Buf.check_range ?a ?b ?c] =>
                 destruct (Buf.check_range a b c); cbn [mbind result_bind] in H
             | context [stored_int ?a ?b ?c] =>
                 destruct (stored_int a b c); cbn [mbind result_bind] in H
             | context [Buf.read_bytes ?a ?b ?c] =>
                 destruct (Buf.read_bytes a b c); cbn [mbind result_bind] in H
             end; try discriminate H; eauto. }
    destruct Hb as (z & Hw). apply (Hone 8%nat) in Hw; [|reflexivity].
    destruct Hw as (Hfit & Hl & Hf & Hk).
    eexists; split; [apply (length_le_bytes 8)|].
    split; [exact Hfit|]. split; [exact Hl|]. split; [exact Hf|]. split; [exact Hk|].
    split; [intros n _ [=]|intros low high _ [|]; discriminate].
  - (* TIME_NSEC *)
    assert (Hb : exists z, Buf.write_bytes (Buf.le_bytes 8 z) (div8 o) d = Ok data').
    { unfold writeBigUInt64LE in H. destruct v as [| | | |n|].
      all: repeat match type of H with
             | context [Buf.check_range ?a ?b ?c] =>
                 destruct (Buf.check_range a b c); cbn [mbind result_bind] in H
             | context [stored_int ?a ?b ?c] =>
                 destruct (stored_int a b c); cbn [mbind result_bind] in H
             | context [Buf.read_bytes ?a ?b ?c] =>
                 destruct (Buf.read_bytes a b c); cbn [mbind result_bind] in H
             end; try discriminate H; eauto. }
    destruct Hb as (z & Hw). apply (Hone 8%nat) in Hw; [|reflexivity].
    destruct Hw as (Hfit & Hl & Hf & Hk).
    eexists; split; [apply (length_le_bytes 8)|].
    split; [exact Hfit|]. split; [exact Hl|]. split; [exact Hf|]. split; [exact Hk|].
    split; [intros n _ [=]|intros low high _ [|]; discriminate].
Qed.

Lemma le_bytes_lookup n : forall z k,
  (k < n)%nat -> Buf.le_bytes n z !! k = Some (Buf.byte_of (z / 256 ^ Z.of_nat k)).
Proof.
  induction n as [|n IH]; intros z k Hk; [lia|].
  destruct k as [|k]; cbn [Buf.le_bytes lookup list_lookup].
  - now rewrite Z.div_1_r.
  - rewrite IH by lia. do 2 f_equal.
    rewrite Nat2Z.inj_succ, Z.pow_succ_r by lia.
    rewrite Z.div_div by (try apply Z.pow_pos_nonneg; lia). reflexivity.
Qed.

Lemma read_bytes_deserialize_inv n (d : Buffer) o bs :
  Buf.read_bytes d (div8 o) n = Ok bs ->
  0 <= o /\ o mod 8 = 0 /\ o / 8 + Z.of_nat n <= Z.of_nat (length d).
Proof.
  intros H. apply read_bytes_inv in H. destruct H as (i & Hd & Hi & Hl).
  destruct (div8_inv o i Hd Hi) as (Ho & Hm & ->). tauto.
Qed.

(** X1.  When [serialize] of a template other than BOOL returns, the bit
    offset is a multiple of 8 that is not negative and the field lies
    inside the buffer; the buffer keeps its length, and every byte outside
    the field keeps its value. *)
Theorem serialize_stays_in_field t v (data : option Buffer) (offset : option Z) data' :
  t <> BOOL ->
  serialize (templates t) v data offset = Ok data' ->
  fits t (buffer_of t data) (offset_of offset) /\
  length data' = length (buffer_of t data) /\
  same_outside (offset_of offset / 8) (width t) (buffer_of t data) data'.
Proof.
  intros Ht H. destruct (serialize_inv t v data offset data' Ht H)
    as (bs & _ & Hfit & Hl & Hf & _). auto.
Qed.

Lemma deserialize_inv t (data : option Buffer) (offset : option Z) v :
  t <> BOOL ->
  deserialize (templates t) data offset = Ok v ->
  fits t (buffer_of t data) (offset_of offset) \/
  (t = SINT /\ 8 * Z.of_nat (length (buffer_of t data)) <= offset_of offset /\ v = VInt 0).
Proof.
  intros Ht H. unfold buffer_of, offset_of.
  set (d := default (Buf.alloc (width t)) data).
  set (o := default 0 offset).
  assert (Hread : forall n,
             n = width t -> (exists bs, Buf.read_bytes d (div8 o) n = Ok bs) ->
             fits t d o).
  { intros n -> [bs Hbs]. apply read_bytes_deserialize_inv in Hbs.
    destruct t; try exact Hbs; congruence. }
  assert (Hbind : forall A (n : nat) (f : list byte -> result A) r,
             (bs ← Buf.read_bytes d (div8 o) n; f bs) = Ok r ->
             exists bs, Buf.read_bytes d (div8 o) n = Ok bs).
  { intros A n f r Hr. destruct (Buf.read_bytes d (div8 o) n) as [bs|]; [eauto|discriminate]. }
  assert (Hfmap : forall (n : nat) (read : Buffer -> index -> result Z),
             (forall r, read d (div8 o) = Ok r ->
                        exists bs, Buf.read_bytes d (div8 o) n = Ok bs) ->
             VInt <$> read d (div8 o) = Ok v ->
             exists bs, Buf.read_bytes d (div8 o) n = Ok bs).
  { intros n read Hr Hv. destruct (read d (div8 o)) as [r|] eqn:E; [eauto|discriminate]. }
  destruct t; try congruence; cbn [templates deserialize width] in H;
    unfold deserialize_at in H; fold d o in H.
  - (* SINT *)
    unfold SINT_deserialize in H. cbn [width] in d. fold d o in H.
    destruct (Z.leb_spec (8 * Z.of_nat (length d)) o) as [Hend|Hin].
    + right. injection H as <-. auto.
    + left. apply (Hread 1%nat eq_refl), (Hfmap 1%nat (Buf.readInt 1)); [|exact H].
      intros r. apply Hbind.
  - left. apply (Hread 1%nat eq_refl), (Hfmap 1%nat (Buf.readUInt 1)); [|exact H].
    intros r. apply Hbind.
  - left. apply (Hread 2%nat eq_refl), (Hfmap 2%nat (Buf.readInt 2)); [|exact H].
    intros r. apply Hbind.
  - left. apply (Hread 2%nat eq_refl), (Hfmap 2%nat (Buf.readUInt 2)); [|exact H].
    intros r. apply Hbind.
  - left. apply (Hread 2%nat eq_refl), (Hfmap 2%nat (Buf.readUInt 2)); [|exact H].
    intros r. apply Hbind.
  - left. apply (Hread 4%nat eq_refl), (Hfmap 4%nat (Buf.readInt 4)); [|exact H].
    intros r. apply Hbind.
  - left. apply (Hread 4%nat eq_refl), (Hfmap 4%nat (Buf.readUInt 4)); [|exact H].
    intros r. apply Hbind.
  - (* LINT *)
    left. unfold LINT_deserialize in H. cbn [width] in d. fold d o in H.
    destruct (Buf.readInt 4 d (div8 o)) as [low|] eqn:H1; [|discriminate H].
    cbn [mbind result_bind] in H.
    destruct (Buf.readInt 4 d (plus4 (div8 o))) as [high|] eqn:H2; [|discriminate H].
    apply Hbind in H1. destruct H1 as [b1 H1].
    unfold Buf.readInt in H2.
    destruct (Buf.read_bytes d (plus4 (div8 o)) 4) as [b2|] eqn:H2'; [|discriminate H2].
    apply read_bytes_deserialize_inv in H1. destruct H1 as (Ho & Hm & Hl).
    rewrite (div8_aligned o Ho Hm) in H2'. cbn [plus4 fmap option_fmap option_map] in H2'.
    apply read_bytes_inv in H2'. destruct H2' as (i & [= <-] & _ & Hl2).
    cbn [fits width]. lia.
  - (* REAL *)
    left. unfold REAL_deserialize, readFloatLE in H. cbn [width] in d. fold d o in H.
    apply (Hread 4%nat eq_refl). eapply Hbind. exact H.
  - (* LREAL *)
    left. unfold LINT_deserialize in H. cbn [width] in d. fold d o in H.
    destruct (Buf.readInt 4 d (div8 o)) as [low|] eqn:H1; [|discriminate H].
    cbn [mbind result_bind] in H.
    destruct (Buf.readInt 4 d (plus4 (div8 o))) as [high|] eqn:H2; [|discriminate H].
    apply Hbind in H1. destruct H1 as [b1 H1].
    unfold Buf.readInt in H2.
    destruct (Buf.read_bytes d (plus4 (div8 o)) 4) as [b2|] eqn:H2'; [|discriminate H2].
    apply read_bytes_deserialize_inv in H1. destruct H1 as (Ho & Hm & Hl).
    rewrite (div8_aligned o Ho Hm) in H2'. cbn [plus4 fmap option_fmap option_map] in H2'.
    apply read_bytes_inv in H2'. destruct H2' as (i & [= <-] & _ & Hl2).
    cbn [fits width]. lia.
  - (* TIME *)
    left. unfold TIME_deserialize, readBigUInt64LE in H. cbn [width] in d. fold d o in H.
    destruct (Buf.readUInt 8 d (div8 o)) as [n|] eqn:H1; [|discriminate H].
    apply (Hread 8%nat eq_refl). eapply Hbind. exact H1.
  - (* TIME_NSEC *)
    left. unfold TIME_deserialize, readBigUInt64LE in H. cbn [width] in d. fold d o in H.
    destruct (Buf.readUInt 8 d (div8 o)) as [n|] eqn:H1; [|discriminate H].
    apply (Hread 8%nat eq_refl). eapply Hbind. exact H1.
Qed.

Lemma read_bytes_in (d : Buffer) i n :
  0 <= i -> i + Z.of_nat n <= Z.of_nat (length d) ->
  Buf.read_bytes d (Some i) n = Ok (take n (drop (Z.to_nat i) d)).
Proof.
  intros Hi Hn. unfold Buf.read_bytes.
  rewrite (proj2 (in_bounds_spec d i n)) by tauto. reflexivity.
Qed.

(** X2.  [deserialize] of a template other than BOOL returns exactly when
    the bit offset is a multiple of 8 that is not negative and the field
    lies inside the buffer, with one exception: SINT returns 0 for every
    offset at or past the end of the buffer, aligned or not.  In three
    parts: a call that returns had a fitting field or was that SINT call
    and returned 0; a fitting field makes the call return; SINT at or past
    the end returns 0. *)
Theorem deserialize_needs_field :
  (forall t (data : option Buffer) (offset : option Z) v,
      t <> BOOL ->
      deserialize (templates t) data offset = Ok v ->
      fits t (buffer_of t data) (offset_of offset) \/
      (t = SINT /\ 8 * Z.of_nat (length (buffer_of t data)) <= offset_of offset /\
       v = VInt 0)) /\
  (forall t (data : option Buffer) (offset : option Z),
      t <> BOOL ->
      fits t (buffer_of t data) (offset_of offset) ->
      exists v, deserialize (templates t) data offset = Ok v) /\
  (forall (data : option Buffer) (offset : option Z),
      8 * Z.of_nat (length (buffer_of SINT data)) <= offset_of offset ->
      deserialize (templates SINT) data offset = Ok (VInt 0)).
Proof.
  split; [exact deserialize_inv|]. split.
  - intros t data offset Ht Hfit. unfold buffer_of, offset_of in Hfit.
    set (d := default (Buf.alloc (width t)) data) in *.
    set (o := default 0 offset) in *.
    destruct t; try congruence; cbn [fits width] in Hfit, d;
      destruct Hfit as (Ho & Hm & Hl);
      cbn [templates deserialize];
      unfold deserialize_at, SINT_deserialize, LINT_deserialize, REAL_deserialize,
        TIME_deserialize, readFloatLE, readBigUInt64LE, Buf.readInt, Buf.readUInt;
      fold d o; cbv zeta;
      rewrite ?(div8_aligned o Ho Hm); cbn [plus4 fmap option_fmap option_map];
      try destruct (8 * Z.of_nat (length d) <=? o);
      pose proof (Z.div_pos o 8 Ho ltac:(lia)) as Hq;
      rewrite ?(read_bytes_in d (o / 8)), ?(read_bytes_in d (o / 8 + 4)) by lia;
      eexists; reflexivity.
  - intros data offset Hend. cbn [templates deserialize]. unfold SINT_deserialize.
    unfold buffer_of, offset_of in Hend. cbn [width] in Hend. cbv zeta.
    now rewrite (proj2 (Z.leb_le _ _) Hend).
Qed.

(** X3.  A value of the right kind that is outside the range of its type
    is refused with a RangeError whatever the buffer and the offset: an
    integer is never wrapped around, and this holds for each word of a
    LINT or LREAL and for the count of a TIME or TIME_NSEC. *)
Theorem out_of_range_is_refused t v (data : option Buffer) (offset : option Z) :
  shaped t v -> t <> BOOL -> t <> REAL ->
  ~ in_range t v ->
  serialize (templates t) v data offset = Throw RangeError.
Proof.
  intros Hs Hb Hr Hout.
  destruct t, v; try contradiction; try congruence;
    cbn [templates serialize]; unfold serialize_at.
  1-7: unfold writeInt, writeUInt; cbn [ToNumber mbind result_bind stored_int];
       rewrite check_range_out; [reflexivity|exact Hout].
  1,2: unfold LINT_serialize, writeInt;
       cbn [get_low get_high ToNumber mbind result_bind stored_int];
       cbn [in_range] in Hout;
       change (Buf.imin 4) with (-2147483648); change (Buf.imax 4) with 2147483647;
       destruct (Z.leb_spec (-2147483648) low), (Z.leb_spec low 2147483647);
       try (rewrite (check_range_out _ _ low) by lia; reflexivity);
       rewrite (check_range_out _ _ high) by lia;
       rewrite (check_range_in _ _ low) by lia;
       cbn [mbind result_bind]; unfold Buf.write_bytes;
       destruct (Buf.in_bounds _ _ _); reflexivity.
  1,2: unfold writeBigUInt64LE; change (Buf.umax 8) with 18446744073709551615;
       rewrite check_range_out; [reflexivity|exact Hout].
Qed.

(** X4.  [deserialize] of BOOL returns the bit the offset addresses, bit
    [offset mod 8] of byte [offset / 8], for every bit of the buffer; bit 7
    included, where [readInt8] gives a negative number. *)
Theorem BOOL_deserialize_reads_bit (data : Buffer) offset :
  fits BOOL data offset ->
  deserialize (templates BOOL) (Some data) (Some offset) = Ok (VBool (bit_at data offset)).
Proof.
  cbn [fits templates deserialize]. intros Hf.
  unfold BOOL_deserialize, bit_at. cbn [default from_option id].
  unfold JS.rem. rewrite Z.rem_mod_nonneg by lia.
  set (k := offset mod 8).
  assert (Hk : 0 <= k < 8) by (apply Z.mod_pos_bound; lia).
  assert (Hq : (offset - k) / 8 = offset / 8).
  { subst k. rewrite (Z.div_mod offset 8) at 1 by lia.
    replace (8 * (offset / 8) + offset mod 8 - offset mod 8) with (offset / 8 * 8) by lia.
    apply Z.div_mul. lia. }
  rewrite Hq. set (q := offset / 8).
  assert (Hq0 : 0 <= q < Z.of_nat (length data)).
  { subst q. split; [apply Z.div_pos; lia|]. apply Z.div_lt_upper_bound; lia. }
  destruct (lookup_lt_is_Some_2 data (Z.to_nat q)) as [x Hx]; [lia|].
  pose proof (u8_range x) as Hv.
  unfold Buf.readInt. rewrite (read_byte data q x) by (lia || assumption).
  cbn [mbind result_bind mret result_ret Buf.le_value]. rewrite Z.mul_0_r, Z.add_0_r.
  change (8 * Z.of_nat 1) with 8. rewrite test_bit_spec by lia.
  now rewrite Hx.
Qed.

(** X5.  The integer types are stored little-endian in two's complement:
    after [serialize] of the integer [n], byte [k] of the field holds
    [n / 256^k] modulo 256. *)
Theorem integers_are_little_endian t n (data : option Buffer) (offset : option Z) data' :
  integral t = true ->
  serialize (templates t) (VInt n) data offset = Ok data' ->
  forall k, (k < width t)%nat ->
    data' !! (Z.to_nat (offset_of offset / 8) + k)%nat
    = Some (Buf.byte_of (n / 256 ^ Z.of_nat k)).
Proof.
  intros Hi H k Hk.
  assert (Ht : t <> BOOL) by (intros ->; discriminate Hi).
  destruct (serialize_inv t (VInt n) data offset data' Ht H)
    as (bs & _ & _ & _ & _ & Hbs & Hint & _).
  rewrite Hbs by exact Hk. rewrite (Hint n eq_refl Hi).
  now apply le_bytes_lookup.
Qed.

(** X6.  LINT and LREAL store [low] in the first four bytes of the field
    and [high] in the last four, each little-endian in two's complement. *)
Theorem low_word_comes_first t low high (data : option Buffer) (offset : option Z) data' :
  t = LINT \/ t = LREAL ->
  serialize (templates t) (VLowHigh low high) data offset = Ok data' ->
  forall k, (k < 4)%nat ->
    data' !! (Z.to_nat (offset_of offset / 8) + k)%nat
    = Some (Buf.byte_of (low / 256 ^ Z.of_nat k)) /\
    data' !! (Z.to_nat (offset_of offset / 8) + 4 + k)%nat
    = Some (Buf.byte_of (high / 256 ^ Z.of_nat k)).
Proof.
  intros Ht H k Hk.
  assert (Hb : t <> BOOL) by (destruct Ht; subst t; discriminate).
  destruct (serialize_inv t (VLowHigh low high) data offset data' Hb H)
    as (bs & _ & _ & _ & _ & Hbs & _ & Hwords).
  assert (Hw : width t = 8%nat) by (destruct Ht; subst t; reflexivity).
  rewrite (Hwords low high eq_refl Ht) in Hbs. split.
  - rewrite Hbs by lia. rewrite lookup_app_l by (cbn; lia).
    now apply le_bytes_lookup.
  - rewrite <- Nat.add_assoc, Hbs by lia.
    rewrite lookup_app_r by (cbn; lia). change (length (Buf.le_bytes 4 low)) with 4%nat.
    replace (4 + k - 4)%nat with k by lia. now apply le_bytes_lookup.
Qed.

Lemma read_bytes_of_lookup (d : Buffer) i n bs :
  length bs = n -> 0 <= i -> i + Z.of_nat n <= Z.of_nat (length d) ->
  (forall k, (k < n)%nat -> d !! (Z.to_nat i + k)%nat = bs !! k) ->
  Buf.read_bytes d (Some i) n = Ok bs.
Proof.
  intros Hn Hi Hl Hk. unfold Buf.read_bytes.
  replace (Buf.in_bounds d (Some i) n) with true by (symmetry; apply in_bounds_spec; lia).
  cbn [default from_option id]. f_equal. apply list_eq. intros k.
  destruct (Nat.lt_ge_cases k n) as [Hlt|Hge].
  - rewrite lookup_take_lt by exact Hlt. rewrite lookup_drop. now apply Hk.
  - rewrite lookup_take_ge by exact Hge. symmetry. apply lookup_ge_None. lia.
Qed.

(** The bytes of the field after [serialize], as a read of the field gives
    them. *)
Lemma serialize_field_bytes t v (data : option Buffer) (offset : option Z) data' :
  t <> BOOL ->
  serialize (templates t) v data offset = Ok data' ->
  exists bs,
    Buf.read_bytes data' (div8 (offset_of offset)) (width t) = Ok bs /\
    length data' = length (buffer_of t data) /\
    fits t (buffer_of t data) (offset_of offset) /\
    (forall n, v = VInt n -> integral t = true -> bs = Buf.le_bytes (width t) n).
Proof.
  intros Ht H.
  destruct (serialize_inv t v data offset data' Ht H)
    as (bs & Hlen & Hfit & Hl & _ & Hbs & Hint & _).
  exists bs. repeat split; try assumption.
  destruct (fits_in_bounds t _ _ Ht Hfit) as [Hd Hb]. rewrite Hd.
  apply in_bounds_spec in Hb.
  apply read_bytes_of_lookup; try assumption; lia.
Qed.

(** X7.  A signed type and the unsigned type of its width share their
    bytes: what [serialize] of the signed type wrote for [n] reads back
    through the unsigned one as [n] modulo 2^w, and what the unsigned type
    wrote for [n] reads back through the signed one as [n], less 2^w when
    [n] is 2^(w-1) or more ([w] the width in bits). *)
Theorem same_width_reinterpretation s u n (data : option Buffer) (offset : option Z) data' :
  unsigned_of s = Some u ->
  (in_range s (VInt n) ->
   serialize (templates s) (VInt n) data offset = Ok data' ->
   deserialize (templates u) (Some data') offset
   = Ok (VInt (n mod 2 ^ (8 * Z.of_nat (width s))))) /\
  (in_range u (VInt n) ->
   serialize (templates u) (VInt n) data offset = Ok data' ->
   deserialize (templates s) (Some data') offset
   = Ok (VInt (if n <? 2 ^ (8 * Z.of_nat (width s) - 1) then n
               else n - 2 ^ (8 * Z.of_nat (width s))))).
Proof.
  intros Hu.
  assert (Hread : forall t, t <> BOOL -> integral t = true ->
             serialize (templates t) (VInt n) data offset = Ok data' ->
             Buf.read_bytes data' (div8 (default 0 offset)) (width t)
             = Ok (Buf.le_bytes (width t) n) /\
             default 0 offset < 8 * Z.of_nat (length data')).
  { intros t Ht Hi H.
    destruct (serialize_field_bytes t (VInt n) data offset data' Ht H)
      as (bs & Hr & Hl & Hfit & Hint).
    rewrite (Hint n eq_refl Hi) in Hr. split; [exact Hr|].
    rewrite Hl. unfold offset_of in Hfit.
    assert (Hf : 0 <= default 0 offset /\ default 0 offset mod 8 = 0 /\
                 default 0 offset / 8 + Z.of_nat (width t)
                 <= Z.of_nat (length (buffer_of t data)))
      by (destruct t; try exact Hfit; congruence).
    destruct Hf as (Ho & Hm & Hlen).
    assert (0 < width t)%nat by (destruct t; cbn; lia).
    pose proof (Z.div_mod (default 0 offset) 8 ltac:(lia)). lia. }
  destruct s; try discriminate Hu; injection Hu as <-; split; intros Hn H.
  - (* SINT written, USINT read *)
    destruct (Hread SINT ltac:(discriminate) eq_refl H) as [Hr _].
    cbn [templates deserialize]. unfold deserialize_at, Buf.readUInt.
    cbn [width] in Hr. cbn [default from_option id]. rewrite Hr.
    cbn [mbind result_bind mret result_ret fmap result_fmap].
    now rewrite le_value_le_bytes.
  - (* USINT written, SINT read *)
    destruct (Hread USINT ltac:(discriminate) eq_refl H) as [Hr Hlt].
    cbn [templates deserialize]. unfold SINT_deserialize, Buf.readInt.
    cbn [width] in Hr. cbn [default from_option id].
    destruct (Z.leb_spec (8 * Z.of_nat (length data')) (default 0 offset)); [lia|].
    rewrite Hr. cbn [mbind result_bind mret result_ret fmap result_fmap].
    rewrite le_value_le_bytes. cbn [in_range] in Hn.
    unfold Buf.signed. cbn [width].
    rewrite Z.mod_small by (change (2 ^ (8 * Z.of_nat 1)) with 256; lia).
    reflexivity.
  - (* INT written, UINT read *)
    destruct (Hread INT ltac:(discriminate) eq_refl H) as [Hr _].
    cbn [templates deserialize]. unfold deserialize_at, Buf.readUInt.
    cbn [width] in Hr. cbn [default from_option id]. rewrite Hr.
    cbn [mbind result_bind mret result_ret fmap result_fmap].
    now rewrite le_value_le_bytes.
  - (* UINT written, INT read *)
    destruct (Hread UINT ltac:(discriminate) eq_refl H) as [Hr Hlt].
    cbn [templates deserialize]. unfold deserialize_at, Buf.readInt.
    cbn [width] in Hr. cbn [default from_option id].
    rewrite Hr. cbn [mbind result_bind mret result_ret fmap result_fmap].
    rewrite le_value_le_bytes. cbn [in_range] in Hn.
    unfold Buf.signed. cbn [width].
    rewrite Z.mod_small by (change (2 ^ (8 * Z.of_nat 2)) with 65536; lia).
    reflexivity.
  - (* DINT written, UDINT read *)
    destruct (Hread DINT ltac:(discriminate) eq_refl H) as [Hr _].
    cbn [templates deserialize]. unfold deserialize_at, Buf.readUInt.
    cbn [width] in Hr. cbn [default from_option id]. rewrite Hr.
    cbn [mbind result_bind mret result_ret fmap result_fmap].
    now rewrite le_value_le_bytes.
  - (* UDINT written, DINT read *)
    destruct (Hread UDINT ltac:(discriminate) eq_refl H) as [Hr Hlt].
    cbn [templates deserialize]. unfold deserialize_at, Buf.readInt.
    cbn [width] in Hr. cbn [default from_option id].
    rewrite Hr. cbn [mbind result_bind mret result_ret fmap result_fmap].
    rewrite le_value_le_bytes. cbn [in_range] in Hn.
    unfold Buf.signed. cbn [width].
    rewrite Z.mod_small by (change (2 ^ (8 * Z.of_nat 4)) with 4294967296; lia).
    reflexivity.
Qed.

Lemma read_bytes_frame_uint (d1 d2 : Buffer) i n :
  length d1 = length d2 ->
  (forall k, (Z.to_nat i <= k < Z.to_nat i + n)%nat -> d1 !! k = d2 !! k) ->
  Buf.readUInt n d1 (Some i) = Buf.readUInt n d2 (Some i).
Proof.
  intros Hl Hk. unfold Buf.readUInt. now rewrite (read_bytes_frame d1 d2 i n).
Qed.

(** What [deserialize] returns depends on the bytes of the field and on
    the length of the buffer only. *)
Lemma deserialize_frame t (d d' : Buffer) offset :
  t <> BOOL -> fits t d offset ->
  length d = length d' ->
  (forall k, (Z.to_nat (offset / 8) <= k < Z.to_nat (offset / 8) + width t)%nat ->
             d !! k = d' !! k) ->
  deserialize (templates t) (Some d) (Some offset)
  = deserialize (templates t) (Some d') (Some offset).
Proof.
  intros Ht Hfit Hl Hk.
  destruct (fits_in_bounds t d offset Ht Hfit) as [Hd Hb].
  apply in_bounds_spec in Hb. destruct Hb as [Hi Hb].
  destruct t; try congruence; cbn [templates deserialize width] in *;
    unfold deserialize_at, SINT_deserialize, LINT_deserialize, REAL_deserialize,
      TIME_deserialize, readFloatLE, readBigUInt64LE;
    cbn [default from_option id]; rewrite Hd, <- ?Hl;
    cbn [plus4 fmap option_fmap option_map];
    try rewrite (read_bytes_frame_int d d' (offset / 8) _ Hl Hk);
    try rewrite (read_bytes_frame_uint d d' (offset / 8) _ Hl Hk);
    try rewrite (read_bytes_frame d d' (offset / 8) _ Hl Hk);
    try reflexivity.
  all: rewrite (read_bytes_frame_int d d' (offset / 8) 4 Hl) by (intros; apply Hk; lia);
       rewrite (read_bytes_frame_int d d' (offset / 8 + 4) 4 Hl) by (intros; apply Hk; lia);
       reflexivity.
Qed.

(** X8.  Fields that do not overlap are independent: after [serialize]
    wrote one field, [deserialize] of any field that shares no byte with
    it returns what it returned before (templates other than BOOL). *)
Theorem disjoint_fields_are_independent t1 t2 v2 (d1 d2 : Buffer) (o1 o2 : Z) :
  t1 <> BOOL -> t2 <> BOOL ->
  fits t1 d1 o1 ->
  serialize (templates t2) v2 (Some d1) (Some o2) = Ok d2 ->
  o1 / 8 + Z.of_nat (width t1) <= o2 / 8 \/ o2 / 8 + Z.of_nat (width t2) <= o1 / 8 ->
  deserialize (templates t1) (Some d2) (Some o1)
  = deserialize (templates t1) (Some d1) (Some o1).
Proof.
  intros H1 H2 Hfit Hs Hdis.
  destruct (serialize_inv t2 v2 (Some d1) (Some o2) d2 H2 Hs)
    as (bs & _ & Hfit2 & Hl & Hout & _).
  unfold buffer_of, offset_of in *. cbn [default from_option id] in *.
  symmetry. apply deserialize_frame; try assumption; [now symmetry|].
  intros k Hk. symmetry. apply Hout.
  assert (0 <= o1 / 8).
  { destruct (fits_in_bounds t1 d1 o1 H1 Hfit) as [_ Hb].
    apply in_bounds_spec in Hb. lia. }
  assert (0 <= o2 / 8).
  { destruct (fits_in_bounds t2 d1 o2 H2 Hfit2) as [_ Hb].
    apply in_bounds_spec in Hb. lia. }
  lia.
Qed.

(** Two buffers of the same length with the same bits are the same. *)
Lemma bits_ext (d1 d2 : Buffer) :
  length d1 = length d2 ->
  (forall j, 0 <= j -> bit_at d1 j = bit_at d2 j) -> d1 = d2.
Proof.
  intros Hl Hbits. apply list_eq. intros k.
  destruct (d1 !! k) as [x|] eqn:H1.
  - destruct (lookup_lt_is_Some_2 d2 k) as [y H2].
    { rewrite <- Hl. now apply lookup_lt_Some in H1. }
    rewrite H2. f_equal. rewrite <- (byte_of_u8 x), <- (byte_of_u8 y). f_equal.
    pose proof (u8_range x) as Hx. pose proof (u8_range y) as Hy.
    apply Z.bits_inj'. intros n Hn.
    destruct (Z.lt_ge_cases n 8) as [Hlt|Hge].
    + specialize (Hbits (8 * Z.of_nat k + n) ltac:(lia)). unfold bit_at in Hbits.
      replace ((8 * Z.of_nat k + n) / 8) with (Z.of_nat k) in Hbits
        by (apply (Z.div_unique_pos _ 8 (Z.of_nat k) n); lia).
      replace ((8 * Z.of_nat k + n) mod 8) with n in Hbits
        by (apply (Z.mod_unique_pos _ 8 (Z.of_nat k) n); lia).
      now rewrite Nat2Z.id, H1, H2 in Hbits.
    + now rewrite !byte_high_bits by lia.
  - symmetry. apply lookup_ge_None. rewrite <- Hl. now apply lookup_ge_None.
Qed.

(** X9.  Packed booleans can be written in any order: two BOOL writes to
    different bits of a buffer give the same buffer whichever comes first,
    and of two writes to the same bit the second one stands. *)
Theorem BOOL_writes_commute (b1 b2 : bool) (data : Buffer) (o1 o2 : Z) :
  fits BOOL data o1 -> fits BOOL data o2 ->
  exists d1 d2 d12,
    serialize (templates BOOL) (VBool b1) (Some data) (Some o1) = Ok d1 /\
    serialize (templates BOOL) (VBool b2) (Some data) (Some o2) = Ok d2 /\
    serialize (templates BOOL) (VBool b2) (Some d1) (Some o2) = Ok d12 /\
    (o1 <> o2 -> serialize (templates BOOL) (VBool b1) (Some d2) (Some o1) = Ok d12) /\
    (o1 = o2 -> d12 = d2).
Proof.
  cbn [templates serialize]. intros H1 H2.
  destruct (BOOL_roundtrip b1 data o1 H1) as (d1 & Hs1 & Hl1 & _ & Hb1).
  destruct (BOOL_roundtrip b2 data o2 H2) as (d2 & Hs2 & Hl2 & _ & Hb2).
  assert (H2' : fits BOOL d1 o2) by (cbn [fits] in *; lia).
  assert (H1' : fits BOOL d2 o1) by (cbn [fits] in *; lia).
  destruct (BOOL_roundtrip b2 d1 o2 H2') as (d12 & Hs12 & Hl12 & _ & Hb12).
  destruct (BOOL_roundtrip b1 d2 o1 H1') as (d21 & Hs21 & Hl21 & _ & Hb21).
  exists d1, d2, d12. repeat split; try assumption.
  - intros Hne. rewrite Hs21. f_equal. apply bits_ext; [lia|].
    intros j Hj. rewrite Hb21, Hb12, Hb1, Hb2 by lia.
    destruct (Z.eqb_spec j o1), (Z.eqb_spec j o2); try reflexivity. congruence.
  - intros ->. apply bits_ext; [lia|].
    intros j Hj. rewrite Hb12, Hb1, Hb2 by lia.
    destruct (Z.eqb_spec j o2); reflexivity.
Qed.

End AtomicsFields.

(** ** The tag's values *)

Section TagValues.

Import Tag TagSpec.

Local Open Scope string_scope.
Local Open Scope Z_scope.

Lemma State_eta (st : State) :
  st = {| tag := {| bitIndex := bitIndex (tag st); program := program (tag st);
                    name := name (tag st); type := type (tag st);
                    value := value (tag st); controller := controller (tag st);
                    controllerValue := controllerValue (tag st);
                    path := path (tag st); stage_write := stage_write (tag st) |};
          read_size := read_size st; error := error st; timestamp := timestamp st;
          instance := instance st; keepAlive := keepAlive st |}.
Proof. destruct st as [[] ? ? ? ? ?]. reflexivity. Qed.

(** The state after a read that stores [v] at time [now]. *)
Lemma set_controller_value_cases now v st :
  set_controller_value now v st = (st, []) \/
  exists e,
    snd (set_controller_value now v st) = [e] /\
    fst (set_controller_value now v st)
    = with_timestamp now
        (if stage_write (tag st) then set_tag (with_controllerValue v) st
         else set_tag (with_value v) (set_tag (with_controllerValue v) st)).
Proof.
  unfold set_controller_value.
  destruct (negb (String.eqb _ _)).
  - right. cbv zeta. cbn [set_tag tag stage_write with_controllerValue].
    destruct (controllerValue (tag st)); eexists; split; try reflexivity;
      cbn [fst]; destruct (stage_write (tag st)); reflexivity.
  - destruct (0 <? keepAlive st); [|now left].
    destruct (keepAlive st * 1000 <=? now - timestamp st); [|now left].
    right. cbv zeta. cbn [set_tag tag stage_write with_controllerValue].
    eexists; split; [reflexivity|].
    cbn [fst]; destruct (stage_write (tag st)); reflexivity.
Qed.

Lemma set_controller_value_identity now v st :
  same_identity st (fst (set_controller_value now v st)) /\
  stage_write (tag (fst (set_controller_value now v st))) = stage_write (tag st).
Proof.
  destruct (set_controller_value_cases now v st) as [->|(e & _ & ->)].
  - unfold same_identity. repeat split; reflexivity.
  - unfold same_identity. destruct (stage_write (tag st)) eqn:Hs; cbn;
      rewrite ?Hs; repeat split; reflexivity.
Qed.

(** X10.  A read emits at most one event.  When it emits none the tag is
    left exactly as it was.  When it emits one, the controller value is the
    value read, the timestamp is the time of the read, and the local value
    is the value read unless a write is staged, in which case it is kept;
    name, program, bit index, path, type, controller, read size, error,
    instance id, keep-alive and the staging flag never change. *)
Theorem read_emits_at_most_one_event (st : State) (now : Z) (v : Json.Value) :
  set_controller_value now v st = (st, []) \/
  exists e,
    snd (set_controller_value now v st) = [e] /\
    get_controller_value (fst (set_controller_value now v st)) = v /\
    timestamp (fst (set_controller_value now v st)) = now /\
    get_value (fst (set_controller_value now v st))
    = (if get_write_ready st then get_value st else v) /\
    get_write_ready (fst (set_controller_value now v st)) = get_write_ready st /\
    same_identity st (fst (set_controller_value now v st)).
Proof.
  destruct (set_controller_value_cases now v st) as [H|(e & He & Hst)]; [now left|].
  right. exists e. rewrite Hst. split; [exact He|].
  unfold get_controller_value, get_value, get_write_ready, same_identity.
  destruct (stage_write (tag st)) eqn:Hs; cbn; rewrite ?Hs; repeat split; reflexivity.
Qed.

(** X11.  Reading the same value again at the same instant emits nothing
    and leaves the tag as the first read left it. *)
Theorem repeated_read_is_silent (st : State) (now : Z) (v : Json.Value) :
  set_controller_value now v (fst (set_controller_value now v st))
  = (fst (set_controller_value now v st), []).
Proof.
  destruct (set_controller_value_cases now v st) as [H|(e & He & Hst)].
  - rewrite H. cbn [fst]. exact H.
  - rewrite Hst. unfold set_controller_value at 1.
    assert (Hcv : controllerValue
                    (tag (with_timestamp now
                            (if stage_write (tag st)
                             then set_tag (with_controllerValue v) st
                             else set_tag (with_value v)
                                    (set_tag (with_controllerValue v) st)))) = v)
      by (destruct (stage_write (tag st)); reflexivity).
    rewrite Hcv, String.eqb_refl. cbn [negb].
    assert (Hts : forall s, timestamp (with_timestamp now s) = now) by reflexivity.
    rewrite Hts, Z.sub_diag.
    destruct (Z.ltb_spec 0 (keepAlive (with_timestamp now
                (if stage_write (tag st) then set_tag (with_controllerValue v) st
                 else set_tag (with_value v) (set_tag (with_controllerValue v) st)))))
      as [Hk|Hk]; [|reflexivity].
    destruct (Z.leb_spec (keepAlive (with_timestamp now
                (if stage_write (tag st) then set_tag (with_controllerValue v) st
                 else set_tag (with_value v) (set_tag (with_controllerValue v) st))) * 1000) 0);
      [lia|reflexivity].
Qed.

(** X12.  Discarding a local edit: on a tag with no staged write whose
    local value is its controller value, [set value] followed by
    [unstageWriteRequest] gives back the tag as it was; and
    [unstageWriteRequest] twice is the same as once. *)
Theorem unstage_discards_the_edit (st : State) (v : Json.Value) :
  (get_write_ready st = false -> mirrors st ->
   unstageWriteRequest (set_value v st) = st) /\
  unstageWriteRequest (unstageWriteRequest st) = unstageWriteRequest st.
Proof.
  split; [|reflexivity].
  unfold get_write_ready, mirrors. intros Hs Hm.
  rewrite (State_eta st) at 2. rewrite Hs, (Hm Hs). reflexivity.
Qed.

(** X13.  Keep-alive counts from the last event.  After a read at [t1]
    that emitted an event, a read at [t2] of a value with the same JSON
    text emits [KeepAlive] when the keep-alive is positive and at least
    that many seconds have passed since [t1], and otherwise emits nothing
    and leaves the tag as it was. *)
Theorem keep_alive_counts_from_last_event (st : State) (t1 t2 : Z) (v1 v2 : Json.Value) :
  snd (set_controller_value t1 v1 st) <> [] ->
  Json.stringify v2 = Json.stringify v1 ->
  let st1 := fst (set_controller_value t1 v1 st) in
  if (0 <? keepAlive st) && (keepAlive st * 1000 <=? t2 - t1)
  then snd (set_controller_value t2 v2 st1) = [KeepAlive] /\
       timestamp (fst (set_controller_value t2 v2 st1)) = t2
  else set_controller_value t2 v2 st1 = (st1, []).
Proof.
  intros Hev Htext st1.
  destruct (set_controller_value_cases t1 v1 st) as [H|(e & He & Hst)];
    [rewrite H in Hev; contradiction|].
  assert (Hcv : controllerValue (tag st1) = v1).
  { subst st1. rewrite Hst. destruct (stage_write (tag st)); reflexivity. }
  assert (Hts : timestamp st1 = t1) by (subst st1; now rewrite Hst).
  assert (Hka : keepAlive st1 = keepAlive st).
  { subst st1. rewrite Hst. destruct (stage_write (tag st)); reflexivity. }
  clearbody st1. unfold set_controller_value.
  rewrite Hcv, Htext, String.eqb_refl, Hts, Hka. cbn [negb].
  destruct (0 <? keepAlive st); cbn [andb]; [|reflexivity].
  destruct (keepAlive st * 1000 <=? t2 - t1); [|reflexivity].
  cbv zeta. split; reflexivity.
Qed.

End TagValues.

(** ** Requests *)

Section RequestFacts.

Import Tag TagSpec.

Local Open Scope string_scope.
Local Open Scope Z_scope.

Variable env : Env.

Ltac each_bit b :=
  let n := fresh "n" in
  let Hn := fresh "Hn" in
  assert (exists n, b = Z.of_nat n /\ (n < 32)%nat) as (n & -> & Hn)
    by (exists (Z.to_nat b); lia);
  do 32 (destruct n as [|n]; [try lia; try (vm_compute; reflexivity)|]);
  lia.

Lemma SINT_masks (t : bool) b :
  0 <= b <= 31 ->
  (buf ← Buf.writeInt 2 1 (Some 0) (Buf.alloc 4);
   buf ← Buf.writeUInt 1 (if t then JS.shl 1 b else 0) (Some 2) buf;
   Buf.writeUInt 1 (if t then 255 else JS.and 255 (JS.not (JS.shl 1 b))) (Some 3) buf)
  = if t && (8 <=? b) then Throw RangeError
    else Ok (Buf.le_bytes 2 1 ++ Buf.le_bytes 1 (if t then 2 ^ b else 0)
               ++ Buf.le_bytes 1 (if t then 255
                                  else if b <? 8 then 255 - 2 ^ b else 255))%list.
Proof. intros Hb. destruct t; each_bit b. Qed.

Lemma INT_masks (t : bool) b :
  0 <= b <= 31 ->
  (buf ← Buf.writeInt 2 2 (Some 0) (Buf.alloc 6);
   buf ← Buf.writeUInt 2 (if t then JS.shl 1 b else 0) (Some 2) buf;
   Buf.writeUInt 2 (if t then 65535 else JS.and 65535 (JS.not (JS.shl 1 b))) (Some 4) buf)
  = if t && (16 <=? b) then Throw RangeError
    else Ok (Buf.le_bytes 2 2 ++ Buf.le_bytes 2 (if t then 2 ^ b else 0)
               ++ Buf.le_bytes 2 (if t then 65535
                                  else if b <? 16 then 65535 - 2 ^ b else 65535))%list.
Proof. intros Hb. destruct t; each_bit b. Qed.

Lemma DINT_masks (t : bool) b :
  0 <= b <= 31 ->
  (buf ← Buf.writeInt 2 4 (Some 0) (Buf.alloc 10);
   buf ← Buf.writeInt 4 (if t then JS.shl 1 b else 0) (Some 2) buf;
   Buf.writeInt 4 (if t then -1 else JS.and (-1) (JS.not (JS.shl 1 b))) (Some 6) buf)
  = Ok (Buf.le_bytes 2 4 ++ Buf.le_bytes 4 (if t then 2 ^ b else 0)
          ++ Buf.le_bytes 4 (if t then 4294967295 else 4294967295 - 2 ^ b))%list.
Proof. intros Hb. destruct t; each_bit b. Qed.

(** [generateWriteMessageRequest] first stores the value, then works on the
    tag it stored it in. *)
Lemma generateWrite_written v size st :
  generateWriteMessageRequest env v size st
  = generateWriteMessageRequest env Json.Null size (written v st).
Proof. destruct v; reflexivity. Qed.

Lemma generateWrite_state size st msg st' :
  generateWriteMessageRequest env Json.Null size st = Ok (msg, st') -> st' = st.
Proof.
  unfold generateWriteMessageRequest.
  assert (Hb : forall (r : result Buffer) (f : Buffer -> Buffer),
             (buf ← r; mret (f buf, st)) = Ok (msg, st') -> st' = st).
  { intros [buf|e] f; cbn; [|discriminate]. now intros [= _ <-]. }
  destruct (type (tag st)); [discriminate|..];
    (destruct (bitIndex (tag st)); [apply Hb|]);
    (destruct (getTemplate st) as [template|]; [|discriminate]);
    cbn [mbind result_bind];
    match goal with
    | |- context [mbind _ ?r] =>
        match r with
        | mbind _ _ => destruct r as [buf|]; [|discriminate]
        end
    end;
    cbn [mbind result_bind];
    (destruct (serialize template (value (tag st))); [|discriminate]);
    cbn; now intros [= _ <-].
Qed.

(** The request for a bit-indexed tag, once the value is stored. *)
Lemma generateWrite_bit size st b w :
  bitIndex (tag st) = Some b -> 0 <= b <= 31 ->
  mask_bytes env (type (tag st)) = Some w ->
  let t := Json.truthy (value (tag st)) in
  let all := 2 ^ (8 * Z.of_nat w) - 1 in
  generateWriteMessageRequest env Json.Null size st
  = if t && (8 * Z.of_nat w <=? b) then Throw RangeError
    else Ok (MessageRouter_build env READ_MODIFY_WRITE_TAG (path (tag st))
               (Buf.le_bytes 2 (Z.of_nat w) ++ Buf.le_bytes w (if t then 2 ^ b else 0)
                  ++ Buf.le_bytes w (if t then all
                                     else if b <? 8 * Z.of_nat w then all - 2 ^ b
                                          else all))%list,
             st).
Proof.
  intros Hbit Hb Hw t all. subst t all.
  unfold generateWriteMessageRequest. cbv zeta. rewrite Hbit.
  destruct (type (tag st)) as [|code|name]; try discriminate Hw.
  cbn [mask_bytes] in Hw.
  destruct (Z.eqb_spec code (SINT env)) as [Hs|Hs].
  { injection Hw as <-.
    rewrite bool_decide_eq_true_2 by congruence.
    rewrite (SINT_masks _ b Hb). change (8 * Z.of_nat 1) with 8.
    change (2 ^ 8 - 1) with 255.
    destruct (Json.truthy (value (tag st)) && (8 <=? b)); reflexivity. }
  rewrite bool_decide_eq_false_2 by congruence.
  destruct (Z.eqb_spec code (INT env)) as [Hi|Hi].
  { injection Hw as <-.
    rewrite bool_decide_eq_true_2 by congruence.
    rewrite (INT_masks _ b Hb). change (8 * Z.of_nat 2) with 16.
    change (2 ^ 16 - 1) with 65535.
    destruct (Json.truthy (value (tag st)) && (16 <=? b)); reflexivity. }
  rewrite bool_decide_eq_false_2 by congruence.
  destruct ((code =? DINT env) || (code =? BIT_STRING env)) eqn:Hd; [|discriminate Hw].
  injection Hw as <-.
  replace (bool_decide (Some code = Some (DINT env))
           || bool_decide (Some code = Some (BIT_STRING env))) with true.
  2:{ symmetry. apply orb_true_iff in Hd. apply orb_true_iff.
      destruct Hd as [Hd|Hd]; apply Z.eqb_eq in Hd; [left|right];
        apply bool_decide_eq_true_2; congruence. }
  rewrite (DINT_masks _ b Hb). change (8 * Z.of_nat 4) with 32.
  change (2 ^ 32 - 1) with 4294967295.
  destruct (Z.leb_spec 32 b); [lia|]. rewrite andb_false_r.
  destruct (Z.ltb_spec b 32); [|lia].
  reflexivity.
Qed.

(** X14.  A bit write on a bit inside the type's width (8 bits for SINT,
    16 for INT, 32 for DINT and BIT_STRING) sends the width in bytes as a
    16-bit little-endian length, then the OR mask and the AND mask, each
    little-endian over the width: to set the bit, the OR mask holds that
    bit alone and the AND mask every bit; to clear it, the OR mask is zero
    and the AND mask holds every bit but that one.  The value written is
    the argument, or the tag's value when the argument is null. *)
Theorem bit_write_sets_one_bit (v : Json.Value) (size : Z) (st : State) (b : Z) (w : nat) :
  bitIndex (tag st) = Some b ->
  mask_bytes env (type (tag st)) = Some w ->
  0 <= b < 8 * Z.of_nat w ->
  let t := Json.truthy (get_value (written v st)) in
  let all := 2 ^ (8 * Z.of_nat w) - 1 in
  generateWriteMessageRequest env v size st
  = Ok (MessageRouter_build env READ_MODIFY_WRITE_TAG (get_path st)
          (Buf.le_bytes 2 (Z.of_nat w) ++ Buf.le_bytes w (if t then 2 ^ b else 0)
             ++ Buf.le_bytes w (if t then all else all - 2 ^ b))%list,
        written v st).
Proof.
  intros Hbit Hw Hb t all. subst t all.
  assert (Hw4 : (w <= 4)%nat).
  { destruct (type (tag st)) as [|code|]; try discriminate Hw. cbn in Hw.
    repeat match type of Hw with
           | (if ?c then _ else _) = _ => destruct c
           end; try discriminate Hw; injection Hw as <-; lia. }
  rewrite generateWrite_written.
  assert (Hbit' : bitIndex (tag (written v st)) = Some b) by (destruct v; exact Hbit).
  assert (Hw' : mask_bytes env (type (tag (written v st))) = Some w)
    by (destruct v; exact Hw).
  rewrite (generateWrite_bit size (written v st) b w Hbit' ltac:(lia) Hw').
  cbv zeta. unfold get_value, get_path.
  destruct (Z.leb_spec (8 * Z.of_nat w) b); [lia|]. rewrite andb_false_r.
  destruct (Z.ltb_spec b (8 * Z.of_nat w)); [|lia].
  destruct v; reflexivity.
Qed.

(** X15.  A bit write on a bit index past the type's width, which the
    constructor accepts up to 31 for any type: for SINT with a bit index of
    8 or more and for INT with one of 16 or more, setting the bit throws a
    RangeError, and clearing it sends masks that change nothing (OR mask
    zero, AND mask all ones). *)
Theorem bit_write_beyond_width (v : Json.Value) (size : Z) (st : State) (b : Z) (w : nat) :
  bitIndex (tag st) = Some b ->
  mask_bytes env (type (tag st)) = Some w ->
  8 * Z.of_nat w <= b <= 31 ->
  generateWriteMessageRequest env v size st
  = if Json.truthy (get_value (written v st)) then Throw RangeError
    else Ok (MessageRouter_build env READ_MODIFY_WRITE_TAG (get_path st)
               (Buf.le_bytes 2 (Z.of_nat w) ++ Buf.le_bytes w 0
                  ++ Buf.le_bytes w (2 ^ (8 * Z.of_nat w) - 1))%list,
             written v st).
Proof.
  intros Hbit Hw Hb.
  rewrite generateWrite_written.
  assert (Hbit' : bitIndex (tag (written v st)) = Some b) by (destruct v; exact Hbit).
  assert (Hw' : mask_bytes env (type (tag (written v st))) = Some w)
    by (destruct v; exact Hw).
  rewrite (generateWrite_bit size (written v st) b w Hbit' ltac:(lia) Hw').
  cbv zeta. unfold get_value, get_path.
  destruct (Z.leb_spec (8 * Z.of_nat w) b); [|lia]. rewrite andb_true_r.
  destruct (Z.ltb_spec b (8 * Z.of_nat w)); [lia|].
  destruct (Json.truthy (value (tag (written v st)))); [reflexivity|].
  destruct v; reflexivity.
Qed.

(** X16.  [generateWriteMessageRequest] with a value stores it as the
    local value without staging it: the staging flag and the controller
    value are as before, nothing else of the tag changes, and asking again
    without a value gives the same request. *)
Theorem write_request_does_not_stage (v : Json.Value) (size : Z) (st : State) msg st' :
  generateWriteMessageRequest env v size st = Ok (msg, st') ->
  st' = written v st /\
  get_value st' = match v with Json.Null => get_value st | _ => v end /\
  get_write_ready st' = get_write_ready st /\
  get_controller_value st' = get_controller_value st /\
  timestamp st' = timestamp st /\
  same_identity st st' /\
  generateWriteMessageRequest env Json.Null size st' = Ok (msg, st').
Proof.
  intros H. rewrite generateWrite_written in H.
  pose proof (generateWrite_state _ _ _ _ H) as ->.
  split; [reflexivity|]. unfold same_identity.
  destruct v; cbn; repeat split; try reflexivity; exact H.
Qed.

(** X17.  What [generateWriteMessageRequest] refuses: a tag whose type is
    null; a bit-indexed tag whose type is none of SINT, INT, DINT and
    BIT_STRING, a structure name included; and, without a bit index, a tag
    that has no controller. *)
Theorem write_request_errors (v : Json.Value) (size : Z) (st : State) :
  (type (tag st) = TypeNull ->
   generateWriteMessageRequest env v size st
   = Throw (Error "Tag has not been initialized. Try reading the tag from the controller first or manually providing a valid CIP datatype.")) /\
  (forall b,
      type (tag st) <> TypeNull -> bitIndex (tag st) = Some b ->
      mask_bytes env (type (tag st)) = None ->
      generateWriteMessageRequest env v size st
      = Throw (Error "Bit Indexes can only be used on SINT, INT, DINT, or BIT_STRING data types.")) /\
  (type (tag st) <> TypeNull -> bitIndex (tag st) = None ->
   controller (tag st) = None ->
   generateWriteMessageRequest env v size st
   = Throw (Error "Template read error - tag controller property not set")).
Proof.
  rewrite generateWrite_written.
  assert (Hty : type (tag (written v st)) = type (tag st)) by (destruct v; reflexivity).
  assert (Hbi : bitIndex (tag (written v st)) = bitIndex (tag st)) by (destruct v; reflexivity).
  assert (Hco : controller (tag (written v st)) = controller (tag st))
    by (destruct v; reflexivity).
  unfold generateWriteMessageRequest. cbv zeta. rewrite Hty, Hbi.
  split; [|split].
  - intros ->. reflexivity.
  - intros b Hn -> Hw.
    destruct (type (tag st)) as [|code|name]; [contradiction| |reflexivity].
    cbn [mask_bytes] in Hw.
    destruct (Z.eqb_spec code (SINT env)); [discriminate Hw|].
    destruct (Z.eqb_spec code (INT env)); [discriminate Hw|].
    destruct (Z.eqb_spec code (DINT env)); [discriminate Hw|].
    destruct (Z.eqb_spec code (BIT_STRING env)); [discriminate Hw|].
    rewrite !bool_decide_eq_false_2 by congruence. reflexivity.
  - intros Hn -> Hc. unfold getTemplate. rewrite Hco, Hc.
    destruct (type (tag st)); [contradiction|reflexivity..].
Qed.

Lemma header_4 a b :
  0 <= a <= 65535 -> 0 <= b <= 65535 ->
  (buf ← Buf.writeUInt 2 a (Some 0) (Buf.alloc 4); Buf.writeUInt 2 b (Some 2) buf)
  = Ok (Buf.le_bytes 2 a ++ Buf.le_bytes 2 b)%list.
Proof.
  intros Ha Hb. unfold Buf.writeUInt. change (Buf.umax 2) with 65535.
  rewrite !check_range_in by assumption. reflexivity.
Qed.

Lemma header_6 a b c :
  0 <= a <= 65535 -> 0 <= b <= 65535 -> 0 <= c <= 65535 ->
  (buf ← Buf.writeUInt 2 a (Some 0) (Buf.alloc 6);
   buf ← Buf.writeUInt 2 b (Some 2) buf; Buf.writeUInt 2 c (Some 4) buf)
  = Ok (Buf.le_bytes 2 a ++ Buf.le_bytes 2 b ++ Buf.le_bytes 2 c)%list.
Proof.
  intros Ha Hb Hc. unfold Buf.writeUInt. change (Buf.umax 2) with 65535.
  rewrite !check_range_in by assumption. reflexivity.
Qed.

(** The request for a tag typed by a structure name. *)
Lemma generateWrite_struct (v : Json.Value) (size : Z) (st : State) template body name :
  bitIndex (tag st) = None ->
  getTemplate st = Ok template ->
  serialize template (get_value (written v st)) = Ok body ->
  0 <= size <= 65535 ->
  type (tag st) = TypeName name ->
  0 <= STRUCT env <= 65535 -> 0 <= structure_handle template <= 65535 ->
  generateWriteMessageRequest env v size st
  = Ok (MessageRouter_build env WRITE_TAG (get_path st)
          (Buf.le_bytes 2 (STRUCT env) ++ Buf.le_bytes 2 (structure_handle template)
             ++ Buf.le_bytes 2 size ++ body)%list,
        written v st).
Proof.
  intros Hbit Ht Hbody Hsize Hty Hs Hh.
  rewrite generateWrite_written.
  assert (Hty' : type (tag (written v st)) = TypeName name) by (destruct v; exact Hty).
  assert (Hbi : bitIndex (tag (written v st)) = None) by (destruct v; exact Hbit).
  assert (Hpa : path (tag (written v st)) = path (tag st)) by (destruct v; reflexivity).
  assert (Ht' : getTemplate (written v st) = Ok template) by (destruct v; exact Ht).
  unfold generateWriteMessageRequest. cbv zeta. rewrite Hty', Hbi, Ht', Hpa.
  unfold get_value in Hbody. unfold get_path.
  cbn [mbind result_bind].
  rewrite (header_6 _ _ size Hs Hh Hsize). cbn [mbind result_bind].
  rewrite Hbody. cbn. rewrite <- ?app_assoc. reflexivity.
Qed.

(** X18.  A write without a bit index sends a header and then what the
    type's template serializes the value to: for a type code, the code and
    the element count, each a 16-bit little-endian word; for a structure
    name, the STRUCT code, the template's structure handle and the element
    count. *)
Theorem template_write_layout (v : Json.Value) (size : Z) (st : State) template body :
  bitIndex (tag st) = None ->
  getTemplate st = Ok template ->
  serialize template (get_value (written v st)) = Ok body ->
  0 <= size <= 65535 ->
  (forall code,
      type (tag st) = TypeCode code -> 0 <= code <= 65535 ->
      generateWriteMessageRequest env v size st
      = Ok (MessageRouter_build env WRITE_TAG (get_path st)
              (Buf.le_bytes 2 code ++ Buf.le_bytes 2 size ++ body)%list,
            written v st)) /\
  (forall name,
      type (tag st) = TypeName name ->
      0 <= STRUCT env <= 65535 -> 0 <= structure_handle template <= 65535 ->
      generateWriteMessageRequest env v size st
      = Ok (MessageRouter_build env WRITE_TAG (get_path st)
              (Buf.le_bytes 2 (STRUCT env) ++ Buf.le_bytes 2 (structure_handle template)
                 ++ Buf.le_bytes 2 size ++ body)%list,
            written v st)).
Proof.
  intros Hbit Ht Hbody Hsize.
  rewrite generateWrite_written.
  assert (Hty : type (tag (written v st)) = type (tag st)) by (destruct v; reflexivity).
  assert (Hbi : bitIndex (tag (written v st)) = None) by (destruct v; exact Hbit).
  assert (Hpa : path (tag (written v st)) = path (tag st)) by (destruct v; reflexivity).
  assert (Ht' : getTemplate (written v st) = Ok template) by (destruct v; exact Ht).
  unfold generateWriteMessageRequest. cbv zeta. rewrite Hty, Hbi, Ht', Hpa.
  unfold get_value in Hbody. unfold get_path.
  split.
  - intros code -> Hc. cbn [mbind result_bind default from_option id].
    rewrite (header_4 code size Hc Hsize). cbn [mbind result_bind].
    rewrite Hbody. cbn. rewrite <- ?app_assoc. reflexivity.
  - intros name -> Hs Hh. cbn [mbind result_bind].
    rewrite (header_6 _ _ size Hs Hh Hsize). cbn [mbind result_bind].
    rewrite Hbody. cbn. rewrite <- ?app_assoc. reflexivity.
Qed.

(** X19.  [generateReadMessageRequest] sends the read size as a 16-bit
    little-endian word.  A size that is given and not zero becomes the
    tag's read size and stays: the next request without a size is the same
    request.  A read size outside 0 .. 65535 throws a RangeError. *)
Theorem read_request_remembers_size (size : option Z) (st : State) :
  let n := match size with
           | Some k => if k =? 0 then read_size st else k
           | None => read_size st
           end in
  (0 <= n <= 65535 ->
   exists st',
     generateReadMessageRequest env size st
     = Ok (MessageRouter_build env READ_TAG (get_path st) (Buf.le_bytes 2 n), st') /\
     read_size st' = n /\ tag st' = tag st /\ timestamp st' = timestamp st /\
     generateReadMessageRequest env None st'
     = Ok (MessageRouter_build env READ_TAG (get_path st) (Buf.le_bytes 2 n), st')) /\
  (~ 0 <= n <= 65535 ->
   generateReadMessageRequest env size st = Throw RangeError).
Proof.
  intros n.
  assert (Hgen : forall st0,
             generateReadMessageRequest env None st0
             = (buf ← Buf.writeUInt 2 (read_size st0) (Some 0) (Buf.alloc 2);
                mret (MessageRouter_build env READ_TAG (path (tag st0)) buf, st0)))
    by reflexivity.
  assert (Hw : forall k, 0 <= k <= 65535 ->
             Buf.writeUInt 2 k (Some 0) (Buf.alloc 2) = Ok (Buf.le_bytes 2 k)).
  { intros k Hk. unfold Buf.writeUInt. change (Buf.umax 2) with 65535.
    rewrite check_range_in by assumption. reflexivity. }
  assert (Hout : forall k, ~ 0 <= k <= 65535 ->
             Buf.writeUInt 2 k (Some 0) (Buf.alloc 2) = Throw RangeError).
  { intros k Hk. unfold Buf.writeUInt. change (Buf.umax 2) with 65535.
    now rewrite check_range_out. }
  assert (Hsame : forall st0,
             0 <= read_size st0 <= 65535 ->
             generateReadMessageRequest env None st0
             = Ok (MessageRouter_build env READ_TAG (get_path st0)
                     (Buf.le_bytes 2 (read_size st0)), st0)).
  { intros st0 H0. rewrite Hgen, (Hw _ H0). reflexivity. }
  subst n.
  destruct size as [k|]; [destruct (Z.eqb_spec k 0) as [->|Hk]|].
  - split.
    + intros Hn. exists st. repeat split; try reflexivity; now apply Hsame.
    + intros Hn. change (generateReadMessageRequest env (Some 0) st)
        with (generateReadMessageRequest env None st).
      now rewrite Hgen, (Hout _ Hn).
  - set (st1 := {| tag := tag st; read_size := k; error := error st;
                   timestamp := timestamp st; instance := instance st;
                   keepAlive := keepAlive st |}).
    assert (Hk1 : generateReadMessageRequest env (Some k) st
                  = (buf ← Buf.writeUInt 2 k (Some 0) (Buf.alloc 2);
                     mret (MessageRouter_build env READ_TAG (path (tag st)) buf, st1))).
    { unfold generateReadMessageRequest.
      destruct (Z.eqb_spec k 0); [contradiction|]. reflexivity. }
    split.
    + intros Hn. exists st1. rewrite Hk1, (Hw _ Hn).
      repeat split; try reflexivity. now apply (Hsame st1).
    + intros Hn. now rewrite Hk1, (Hout _ Hn).
  - split.
    + intros Hn. exists st. repeat split; try reflexivity; now apply Hsame.
    + intros Hn. now rewrite Hgen, (Hout _ Hn).
Qed.

End RequestFacts.

(** ** The constructor *)

Section ConstructorResults.

Import Tag TagSpec.

Local Open Scope string_scope.
Local Open Scope Z_scope.

Variable env : Env.

Lemma round_to_double_nonneg z : 0 <= z -> 0 <= Num.round_to_double z.
Proof.
  intros Hz. destruct (Z.lt_ge_cases z (2 ^ 53)) as [Hs|Hl].
  - now rewrite round_small.
  - destruct (round_shape z Hl) as (m & e & He & Hm & ->).
    apply Z.mul_nonneg_nonneg; [lia|apply Z.pow_nonneg; lia].
Qed.

Lemma parseInt_nonneg token : Num.is_integer token = true -> 0 <= Num.parseInt token.
Proof.
  intros H. apply is_integer_spec in H. destruct H as [_ H].
  apply round_to_double_nonneg, decimal_value_nonneg, H.
Qed.

(** X20.  The constructor returns a tag exactly when the name is a valid
    tag name, the datatype is null, a name or a known type code, the
    keep-alive is not negative and, if the name ends in a numeric member,
    the datatype is not BIT_STRING and that number is at most 31. *)
Theorem constructor_succeeds_exactly_when (now : Z) (tagname : string)
    (program : option string) (datatype : Datatype) (keepAlive : Z) :
  (exists st, new env now tagname program datatype keepAlive = Ok st) <->
  (isValidTagname tagname = true /\ acceptable env datatype /\ 0 <= keepAlive /\
   (isBitIndex tagname = true ->
    datatype <> TypeCode (BIT_STRING env) /\
    exists token, last (memArr_of tagname) = Some token /\ Num.parseInt token <= 31)).
Proof.
  split.
  - intros [st H]. destruct (new_inv env _ _ _ _ _ _ H)
      as (pathArr & Hv & Hd & Hk & Hp & _).
    split; [exact Hv|]. split; [exact Hd|]. split; [exact Hk|].
    intros Hbi.
    destruct (isBitIndex_last env tagname Hbi) as (token & Hm & Hi & Hl & _ & Hbs).
    assert (Hne : datatype <> TypeCode (BIT_STRING env)).
    { intros ->. unfold parse_address in Hp.
      rewrite Hbs, Hbi, Z.eqb_refl in Hp. discriminate Hp. }
    split; [exact Hne|].
    exists token. split; [exact Hm|].
    rewrite (parse_bit_index env tagname datatype token Hne Hbi Hl) in Hp.
    destruct (Z.ltb_spec 31 (Num.parseInt token)); [|lia].
    rewrite orb_true_r in Hp. discriminate Hp.
  - intros (Hv & Hd & Hk & Hbit).
    assert (Hp : exists r, parse_address env tagname datatype = Ok r).
    { destruct (isBitIndex tagname) eqn:Hbi.
      - destruct (Hbit eq_refl) as (Hne & token & Hm & Hle).
        destruct (isBitIndex_last env tagname Hbi) as (token' & Hm' & Hi & Hl & _).
        rewrite Hm in Hm'. injection Hm' as <-.
        rewrite (parse_bit_index env tagname datatype token Hne Hbi Hl).
        pose proof (parseInt_nonneg token Hi).
        destruct (Z.ltb_spec (Num.parseInt token) 0); [lia|].
        destruct (Z.ltb_spec 31 (Num.parseInt token)); [lia|].
        cbn [orb]. eauto.
      - unfold parse_address. rewrite Hbi, andb_false_r.
        destruct (isBitString env tagname datatype); eauto. }
    destruct Hp as [[pathArr bitIndex] Hp].
    destruct (new_ok env now tagname program datatype keepAlive pathArr bitIndex
                Hv Hd Hk Hp) as (st & Hst & _).
    eauto.
Qed.

(** X21.  The bit index of a tag that was built is none or a number from 0
    to 31, and it is none exactly when neither bit rule applies to the
    address: no numeric last member, and not a BIT_STRING with a numeric
    last segment. *)
Theorem bit_index_is_within_a_word (now : Z) (tagname : string)
    (program : option string) (datatype : Datatype) (keepAlive : Z) (st : State) :
  new env now tagname program datatype keepAlive = Ok st ->
  (forall b, get_bitIndex st = Some b -> 0 <= b <= 31) /\
  (get_bitIndex st = None <->
   isBitIndex tagname = false /\ isBitString env tagname datatype = false).
Proof.
  intros H. destruct (new_inv env _ _ _ _ _ _ H) as (pathArr & _ & _ & _ & Hp & _).
  split.
  - intros b Hb. rewrite Hb in Hp.
    exact (parse_address_bitIndex_range env _ _ _ _ Hp).
  - revert Hp. unfold parse_address.
    destruct (isBitString env tagname datatype), (isBitIndex tagname); cbn [andb];
      try discriminate.
    + intros [= _ <-]. split; [discriminate|]. intros [_ [=]].
    + destruct (_ || _); [discriminate|]. intros [= _ <-].
      split; [discriminate|]. intros [[=] _].
    + intros [= _ <-]. split; auto.
Qed.

Lemma byte_of_inj a b :
  0 <= a < 256 -> 0 <= b < 256 -> Buf.byte_of a = Buf.byte_of b -> a = b.
Proof.
  intros Ha Hb H. apply (f_equal Buf.u8) in H.
  rewrite !u8_byte_of, !Z.mod_small in H by lia. exact H.
Qed.

Lemma new_instance now tagname program datatype keepAlive st :
  new env now tagname program datatype keepAlive = Ok st ->
  get_instance_id st = hash env (instance_input st).
Proof.
  unfold new.
  destruct (negb (isValidTagname tagname)); [discriminate|].
  destruct (match datatype with TypeCode code => negb (isValidTypeCode env code)
                           | _ => false end); [discriminate|].
  destruct (keepAlive <? 0); [discriminate|].
  destruct (parse_address env tagname datatype) as [[pathArr bitIndex]|]; [|discriminate].
  cbn [mbind result_bind]. unfold Buf.writeInt.
  destruct (Buf.check_range _ _ (default 32 bitIndex)) as [x|] eqn:Hx; [|discriminate].
  apply check_range_inv in Hx. destruct Hx as [-> _].
  cbn [mbind result_bind mret result_ret]. intros [= <-]. reflexivity.
Qed.

(** X22.  The instance id is the digest of the path followed by one byte
    for the bit index, 32 when there is none.  For two tags that were
    built these bytes are the same exactly when the paths and the bit
    indexes are: the keep-alive, the time and the name as given play no
    part, and a bit index is never confused with its absence. *)
Theorem instance_id_names_path_and_bit
    (now1 now2 : Z) (tagname1 tagname2 : string) (program1 program2 : option string)
    (datatype1 datatype2 : Datatype) (keepAlive1 keepAlive2 : Z) (st1 st2 : State) :
  new env now1 tagname1 program1 datatype1 keepAlive1 = Ok st1 ->
  new env now2 tagname2 program2 datatype2 keepAlive2 = Ok st2 ->
  get_instance_id st1 = hash env (instance_input st1) /\
  get_instance_id st2 = hash env (instance_input st2) /\
  (instance_input st1 = instance_input st2 <->
   get_path st1 = get_path st2 /\ get_bitIndex st1 = get_bitIndex st2).
Proof.
  intros H1 H2. split; [exact (new_instance _ _ _ _ _ _ H1)|].
  split; [exact (new_instance _ _ _ _ _ _ H2)|].
  assert (Hrange : forall now tagname program datatype keepAlive st b,
             new env now tagname program datatype keepAlive = Ok st ->
             get_bitIndex st = Some b -> 0 <= b <= 31).
  { intros now tagname program datatype keepAlive st b H Hb.
    destruct (new_inv env _ _ _ _ _ _ H) as (pathArr & _ & _ & _ & Hp & _).
    rewrite Hb in Hp. exact (parse_address_bitIndex_range env _ _ _ _ Hp). }
  pose proof (fun b => Hrange _ _ _ _ _ _ b H1) as Hb1.
  pose proof (fun b => Hrange _ _ _ _ _ _ b H2) as Hb2.
  unfold instance_input. split.
  - intros H. apply app_inj_tail in H. destruct H as [Hp Hb]. split; [exact Hp|].
    destruct (get_bitIndex st1) as [b1|], (get_bitIndex st2) as [b2|];
      cbn [default from_option id] in Hb;
      try specialize (Hb1 _ eq_refl); try specialize (Hb2 _ eq_refl);
      apply byte_of_inj in Hb; try lia; congruence.
  - intros [-> ->]. reflexivity.
Qed.

End ConstructorResults.

(** ** Responses *)

Section ResponseFacts.

Import Tag TagSpec.

Local Open Scope string_scope.
Local Open Scope Z_scope.

Variable env : Env.
Variable STRING : Z.
Variable deserialize : Template -> Buffer -> result Json.Value.

Lemma shl_one_31 k : 0 <= k < 31 -> JS.shl 1 k = 2 ^ k.
Proof.
  intros Hk. unfold JS.shl. rewrite (ToInt32_small 1) by lia.
  rewrite Z.mod_small by lia. rewrite Z.shiftl_1_l.
  apply ToInt32_small.
  assert (0 < 2 ^ k) by (apply Z.pow_pos_nonneg; lia).
  assert (2 ^ k <= 2 ^ 30) by (apply Z.pow_le_mono_r; lia). lia.
Qed.

Lemma sign_bit_32 x :
  - 2 ^ 31 <= x < 2 ^ 31 ->
  Z.testbit x 31 = (x <? 0) /\ Z.land x (- 2 ^ 31) = if x <? 0 then - 2 ^ 31 else 0.
Proof.
  intros Hx.
  assert (Hq : x / 2 ^ 31 = if x <? 0 then -1 else 0).
  { destruct (Z.ltb_spec x 0).
    - symmetry. apply (Z.div_unique x (2 ^ 31) (-1) (x + 2 ^ 31)); lia.
    - apply Z.div_small. lia. }
  split.
  - rewrite <- (Z.add_0_l 31), <- Z.shiftr_spec, Z.shiftr_div_pow2, Hq by lia.
    destruct (x <? 0); reflexivity.
  - change (- 2 ^ 31) with (Z.lnot (Z.ones 31)).
    rewrite <- Z.ldiff_land, Z.ldiff_ones_r, Z.shiftr_div_pow2, Hq by lia.
    destruct (x <? 0); reflexivity.
Qed.

(** [(word & (1 << bitIndex)) === 0 ? false : true] on a 32-bit integer
    is its bit [bitIndex] in two's complement. *)
Lemma bit_of_testbit x b :
  - 2 ^ 31 <= x < 2 ^ 31 -> 0 <= b <= 31 ->
  bit_of x b = Json.Bool (Z.testbit x b).
Proof.
  intros Hx Hb. unfold bit_of, JS.and. f_equal. rewrite (ToInt32_small x) by lia.
  destruct (Z.eq_dec b 31) as [->|Hne].
  - change (JS.ToInt32 (JS.shl 1 31)) with (- 2 ^ 31).
    destruct (sign_bit_32 x Hx) as [-> ->]. destruct (x <? 0); reflexivity.
  - rewrite shl_one_31 by lia.
    assert (0 < 2 ^ b) by (apply Z.pow_pos_nonneg; lia).
    assert (2 ^ b <= 2 ^ 30) by (apply Z.pow_le_mono_r; lia).
    rewrite ToInt32_small, land_pow2 by lia.
    destruct (Z.testbit x b); [|reflexivity].
    destruct (Z.eqb_spec (2 ^ b) 0); [lia|reflexivity].
Qed.

(** A field of [n] bits read as a signed integer: its bits, the top one
    repeated above it. *)
Lemma signed_bits n u b :
  0 < n -> 0 <= u < 2 ^ n -> 0 <= b ->
  Z.testbit (Buf.signed n u) b = Z.testbit u (if b <? n then b else n - 1).
Proof.
  intros Hn Hu Hb. unfold Buf.signed.
  assert (Hp : 2 ^ n = 2 * 2 ^ (n - 1)).
  { replace n with (Z.succ (n - 1)) at 1 by lia. apply Z.pow_succ_r. lia. }
  assert (Htop : Z.testbit u (n - 1) = negb (u <? 2 ^ (n - 1))).
  { rewrite Z.testbit_odd, Z.shiftr_div_pow2 by lia.
    destruct (Z.ltb_spec u (2 ^ (n - 1))).
    - rewrite Z.div_small by lia. reflexivity.
    - replace (u / 2 ^ (n - 1)) with 1; [reflexivity|].
      apply (Z.div_unique u (2 ^ (n - 1)) 1 (u - 2 ^ (n - 1))); lia. }
  destruct (Z.ltb_spec b n) as [Hlt|Hge].
  - destruct (Z.ltb_spec u (2 ^ (n - 1))); [reflexivity|].
    rewrite <- (Z.mod_pow2_bits_low (u - 2 ^ n) n b) by lia.
    rewrite <- (Z.mod_pow2_bits_low u n b) by lia.
    f_equal. replace (u - 2 ^ n) with (u + (-1) * 2 ^ n) by lia.
    apply Z.mod_add. lia.
  - rewrite Htop. destruct (Z.ltb_spec u (2 ^ (n - 1))) as [Hs|Hl]; cbn [negb].
    + destruct (Z.eq_dec u 0) as [->|Hnz]; [apply Z.bits_0|].
      apply Z.bits_above_log2; [lia|].
      apply Z.log2_lt_pow2; [lia|].
      assert (2 ^ (n - 1) <= 2 ^ b) by (apply Z.pow_le_mono_r; lia). lia.
    + apply Z.bits_above_log2_neg; [lia|].
      destruct (Z.eq_dec (Z.pred (- (u - 2 ^ n))) 0) as [->|Hnz]; [cbn; lia|].
      apply Z.log2_lt_pow2; [lia|].
      assert (2 ^ (n - 1) <= 2 ^ b) by (apply Z.pow_le_mono_r; lia). lia.
Qed.

Lemma signed_range n u :
  0 < n <= 32 -> 0 <= u < 2 ^ n -> - 2 ^ 31 <= Buf.signed n u < 2 ^ 31.
Proof.
  intros Hn Hu. unfold Buf.signed.
  assert (Hp : 2 ^ n = 2 * 2 ^ (n - 1)).
  { replace n with (Z.succ (n - 1)) at 1 by lia. apply Z.pow_succ_r. lia. }
  assert (2 ^ (n - 1) <= 2 ^ 31) by (apply Z.pow_le_mono_r; lia).
  destruct (Z.ltb_spec u (2 ^ (n - 1))); lia.
Qed.

(** The head of a response: the type code, then the rest. *)
Lemma read_type code (rest : Buffer) :
  0 <= code < 65536 ->
  Buf.readUInt 2 (Buf.le_bytes 2 code ++ rest)%list (Some 0) = Ok code.
Proof.
  intros Hc. unfold Buf.readUInt.
  assert (Hr : Buf.read_bytes (Buf.le_bytes 2 code ++ rest)%list (Some 0) 2
               = Ok (Buf.le_bytes 2 code)).
  { unfold Buf.read_bytes.
    replace (Buf.in_bounds _ (Some 0) 2) with true
      by (symmetry; apply in_bounds_spec; cbn [Buf.le_bytes app length]; lia).
    reflexivity. }
  rewrite Hr. cbn [mbind result_bind mret result_ret].
  rewrite le_value_le_bytes. f_equal. apply Z.mod_small. cbn. lia.
Qed.

Lemma read_field code (field rest : Buffer) n :
  length field = n ->
  Buf.read_bytes (Buf.le_bytes 2 code ++ field ++ rest)%list (Some 2) n = Ok field.
Proof.
  intros Hn. unfold Buf.read_bytes.
  replace (Buf.in_bounds _ (Some 2) n) with true
    by (symmetry; apply in_bounds_spec;
        cbn [Buf.le_bytes app length]; rewrite length_app; lia).
  cbn [default from_option id Buf.le_bytes app Z.to_nat Pos.to_nat Pos.iter_op Nat.add drop].
  f_equal. subst n. apply take_app_length.
Qed.

Lemma emitted now v (st : State) :
  (let '(st', events) := set_controller_value now v st in (st', Ok events))
  = (fst (set_controller_value now v st), Ok (snd (set_controller_value now v st))).
Proof. destruct (set_controller_value now v st). reflexivity. Qed.

Lemma check_type_same code (st : State) :
  type (tag st) = TypeCode code -> code <> 0 ->
  check_type env STRING code st = Ok st.
Proof.
  intros Hty Hc. unfold check_type. rewrite Hty.
  destruct code; [contradiction|..]; now rewrite Z.eqb_refl.
Qed.

(** X23.  A response to a bit-indexed tag of type SINT, INT, DINT or
    BIT_STRING is read as one bit of the integer that follows the type
    code, little-endian over the type's width: bit [bitIndex] when it lies
    inside the width, and the top bit of the field, its sign, when the bit
    index is past the width.  That boolean goes through the setter of
    [controller_value], which updates the tag and emits the events. *)
Theorem bit_read_returns_the_bit (now : Z) (st : State) (b : Z) (w : nat) (code : Z)
    (field rest : Buffer) :
  bitIndex (tag st) = Some b -> 0 <= b <= 31 ->
  type (tag st) = TypeCode code -> code <> 0 -> 0 <= code < 65536 ->
  mask_bytes env (TypeCode code) = Some w ->
  length field = w ->
  let v := Json.Bool (Z.testbit (Buf.le_value field)
                        (if b <? 8 * Z.of_nat w then b else 8 * Z.of_nat w - 1)) in
  parseReadMessageResponse env STRING deserialize now
    (Buf.le_bytes 2 code ++ field ++ rest)%list st
  = (fst (set_controller_value now v st), Ok (snd (set_controller_value now v st))).
Proof.
  intros Hbit Hb Hty Hc Hcode Hw Hlen v. subst v.
  unfold parseReadMessageResponse.
  rewrite (read_type code _ Hcode), (check_type_same code st Hty Hc).
  cbv zeta. rewrite Hbit, Hty.
  assert (Hfield : forall n, n = w -> (0 < n <= 4)%nat ->
             Buf.readInt n (Buf.le_bytes 2 code ++ field ++ rest)%list (Some 2)
             = Ok (Buf.signed (8 * Z.of_nat n) (Buf.le_value field)) /\
             bit_of (Buf.signed (8 * Z.of_nat n) (Buf.le_value field)) b
             = Json.Bool (Z.testbit (Buf.le_value field)
                            (if b <? 8 * Z.of_nat w then b else 8 * Z.of_nat w - 1))).
  { intros n -> Hn. unfold Buf.readInt. rewrite (read_field code field rest w Hlen).
    split; [reflexivity|].
    pose proof (le_value_range field) as Hr. rewrite Hlen in Hr.
    rewrite bit_of_testbit; [|apply signed_range; lia|lia].
    rewrite signed_bits by lia. reflexivity. }
  cbn [mask_bytes] in Hw.
  destruct (Z.eqb_spec code (SINT env)) as [Hs|Hs].
  { injection Hw as Hw. destruct (Hfield 1%nat Hw ltac:(lia)) as [Hr Hv].
    rewrite bool_decide_eq_true_2 by congruence.
    rewrite Hr, Hv. apply emitted. }
  rewrite bool_decide_eq_false_2 by congruence.
  destruct (Z.eqb_spec code (INT env)) as [Hi|Hi].
  { injection Hw as Hw. destruct (Hfield 2%nat Hw ltac:(lia)) as [Hr Hv].
    rewrite bool_decide_eq_true_2 by congruence.
    rewrite Hr, Hv. apply emitted. }
  rewrite bool_decide_eq_false_2 by congruence.
  destruct ((code =? DINT env) || (code =? BIT_STRING env)) eqn:Hd; [|discriminate Hw].
  injection Hw as Hw. destruct (Hfield 4%nat Hw ltac:(lia)) as [Hr Hv].
  replace (bool_decide (Some code = Some (DINT env))
           || bool_decide (Some code = Some (BIT_STRING env))) with true.
  2:{ symmetry. apply orb_true_iff in Hd. apply orb_true_iff.
      destruct Hd as [Hd|Hd]; apply Z.eqb_eq in Hd; [left|right];
        apply bool_decide_eq_true_2; congruence. }
  rewrite Hr, Hv. apply emitted.
Qed.

(** X24.  A response that cannot be accepted leaves the tag as it was and
    emits nothing: one shorter than two bytes (RangeError); one whose type
    code differs from the tag's type code; and, for a tag typed by a
    structure name, one whose type code is neither STRUCT nor STRING. *)
Theorem refused_response_changes_nothing (now : Z) (st : State) (data : Buffer) :
  ((length data < 2)%nat ->
   parseReadMessageResponse env STRING deserialize now data st = (st, Throw RangeError)) /\
  (forall code read rest,
      type (tag st) = TypeCode code -> code <> 0 ->
      0 <= read < 65536 -> read <> code ->
      data = (Buf.le_bytes 2 read ++ rest)%list ->
      parseReadMessageResponse env STRING deserialize now data st
      = (st, Throw (Error "Type Read Mismatch"))) /\
  (forall name read rest,
      type (tag st) = TypeName name -> name <> "" ->
      0 <= read < 65536 -> read <> STRUCT env -> read <> STRING ->
      data = (Buf.le_bytes 2 read ++ rest)%list ->
      parseReadMessageResponse env STRING deserialize now data st
      = (st, Throw (Error "Type Read Mismatch"))).
Proof.
  split; [|split].
  - intros Hl. unfold parseReadMessageResponse, Buf.readUInt, Buf.read_bytes.
    replace (Buf.in_bounds data (Some 0) 2) with false; [reflexivity|].
    symmetry. apply not_true_is_false. rewrite in_bounds_spec. lia.
  - intros code read rest Hty Hc Hr Hne ->. unfold parseReadMessageResponse.
    rewrite (read_type read _ Hr). unfold check_type. rewrite Hty.
    destruct code; [contradiction|..];
      match goal with
      | |- context [?a =? read] =>
          destruct (Z.eqb_spec a read); [congruence|reflexivity]
      end.
  - intros name read rest Hty Hn Hr Hs Hg ->. unfold parseReadMessageResponse.
    rewrite (read_type read _ Hr). unfold check_type. rewrite Hty.
    destruct name; [contradiction|].
    destruct (Z.eqb_spec read (STRUCT env)); [contradiction|].
    destruct (Z.eqb_spec read STRING); [contradiction|]. reflexivity.
Qed.

Lemma set_controller_value_type now v (st : State) :
  type (tag (fst (set_controller_value now v st))) = type (tag st).
Proof.
  destruct (set_controller_value_cases now v st) as [->|(e & _ & ->)]; [reflexivity|].
  destruct (stage_write (tag st)); reflexivity.
Qed.

(** X25.  A tag built without a datatype takes the type code of the first
    response it is given, whether or not the rest of the response can be
    used: after the call the tag's type is the code read. *)
Theorem untyped_tag_adopts_the_type_read (now : Z) (st : State) (read : Z) (rest : Buffer) :
  type (tag st) = TypeNull -> 0 <= read < 65536 ->
  type (tag (fst (parseReadMessageResponse env STRING deserialize now
                    (Buf.le_bytes 2 read ++ rest)%list st)))
  = TypeCode read.
Proof.
  intros Hty Hr. unfold parseReadMessageResponse.
  rewrite (read_type read _ Hr). unfold check_type. rewrite Hty.
  set (st1 := set_tag (with_type (TypeCode read)) st).
  assert (H1 : type (tag st1) = TypeCode read) by reflexivity.
  cbv zeta.
  repeat match goal with
         | |- context [let '(_, _) := set_controller_value ?n ?v ?s in _] =>
             rewrite (emitted n v s)
         | |- type (tag (fst (match ?x with _ => _ end))) = _ => destruct x
         | |- type (tag (fst (if ?x then _ else _))) = _ => destruct x
         end;
    cbn [fst]; rewrite ?set_controller_value_type; try exact H1; reflexivity.
Qed.

Lemma Datatype_eqb_refl ty : Datatype_eqb ty ty = true.
Proof. destruct ty; cbn; [reflexivity|apply Z.eqb_refl|apply String.eqb_refl]. Qed.

(** X26.  The structure handle a write sends is the one the last read
    brought: after a STRUCT response with handle [handle] to a tag typed by
    a structure name, a write request for that tag carries the STRUCT code,
    [handle] and the element count, then the serialized value. *)
Theorem structure_handle_read_is_written (now : Z) (st : State) (name : string)
    (c : Controller) table template (handle : Z) (body : Buffer) (v : Json.Value)
    (size : Z) (newValue : Json.Value) (wbody : Buffer) :
  bitIndex (tag st) = None ->
  type (tag st) = TypeName name -> name <> "" ->
  controller (tag st) = Some c -> templates c = Some table ->
  table (TypeName name) = Some template ->
  0 <= STRUCT env < 65536 -> 0 <= handle < 65536 -> 0 <= size <= 65535 ->
  deserialize {| structure_handle := handle; serialize := serialize template |} body
  = Ok v ->
  let response := (Buf.le_bytes 2 (STRUCT env) ++ Buf.le_bytes 2 handle ++ body)%list in
  let st' := fst (parseReadMessageResponse env STRING deserialize now response st) in
  serialize template (get_value (written newValue st')) = Ok wbody ->
  generateWriteMessageRequest env newValue size st'
  = Ok (MessageRouter_build env WRITE_TAG (get_path st)
          (Buf.le_bytes 2 (STRUCT env) ++ Buf.le_bytes 2 handle
             ++ Buf.le_bytes 2 size ++ wbody)%list,
        written newValue st').
Proof.
  intros Hbit Hty Hname Hc Ht Htab Hs Hh Hsize Hde response st'.
  set (template' := {| structure_handle := handle; serialize := serialize template |}) in *.
  set (st1 := set_tag (with_controller
                         (Some (set_structure_handle (TypeName name) handle c))) st).
  assert (Hparse : parseReadMessageResponse env STRING deserialize now response st
                   = (fst (set_controller_value now v st1),
                      Ok (snd (set_controller_value now v st1)))).
  { unfold parseReadMessageResponse, response.
    rewrite (read_type (STRUCT env) _ Hs). unfold check_type. rewrite Hty.
    destruct name as [|ch name']; [contradiction|].
    rewrite Z.eqb_refl. cbn [negb andb]. cbv zeta. rewrite Hbit.
    unfold getTemplate. rewrite Hc, Ht, Hty, Htab.
    unfold Buf.readUInt.
    rewrite (read_field (STRUCT env) (Buf.le_bytes 2 handle) body 2 eq_refl).
    cbn [mbind result_bind mret result_ret].
    rewrite le_value_le_bytes, Z.mod_small by (cbn; lia).
    cbn [fmap option_fmap option_map].
    change (drop 4 (Buf.le_bytes 2 (STRUCT env) ++ Buf.le_bytes 2 handle ++ body)%list)
      with body.
    fold template'. rewrite Hde. fold st1. apply emitted. }
  subst st'. rewrite Hparse. cbn [fst].
  set (st2 := fst (set_controller_value now v st1)).
  destruct (set_controller_value_identity now v st1)
    as ((_ & _ & Hb2 & Hp2 & Hty2 & Hc2 & _) & _). fold st2 in Hb2, Hp2, Hty2, Hc2.
  intros Hbody.
  assert (Hget : getTemplate st2 = Ok template').
  { unfold getTemplate. rewrite Hc2, Hty2.
    change (type (tag st1)) with (type (tag st)).
    change (controller (tag st1))
      with (Some (set_structure_handle (TypeName name) handle c)).
    cbn [set_structure_handle templates]. rewrite Ht, Hty.
    destruct name as [|ch name']; [contradiction|].
    rewrite Htab, Datatype_eqb_refl. reflexivity. }
  assert (Hbit2 : bitIndex (tag st2) = None) by (rewrite Hb2; exact Hbit).
  assert (Hty3 : type (tag st2) = TypeName name) by (rewrite Hty2; exact Hty).
  change (path (tag st1)) with (path (tag st)) in Hp2.
  rewrite (generateWrite_struct env newValue size st2 template' wbody name
             Hbit2 Hget Hbody Hsize Hty3 ltac:(lia) ltac:(cbn; lia)).
  unfold get_path. rewrite Hp2. reflexivity.
Qed.

Lemma set_controller_value_mirrors now v (st : State) :
  mirrors st -> mirrors (fst (set_controller_value now v st)).
Proof.
  intros Hm.
  destruct (set_controller_value_cases now v st) as [H|(e & _ & Hst)].
  - rewrite H. exact Hm.
  - rewrite Hst. unfold mirrors.
    destruct (stage_write (tag st)) eqn:Hs; cbn; rewrite ?Hs; [discriminate|reflexivity].
Qed.

(** X27.  "With no write staged, the local value is the controller value"
    holds of every tag the constructor returns and is kept by [set value],
    a read ([set controller_value], [parseReadMessageResponse]),
    [unstageWriteRequest], [set name], [generateReadMessageRequest] and
    [generateWriteMessageRequest] without a value.  It is not an invariant
    of the tag: [generateWriteMessageRequest] with a value stores the value
    without staging it and leaves the controller value alone, so that after
    that call it holds only if a write was staged before or the value given
    is the controller value. *)
Theorem mirror_kept_except_by_write_request :
  (forall now tagname program datatype keepAlive st,
      new env now tagname program datatype keepAlive = Ok st -> mirrors st) /\
  (forall st, mirrors st ->
     (forall v, mirrors (set_value v st)) /\
     (forall now v, mirrors (fst (set_controller_value now v st))) /\
     (forall now data,
         mirrors (fst (parseReadMessageResponse env STRING deserialize now data st))) /\
     mirrors (unstageWriteRequest st) /\
     (forall n st', set_name n st = Ok st' -> mirrors st') /\
     (forall size msg st',
         generateReadMessageRequest env size st = Ok (msg, st') -> mirrors st') /\
     (forall size msg st',
         generateWriteMessageRequest env Json.Null size st = Ok (msg, st') -> mirrors st')) /\
  (forall st v size msg st',
      v <> Json.Null ->
      generateWriteMessageRequest env v size st = Ok (msg, st') ->
      stage_write (tag st') = stage_write (tag st) /\
      value (tag st') = v /\
      controllerValue (tag st') = controllerValue (tag st) /\
      (mirrors st' <-> (stage_write (tag st) = false -> v = controllerValue (tag st)))).
Proof.
  split; [|split].
  - intros now tagname program datatype keepAlive st H.
    destruct (new_inv env _ _ _ _ _ _ H) as (_ & _ & _ & _ & _ & _ & _ & _ & _ & _ & Hv & Hc & _).
    unfold mirrors. unfold get_value, get_controller_value in Hv, Hc. congruence.
  - intros st Hm. repeat apply conj.
    + intros v. unfold mirrors. cbn. discriminate.
    + intros now v. now apply set_controller_value_mirrors.
    + intros now data. unfold parseReadMessageResponse.
      destruct (Buf.readUInt 2 data (Some 0)) as [read|]; [|exact Hm].
      destruct (check_type env STRING read st) as [st1|] eqn:Hck; [|exact Hm].
      assert (Hm1 : mirrors st1).
      { revert Hck. unfold check_type.
        repeat match goal with
               | |- context [match ?x with _ => _ end] => destruct x
               end; intros [= <-]; exact Hm. }
      cbv zeta.
      repeat match goal with
             | |- context [let '(_, _) := set_controller_value ?n ?v ?s in _] =>
                 rewrite (emitted n v s)
             | |- mirrors (fst (match ?x with _ => _ end)) => destruct x
             | |- mirrors (fst (if ?x then _ else _)) => destruct x
             end;
        cbn [fst]; try apply set_controller_value_mirrors; exact Hm1.
    + unfold mirrors. reflexivity.
    + intros n st'. unfold set_name. destruct (negb (isValidTagname n)); [discriminate|].
      intros [= <-]. exact Hm.
    + intros size msg st'. unfold generateReadMessageRequest.
      destruct size as [k|]; [destruct (negb (k =? 0))|];
        (destruct (Buf.writeUInt 2 _ (Some 0) (Buf.alloc 2)); [|discriminate]);
        cbn; intros [= _ <-]; exact Hm.
    + intros size msg st' H. apply generateWrite_state in H. now subst st'.
  - intros st v size msg st' Hv H. rewrite generateWrite_written in H.
    apply generateWrite_state in H. subst st'.
    unfold mirrors. destruct v; try congruence; cbn; tauto.
Qed.

End ResponseFacts.

(** ** Tag names *)

Section TagnameFacts.

Import Regex RegexSpec Tag TagSpec TextSpec.

Local Open Scope string_scope.

Lemma test_Void s : test Void s = false.
Proof. induction s; [reflexivity|exact IHs]. Qed.

Lemma alphabet_seq r s c : alphabet (seq r s) c = true -> alphabet r c || alphabet s c = true.
Proof.
  destruct r, s; cbn; intros H; rewrite ?orb_false_r in *; try exact H; try discriminate H;
    now rewrite ?H, ?orb_true_r.
Qed.

Lemma alphabet_alt r s c : alphabet (alt r s) c = true -> alphabet r c || alphabet s c = true.
Proof.
  destruct r, s; cbn; intros H; rewrite ?orb_false_r in *; try exact H; try discriminate H;
    now rewrite ?H, ?orb_true_r.
Qed.

Lemma alphabet_deriv c' r : forall c,
  alphabet (deriv c r) c' = true -> alphabet r c' = true.
Proof.
  induction r as [| |p|r IHr s IHs|r IHr s IHs|r IHr]; intros c; cbn [deriv alphabet].
  - discriminate.
  - discriminate.
  - destruct (p c); discriminate.
  - destruct (nullable r).
    + intros H. apply alphabet_alt in H. apply orb_true_iff in H. destruct H as [H|H].
      * apply alphabet_seq in H. apply orb_true_iff in H. apply orb_true_iff.
        destruct H as [H|H]; [left; exact (IHr c H)|right; exact H].
      * apply orb_true_iff. right. exact (IHs c H).
    + intros H. apply alphabet_seq in H. apply orb_true_iff in H. apply orb_true_iff.
      destruct H as [H|H]; [left; exact (IHr c H)|right; exact H].
  - intros H. apply alphabet_alt in H. apply orb_true_iff in H. apply orb_true_iff.
    destruct H as [H|H]; [left; exact (IHr c H)|right; exact (IHs c H)].
  - intros H. apply alphabet_seq in H. apply orb_true_iff in H.
    destruct H as [H|H]; [exact (IHr c H)|exact H].
Qed.

Lemma deriv_outside r : forall c, alphabet r c = false -> deriv c r = Void.
Proof.
  induction r as [| |p|r IHr s IHs|r IHr s IHs|r IHr]; intros c; cbn [deriv alphabet];
    try reflexivity.
  - now intros ->.
  - intros H. apply orb_false_iff in H. destruct H as [Hr Hs].
    rewrite (IHr c Hr), (IHs c Hs). destruct (nullable r); reflexivity.
  - intros H. apply orb_false_iff in H. destruct H as [Hr Hs].
    now rewrite (IHr c Hr), (IHs c Hs).
  - intros H. now rewrite (IHr c H).
Qed.

(** A string the pattern matches is made of characters its classes accept. *)
Lemma test_alphabet s : forall r,
  test r s = true -> all_chars (alphabet r) s = true.
Proof.
  unfold all_chars.
  induction s as [|c s IH]; intros r H; [reflexivity|].
  cbn [test] in H. cbn [list_ascii_of_string forallb].
  destruct (alphabet r c) eqn:Hc.
  - cbn [andb]. specialize (IH _ H). rewrite forallb_forall in IH |- *.
    intros x Hx. exact (alphabet_deriv x r c (IH x Hx)).
  - rewrite (deriv_outside r c Hc), test_Void in H. discriminate H.
Qed.

Ltac each_ascii c :=
  destruct c as [[|] [|] [|] [|] [|] [|] [|] [|]]; vm_compute; reflexivity.

Lemma pattern_alphabet c :
  alphabet userRegex c || alphabet moduleRegex c = true -> tag_char c = true.
Proof.
  assert (H : implb (alphabet userRegex c || alphabet moduleRegex c) (tag_char c) = true)
    by each_ascii c.
  intros Ha. rewrite Ha in H. exact H.
Qed.

Lemma pattern_start c :
  name_start c = false ->
  deriv c userRegex = Void /\ deriv c moduleRegex = Void.
Proof.
  assert (H : name_start c || (is_Void (deriv c userRegex) && is_Void (deriv c moduleRegex))
              = true)
    by each_ascii c.
  intros Hs. rewrite Hs in H. cbn [orb] in H. apply andb_true_iff in H.
  destruct H as [H1 H2].
  destruct (deriv c userRegex); try discriminate H1.
  destruct (deriv c moduleRegex); try discriminate H2. auto.
Qed.

Lemma valid_tagname_start tagname :
  isValidTagname tagname = true ->
  exists c rest, tagname = String c rest /\ name_start c = true.
Proof.
  unfold isValidTagname. intros H.
  assert (Ht : test userRegex tagname || test moduleRegex tagname = true).
  { destruct (test userRegex tagname); [reflexivity|].
    destruct (test moduleRegex tagname); [reflexivity|discriminate H]. }
  clear H. destruct tagname as [|c rest]; [discriminate Ht|].
  exists c, rest. split; [reflexivity|].
  destruct (name_start c) eqn:Hs; [reflexivity|].
  cbn [test] in Ht. destruct (pattern_start c Hs) as [E1 E2].
  rewrite E1, E2, !test_Void in Ht. discriminate Ht.
Qed.

(** X28.  A name that [isValidTagname] accepts is not empty, starts with a
    letter or an underscore, holds only letters, digits, underscores and
    the characters [: . [ ] ,], and none of its segments between those
    punctuation characters is longer than 40 characters. *)
Theorem valid_tagname_shape (tagname : string) :
  isValidTagname tagname = true ->
  (exists c rest, tagname = String c rest /\ name_start c = true) /\
  all_chars tag_char tagname = true /\
  Forall (fun segment => (String.length segment <= 40)%nat)
         (split segment_separator tagname).
Proof.
  unfold isValidTagname.
  destruct (test userRegex tagname) eqn:Hu; cbn [negb andb].
  2: destruct (test moduleRegex tagname) eqn:Hm; cbn [negb]; [|discriminate].
  all: destruct (Z.ltb_spec 0 (Z.of_nat (length (List.filter
         (fun segment => (40 <? Z.of_nat (String.length segment))%Z)
         (split segment_separator tagname))))) as [|Hlen]; [discriminate|];
       intros _.
  all: assert (Hseg : Forall (fun segment => (String.length segment <= 40)%nat)
                        (split segment_separator tagname)).
  1,3: rewrite Forall_forall; intros x Hx;
       destruct (Z.ltb_spec 40 (Z.of_nat (String.length x))) as [Hl|Hl]; [|lia];
       exfalso;
       assert (Hin : In x (List.filter
                             (fun segment => (40 <? Z.of_nat (String.length segment))%Z)
                             (split segment_separator tagname)))
         by (apply filter_In; split;
             [now apply list_elem_of_In|now apply Z.ltb_lt]);
       destruct (List.filter _ _); [contradiction|cbn in Hlen; lia].
  - repeat split; [| |exact Hseg].
    + destruct tagname as [|c rest]; [discriminate Hu|].
      exists c, rest. split; [reflexivity|].
      destruct (name_start c) eqn:Hs; [reflexivity|].
      cbn [test] in Hu. destruct (pattern_start c Hs) as [E _].
      rewrite E, test_Void in Hu. discriminate Hu.
    + apply test_alphabet in Hu. unfold all_chars in *.
      rewrite forallb_forall in Hu |- *. intros x Hx.
      apply pattern_alphabet. now rewrite (Hu x Hx).
  - repeat split; [| |exact Hseg].
    + destruct tagname as [|c rest]; [discriminate Hm|].
      exists c, rest. split; [reflexivity|].
      destruct (name_start c) eqn:Hs; [reflexivity|].
      cbn [test] in Hm. destruct (pattern_start c Hs) as [_ E].
      rewrite E, test_Void in Hm. discriminate Hm.
    + apply test_alphabet in Hm. unfold all_chars in *.
      rewrite forallb_forall in Hm |- *. intros x Hx.
      apply pattern_alphabet. rewrite (Hm x Hx). apply orb_true_r.
Qed.

End TagnameFacts.

(** ** The program of a tag *)

Section ProgramFacts.

Import Regex RegexSpec Tag TagSpec TextSpec.

Local Open Scope string_scope.
Local Open Scope Z_scope.

Variable env : Env.

Lemma sep_free_app sep a b :
  sep_free sep (a ++ b) = sep_free sep a && sep_free sep b.
Proof.
  unfold sep_free. induction a as [|c a IH]; [reflexivity|].
  cbn [append list_ascii_of_string forallb]. now rewrite IH, andb_assoc.
Qed.

Lemma sep_free_weaken (sep sep' : ascii -> bool) s :
  (forall c, sep' c = true -> sep c = true) ->
  sep_free sep s = true -> sep_free sep' s = true.
Proof.
  intros Hs. unfold sep_free. rewrite !forallb_forall. intros H x Hx.
  specialize (H x Hx). destruct (sep' x) eqn:E; [|reflexivity].
  now rewrite (Hs x E) in H.
Qed.

Lemma name_start_facts c :
  name_start c = true -> Num.is_digit c = false /\ member_separator c = false.
Proof.
  assert (H : implb (name_start c) (negb (Num.is_digit c) && negb (member_separator c))
              = true)
    by (destruct c as [[|] [|] [|] [|] [|] [|] [|] [|]]; vm_compute; reflexivity).
  intros Hs. rewrite Hs in H. cbn [implb] in H. apply andb_true_iff in H.
  destruct H as [H1 H2]. now apply negb_true_iff in H1, H2.
Qed.

Lemma last_cons_nonempty {A} (x : A) l : l <> [] -> last (x :: l) = last l.
Proof. destruct l; [contradiction|reflexivity]. Qed.

Lemma removelast_cons_nonempty {A} (x : A) l :
  l <> [] -> removelast (x :: l) = x :: removelast l.
Proof. destruct l; [contradiction|reflexivity]. Qed.

Section Scoped.

Variables (p n : string).
Hypothesis Hp : sep_free member_separator p = true.
Hypothesis Hne : p <> "".
Hypothesis Hn : isValidTagname n = true.

Let scoped : string := "Program:" ++ p ++ "." ++ n.
Let pre : string := "Program:" ++ p.

Lemma scoped_eq : scoped = pre ++ String "." n.
Proof. unfold scoped, pre. now rewrite append_assoc. Qed.

Lemma pre_sep_free : sep_free member_separator pre = true.
Proof. unfold pre. rewrite sep_free_app, Hp. reflexivity. Qed.

Lemma pathArr_scoped : pathArr_of scoped = pre :: pathArr_of n.
Proof.
  unfold pathArr_of. rewrite scoped_eq, split_app by reflexivity.
  rewrite (split_sep_free _ _ pre_sep_free), List.filter_app.
  cbn [List.filter app]. unfold pre at 1. cbn [append String.length]. reflexivity.
Qed.

Lemma memArr_scoped : memArr_of scoped = pre :: memArr_of n.
Proof.
  unfold memArr_of. rewrite scoped_eq, split_app by reflexivity.
  rewrite (split_sep_free (Ascii.eqb ".") pre); [reflexivity|].
  apply (sep_free_weaken member_separator); [|exact pre_sep_free].
  intros c Hc. apply Ascii.eqb_eq in Hc. now subst c.
Qed.

Lemma pathArr_valid_nonempty : pathArr_of n <> [].
Proof.
  destruct (valid_tagname_start n Hn) as (c & rest & -> & Hs).
  destruct (name_start_facts c Hs) as [_ Hsep].
  unfold pathArr_of. cbn [split]. rewrite Hsep.
  destruct (split member_separator rest); cbn; discriminate.
Qed.

Lemma isBitIndex_scoped : isBitIndex scoped = isBitIndex n.
Proof.
  unfold isBitIndex. rewrite memArr_scoped.
  pose proof (split_nonempty (Ascii.eqb ".") n) as Hm. fold (memArr_of n) in Hm.
  unfold last_is_integer. rewrite (last_cons_nonempty pre _ Hm).
  destruct (memArr_of n) as [|m [|m' ms]] eqn:E; [contradiction| |].
  2:{ replace (1 <? Z.of_nat (length (pre :: m :: m' :: ms))) with true
        by (symmetry; apply Z.ltb_lt; cbn [length]; lia).
      replace (1 <? Z.of_nat (length (m :: m' :: ms))) with true
        by (symmetry; apply Z.ltb_lt; cbn [length]; lia).
      reflexivity. }
  (* one member: the name itself, which is no number *)
  cbn [length last]. change (1 <? Z.of_nat 1) with false.
  change (1 <? Z.of_nat 2) with true. cbn [andb].
  assert (m = n).
  { unfold memArr_of in E.
    destruct (split_last (Ascii.eqb ".") n) as [[_ H]|(a & c & piece & _ & _ & _ & H)].
    - rewrite H in E. now injection E.
    - rewrite E in H. pose proof (split_nonempty (Ascii.eqb ".") a) as Ha.
      destruct (split (Ascii.eqb ".") a); [contradiction|]. destruct l; discriminate H. }
  subst m. destruct (valid_tagname_start n Hn) as (c & rest & -> & Hs).
  destruct (name_start_facts c Hs) as [Hd _].
  unfold Num.is_integer, Num.all_digits. cbn. now rewrite Hd.
Qed.

Lemma isBitString_scoped datatype :
  isBitString env scoped datatype = isBitString env n datatype.
Proof.
  unfold isBitString, last_is_integer. rewrite pathArr_scoped.
  now rewrite (last_cons_nonempty pre _ pathArr_valid_nonempty).
Qed.

(** The address in a program parses as the address alone, behind the
    program's segment. *)
Lemma parse_address_scoped datatype :
  parse_address env scoped datatype
  = match parse_address env n datatype with
    | Ok (pathArr, bitIndex) => Ok (pre :: pathArr, bitIndex)
    | Throw e => Throw e
    end.
Proof.
  unfold parse_address. rewrite isBitIndex_scoped, isBitString_scoped, pathArr_scoped.
  rewrite (last_cons_nonempty pre _ pathArr_valid_nonempty).
  rewrite (removelast_cons_nonempty pre _ pathArr_valid_nonempty).
  destruct (isBitString env n datatype && isBitIndex n); [reflexivity|].
  destruct (isBitString env n datatype); [reflexivity|].
  destruct (isBitIndex n); [|reflexivity].
  destruct (_ || _); reflexivity.
Qed.

End Scoped.

(** X29.  The program of a tag can be given in the name or as the
    [program] argument: [new Tag("Program:p.name")] and
    [new Tag("name", "p")], when both are built, have the same path, the
    same bit index, the same instance id and the same [name].  ([p] is not
    empty and holds none of [. [ ] ,].) *)
Theorem program_in_name_or_argument (now1 now2 : Z) (p n : string) (datatype : Datatype)
    (keepAlive1 keepAlive2 : Z) (st1 st2 : State) :
  sep_free member_separator p = true -> p <> "" ->
  new env now1 ("Program:" ++ p ++ "." ++ n) None datatype keepAlive1 = Ok st1 ->
  new env now2 n (Some p) datatype keepAlive2 = Ok st2 ->
  get_path st1 = get_path st2 /\
  get_bitIndex st1 = get_bitIndex st2 /\
  get_instance_id st1 = get_instance_id st2 /\
  get_name st1 = get_name st2.
Proof.
  intros Hp Hne H1 H2.
  pose proof (new_instance env _ _ _ _ _ _ H1) as Hi1.
  pose proof (new_instance env _ _ _ _ _ _ H2) as Hi2.
  destruct (new_inv env _ _ _ _ _ _ H1)
    as (l1 & _ & _ & _ & Hp1 & Hpath1 & Hn1 & Hpr1 & _).
  destruct (new_inv env _ _ _ _ _ _ H2)
    as (l2 & Hv & _ & _ & Hp2 & Hpath2 & Hn2 & Hpr2 & _).
  rewrite (parse_address_scoped p n Hp Hv datatype), Hp2 in Hp1.
  injection Hp1 as <- Hb.
  assert (Hpath : get_path st1 = get_path st2).
  { rewrite Hpath1, Hpath2. unfold path_of, program_segment.
    destruct (String.eqb_spec p ""); [contradiction|]. reflexivity. }
  split; [exact Hpath|]. split; [now symmetry|]. split.
  - rewrite Hi1, Hi2. unfold instance_input. now rewrite Hpath, Hb.
  - unfold get_name. now rewrite Hpr1, Hpr2, Hn1, Hn2.
Qed.

End ProgramFacts.

(** ** Plain names *)

Section PlainNames.

Import Regex RegexSpec Tag TagSpec TextSpec.

Local Open Scope string_scope.
Local Open Scope Z_scope.

Variable env : Env.

Lemma matches_Void s : ~ matches Void s.
Proof. intros H. inversion H. Qed.

Lemma matches_seq r s a : matches (Seq r s) a -> matches (seq r s) a.
Proof.
  intros H. inversion H as [| |r' s' x y Hx Hy| | | |]; subst.
  destruct r; try (destruct s; try exact H; exfalso; exact (matches_Void _ Hy)).
  - exfalso. exact (matches_Void _ Hx).
  - inversion Hx; subst. destruct s; exact Hy.
Qed.

Lemma matches_alt r s a : matches (Alt r s) a -> matches (alt r s) a.
Proof.
  intros H. inversion H as [| | |r' s' x Hx|r' s' x Hx| |]; subst.
  - destruct r; try (destruct s; first [exact H | exact Hx]).
    exfalso. exact (matches_Void _ Hx).
  - destruct s; try (destruct r; first [exact H | exact Hx]).
    exfalso. exact (matches_Void _ Hx).
Qed.

Lemma matches_nullable r : matches r "" -> nullable r = true.
Proof.
  remember "" as e eqn:He. intros H.
  induction H as [|p c Hp|r s a b Ha IHa Hb IHb|r s a Ha IHa|r s a Ha IHa|r|r a b Ha IHa Hb IHb];
    cbn [nullable]; try reflexivity; try discriminate He.
  - destruct a; [|discriminate He]. cbn in He. now rewrite IHa, IHb.
  - now rewrite IHa.
  - rewrite IHa by assumption. apply orb_true_r.
Qed.

Lemma matches_deriv r c s : matches r (String c s) -> matches (deriv c r) s.
Proof.
  remember (String c s) as cs eqn:He. intros H. revert c s He.
  induction H as [|p c' Hp|r s' a b Ha IHa Hb IHb|r s' a Ha IHa|r s' a Ha IHa|r|r a b Ha IHa Hb IHb];
    intros c s He; cbn [deriv].
  - discriminate He.
  - injection He as -> <-. rewrite Hp. constructor.
  - destruct a as [|x a].
    + cbn in He. subst b. rewrite (matches_nullable r Ha).
      apply matches_alt, MAltR. now apply IHb.
    + cbn in He. injection He as -> <-.
      assert (Hs : matches (seq (deriv c r) s') (a ++ b))
        by (apply matches_seq, MSeq; [now apply IHa|exact Hb]).
      destruct (nullable r); [apply matches_alt, MAltL|]; exact Hs.
  - apply matches_alt, MAltL. now apply IHa.
  - apply matches_alt, MAltR. now apply IHa.
  - discriminate He.
  - destruct a as [|x a].
    + cbn in He. now apply IHb.
    + cbn in He. injection He as -> <-.
      apply matches_seq, MSeq; [now apply IHa|exact Hb].
Qed.

(** What a pattern matches, [test] accepts. *)
Lemma matches_test s : forall r, matches r s -> test r s = true.
Proof.
  induction s as [|c s IH]; intros r H; cbn [test].
  - now apply matches_nullable.
  - apply IH. now apply matches_deriv.
Qed.

Lemma alnum_star rest :
  forallb is_alnum (list_ascii_of_string rest) = true ->
  matches (Star (Seq (opt (lit "_")) (Class is_alnum))) rest.
Proof.
  induction rest as [|c rest IH]; cbn [list_ascii_of_string forallb]; intros H.
  - constructor.
  - apply andb_true_iff in H. destruct H as [Hc Hr].
    change (String c rest) with (("" ++ String c "") ++ rest).
    apply MStarS; [|now apply IH].
    apply MSeq; [apply MAltR; constructor|now constructor].
Qed.

Lemma append_empty_r (s : string) : s ++ "" = s.
Proof. induction s as [|c s IH]; cbn; [reflexivity|now rewrite IH]. Qed.

Lemma plain_name_matches s : plain_name s = true -> matches userRegex s.
Proof.
  destruct s as [|c rest]; [discriminate|]. cbn [plain_name]. intros H.
  apply andb_true_iff in H. destruct H as [Hc Hr].
  assert (Hname : matches nameRegex (String c rest)).
  { unfold nameRegex. change (String c rest) with ((("" ++ String c "")) ++ rest).
    apply MSeq; [|now apply alnum_star].
    apply MAltL. apply MSeq; [apply MAltR; constructor|now constructor]. }
  assert (E : String c rest = "" ++ (String c rest ++ ("" ++ ("" ++ ""))))
    by (cbn [append]; now rewrite append_empty_r).
  rewrite E. unfold userRegex.
  apply MSeq; [apply MAltR; constructor|].
  apply MSeq; [exact Hname|].
  apply MSeq; [apply MAltR; constructor|].
  apply MSeq; [constructor|apply MAltR; constructor].
Qed.

Lemma alnum_not_separator c :
  is_alnum c = true -> segment_separator c = false /\ member_separator c = false /\
                       Ascii.eqb "." c = false.
Proof.
  assert (H : implb (is_alnum c)
                (negb (segment_separator c) && negb (member_separator c)
                 && negb (Ascii.eqb "." c)) = true)
    by (destruct c as [[|] [|] [|] [|] [|] [|] [|] [|]]; vm_compute; reflexivity).
  intros Ha. rewrite Ha in H. cbn [implb] in H.
  apply andb_true_iff in H. destruct H as [H H3].
  apply andb_true_iff in H. destruct H as [H1 H2].
  now apply negb_true_iff in H1, H2, H3.
Qed.

Lemma plain_name_sep_free s :
  plain_name s = true ->
  sep_free segment_separator s = true /\ sep_free member_separator s = true /\
  sep_free (Ascii.eqb ".") s = true.
Proof.
  destruct s as [|c rest]; [discriminate|]. cbn [plain_name]. intros H.
  apply andb_true_iff in H. destruct H as [Hc Hr].
  assert (Hall : forallb is_alnum (list_ascii_of_string (String c rest)) = true).
  { cbn [list_ascii_of_string forallb]. unfold is_alnum at 1. now rewrite Hc, Hr. }
  unfold sep_free. rewrite forallb_forall in Hall.
  repeat split; rewrite forallb_forall; intros x Hx;
    destruct (alnum_not_separator x (Hall x Hx)) as (H1 & H2 & H3);
    now rewrite ?H1, ?H2, ?H3.
Qed.

(** X30.  A plain identifier, a letter followed by letters and digits, of
    at most 40 characters is a valid tag name, and the constructor builds
    its tag for any datatype it accepts and any keep-alive that is not
    negative: the tag has no bit index and its path is the one segment
    built from the name, after the program's segment if there is one. *)
Theorem plain_names_are_valid (now : Z) (tagname : string) (program : option string)
    (datatype : Datatype) (keepAlive : Z) :
  plain_name tagname = true -> (String.length tagname <= 40)%nat ->
  isValidTagname tagname = true /\
  (acceptable env datatype -> 0 <= keepAlive ->
   exists st,
     new env now tagname program datatype keepAlive = Ok st /\
     get_bitIndex st = None /\
     get_path st = path_of env program [tagname] /\
     get_name st = match program with
                   | None => tagname
                   | Some p => "Program:" ++ p ++ "." ++ tagname
                   end).
Proof.
  intros Hp Hlen.
  destruct (plain_name_sep_free tagname Hp) as (Hs1 & Hs2 & Hs3).
  assert (Hv : isValidTagname tagname = true).
  { unfold isValidTagname.
    rewrite (matches_test _ _ (plain_name_matches tagname Hp)). cbn [negb andb].
    rewrite (split_sep_free _ _ Hs1). cbn [List.filter].
    destruct (Z.ltb_spec 40 (Z.of_nat (String.length tagname))); [lia|reflexivity]. }
  split; [exact Hv|]. intros Hd Hk.
  assert (Hne : tagname <> "") by (destruct tagname; [discriminate Hp|discriminate]).
  assert (Hint : Num.is_integer tagname = false).
  { destruct tagname as [|c rest]; [reflexivity|].
    cbn [plain_name] in Hp. apply andb_true_iff in Hp. destruct Hp as [Hc _].
    assert (Hdig : Num.is_digit c = false).
    { assert (H : implb (is_letter c) (negb (Num.is_digit c)) = true)
        by (destruct c as [[|] [|] [|] [|] [|] [|] [|] [|]]; vm_compute; reflexivity).
      rewrite Hc in H. now apply negb_true_iff in H. }
    unfold Num.is_integer, Num.all_digits. cbn. now rewrite Hdig. }
  assert (Hpath : pathArr_of tagname = [tagname]).
  { unfold pathArr_of. rewrite (split_sep_free _ _ Hs2). cbn [List.filter].
    destruct tagname; [contradiction|reflexivity]. }
  assert (Hparse : parse_address env tagname datatype = Ok ([tagname], None)).
  { unfold parse_address, isBitIndex, isBitString, memArr_of, last_is_integer.
    rewrite Hpath, (split_sep_free _ _ Hs3). cbn [last length]. rewrite Hint.
    rewrite !andb_false_r. destruct datatype; rewrite ?andb_false_r; reflexivity. }
  destruct (new_ok env now tagname program datatype keepAlive [tagname] None
              Hv Hd Hk Hparse) as (st & Hst & Hb & Hpa).
  exists st. repeat split; try assumption.
  destruct (new_inv env _ _ _ _ _ _ Hst) as (_ & _ & _ & _ & _ & _ & Hn & Hpr & _).
  unfold get_name. rewrite Hn, Hpr. reflexivity.
Qed.

End PlainNames.

(** ** The further properties at concrete inputs *)

Section AtomicsFieldInstances.

Import Atomics AtomicsSpec.

(** INT 5 written at bit offset 16 of four bytes. *)
Lemma serialize_stays_in_field_witness :
  fits INT (buffer_of INT (Some [x01; x02; x03; x04])) (offset_of (Some 16)) /\
  length [x01; x02; x05; x00] = length (buffer_of INT (Some [x01; x02; x03; x04])) /\
  same_outside (offset_of (Some 16) / 8) (width INT)
    (buffer_of INT (Some [x01; x02; x03; x04])) [x01; x02; x05; x00].
Proof.
  apply (serialize_stays_in_field INT (VInt 5) (Some [x01; x02; x03; x04]) (Some 16));
    [discriminate|reflexivity].
Defined.

(** SINT read one byte past a one-byte buffer, and at the unaligned bit
    offset 13 of the same buffer: both return 0.  INT at bit 16 of a
    four-byte buffer returns. *)
Lemma deserialize_needs_field_witness :
  deserialize (templates SINT) (Some [x07]) (Some 8) = Ok (VInt 0) /\
  deserialize (templates SINT) (Some [x07]) (Some 13) = Ok (VInt 0) /\
  (exists v, deserialize (templates INT) (Some [x01; x02; x03; x04]) (Some 16) = Ok v).
Proof.
  destruct deserialize_needs_field as (_ & Hfit & Hend).
  split; [apply (Hend (Some [x07]) (Some 8)); cbn; lia|].
  split; [apply (Hend (Some [x07]) (Some 13)); cbn; lia|].
  apply (Hfit INT (Some [x01; x02; x03; x04]) (Some 16)); [discriminate|].
  cbn. repeat split; try reflexivity; lia.
Defined.

(** INT 40000 is refused. *)
Lemma out_of_range_is_refused_witness :
  serialize (templates INT) (VInt 40000) None None = Throw RangeError.
Proof.
  apply (out_of_range_is_refused INT (VInt 40000) None None);
    [exact I|discriminate|discriminate|cbn; lia].
Defined.

(** Bit 7 of the byte 0x81. *)
Lemma BOOL_deserialize_reads_bit_witness :
  deserialize (templates BOOL) (Some [x81; x00]) (Some 7)
  = Ok (VBool (bit_at [x81; x00] 7)).
Proof.
  apply (BOOL_deserialize_reads_bit [x81; x00] 7). cbn. lia.
Defined.

(** INT -2 is the bytes fe ff: the second byte. *)
Lemma integers_are_little_endian_witness :
  [xfe; xff] !! (Z.to_nat (offset_of None / 8) + 1)%nat
  = Some (Buf.byte_of (-2 / 256 ^ Z.of_nat 1)).
Proof.
  apply (integers_are_little_endian INT (-2) None None [xfe; xff] eq_refl eq_refl 1%nat).
  cbn. lia.
Defined.

(** LINT {low: 1, high: -1}: the first byte of each word. *)
Lemma low_word_comes_first_witness :
  [x01; x00; x00; x00; xff; xff; xff; xff] !! (Z.to_nat (offset_of None / 8) + 0)%nat
  = Some (Buf.byte_of (1 / 256 ^ Z.of_nat 0)) /\
  [x01; x00; x00; x00; xff; xff; xff; xff] !! (Z.to_nat (offset_of None / 8) + 4 + 0)%nat
  = Some (Buf.byte_of (-1 / 256 ^ Z.of_nat 0)).
Proof.
  apply (low_word_comes_first LINT 1 (-1) None None
           [x01; x00; x00; x00; xff; xff; xff; xff] (or_introl eq_refl) eq_refl 0%nat).
  lia.
Defined.

(** INT -2 read as UINT is 65534. *)
Lemma same_width_reinterpretation_witness :
  deserialize (templates UINT) (Some [xfe; xff]) None
  = Ok (VInt (-2 mod 2 ^ (8 * Z.of_nat (width INT)))).
Proof.
  apply (proj1 (same_width_reinterpretation INT UINT (-2) None None [xfe; xff] eq_refl));
    [cbn; lia|reflexivity].
Defined.

(** DINT written behind an INT. *)
Lemma disjoint_fields_are_independent_witness :
  deserialize (templates INT) (Some [x05; x00; x07; x00; x00; x00]) (Some 0)
  = deserialize (templates INT) (Some [x05; x00; x00; x00; x00; x00]) (Some 0).
Proof.
  apply (disjoint_fields_are_independent INT DINT (VInt 7)
           [x05; x00; x00; x00; x00; x00] [x05; x00; x07; x00; x00; x00] 0 16);
    [discriminate|discriminate
    |cbn [fits width]; repeat split; try reflexivity; apply Z.leb_le; reflexivity
    |reflexivity|left; apply Z.leb_le; reflexivity].
Defined.

(** Bits 3 and 12 of two bytes. *)
Lemma BOOL_writes_commute_witness :
  exists d1 d2 d12,
    serialize (templates BOOL) (VBool true) (Some [x00; x00]) (Some 3) = Ok d1 /\
    serialize (templates BOOL) (VBool true) (Some [x00; x00]) (Some 12) = Ok d2 /\
    serialize (templates BOOL) (VBool true) (Some d1) (Some 12) = Ok d12 /\
    (3 <> 12 -> serialize (templates BOOL) (VBool true) (Some d2) (Some 3) = Ok d12) /\
    (3 = 12 -> d12 = d2).
Proof.
  apply (BOOL_writes_commute true true [x00; x00] 3 12); cbn; lia.
Defined.

End AtomicsFieldInstances.

Section TagRequestInstances.

Import Tag TagSpec Sample.

Local Open Scope string_scope.
Local Open Scope Z_scope.

Local Abbreviation num z := (Json.Num (Json.Finite z)).

(** Setting bit 3 of the INT tag. *)
Lemma bit_write_sets_one_bit_witness :
  generateWriteMessageRequest env (Json.Bool true) 1 int_bit_3
  = Ok (MessageRouter_build env READ_MODIFY_WRITE_TAG (get_path int_bit_3)
          (Buf.le_bytes 2 (Z.of_nat 2)
             ++ Buf.le_bytes 2
                  (if Json.truthy (get_value (written (Json.Bool true) int_bit_3))
                   then 2 ^ 3 else 0)
             ++ Buf.le_bytes 2
                  (if Json.truthy (get_value (written (Json.Bool true) int_bit_3))
                   then 2 ^ (8 * Z.of_nat 2) - 1
                   else 2 ^ (8 * Z.of_nat 2) - 1 - 2 ^ 3))%list,
        written (Json.Bool true) int_bit_3).
Proof.
  apply (bit_write_sets_one_bit env (Json.Bool true) 1 int_bit_3 3 2);
    [reflexivity|reflexivity|lia].
Defined.

(** Setting bit 20 of the SINT tag. *)
Lemma bit_write_beyond_width_witness :
  generateWriteMessageRequest env (Json.Bool true) 1 sint_bit_20
  = if Json.truthy (get_value (written (Json.Bool true) sint_bit_20))
    then Throw RangeError
    else Ok (MessageRouter_build env READ_MODIFY_WRITE_TAG (get_path sint_bit_20)
               (Buf.le_bytes 2 (Z.of_nat 1) ++ Buf.le_bytes 1 0
                  ++ Buf.le_bytes 1 (2 ^ (8 * Z.of_nat 1) - 1))%list,
             written (Json.Bool true) sint_bit_20).
Proof.
  apply (bit_write_beyond_width env (Json.Bool true) 1 sint_bit_20 20 1);
    [reflexivity|reflexivity|lia].
Defined.

(** A write of true to bit 3 of the INT tag. *)
Lemma write_request_does_not_stage_witness :
  exists msg st',
    generateWriteMessageRequest env (Json.Bool true) 1 int_bit_3 = Ok (msg, st') /\
    st' = written (Json.Bool true) int_bit_3 /\
    get_value st' = Json.Bool true /\
    get_write_ready st' = get_write_ready int_bit_3 /\
    get_controller_value st' = get_controller_value int_bit_3 /\
    timestamp st' = timestamp int_bit_3 /\
    same_identity int_bit_3 st' /\
    generateWriteMessageRequest env Json.Null 1 st' = Ok (msg, st').
Proof.
  eexists. eexists. split; [reflexivity|].
  apply (write_request_does_not_stage env (Json.Bool true) 1 int_bit_3). reflexivity.
Defined.

(** A write of 7 to the DINT tag. *)
Lemma template_write_layout_witness :
  (forall code,
      type (tag dint_tag) = TypeCode code -> 0 <= code <= 65535 ->
      generateWriteMessageRequest env (num 7) 1 dint_tag
      = Ok (MessageRouter_build env WRITE_TAG (get_path dint_tag)
              (Buf.le_bytes 2 code ++ Buf.le_bytes 2 1 ++ [x07; x00; x00; x00])%list,
            written (num 7) dint_tag)) /\
  (forall name,
      type (tag dint_tag) = TypeName name ->
      0 <= STRUCT env <= 65535 -> 0 <= structure_handle dint_template <= 65535 ->
      generateWriteMessageRequest env (num 7) 1 dint_tag
      = Ok (MessageRouter_build env WRITE_TAG (get_path dint_tag)
              (Buf.le_bytes 2 (STRUCT env) ++ Buf.le_bytes 2 (structure_handle dint_template)
                 ++ Buf.le_bytes 2 1 ++ [x07; x00; x00; x00])%list,
            written (num 7) dint_tag)).
Proof.
  apply (template_write_layout env (num 7) 1 dint_tag dint_template [x07; x00; x00; x00]);
    [reflexivity|reflexivity|reflexivity|lia].
Defined.

(** The tag [tag.3]. *)
Lemma bit_index_is_within_a_word_witness :
  (forall b, get_bitIndex int_bit_3 = Some b -> 0 <= b <= 31) /\
  (get_bitIndex int_bit_3 = None <->
   isBitIndex "tag.3" = false /\ isBitString env "tag.3" (TypeCode 195) = false).
Proof.
  apply (bit_index_is_within_a_word env 0 "tag.3" None (TypeCode 195) 0 int_bit_3).
  reflexivity.
Defined.

(** The tags [tag] and [tag.3]. *)
Lemma instance_id_names_path_and_bit_witness :
  get_instance_id (fresh 0) = hash env (instance_input (fresh 0)) /\
  get_instance_id int_bit_3 = hash env (instance_input int_bit_3) /\
  (instance_input (fresh 0) = instance_input int_bit_3 <->
   get_path (fresh 0) = get_path int_bit_3 /\
   get_bitIndex (fresh 0) = get_bitIndex int_bit_3).
Proof.
  apply (instance_id_names_path_and_bit env 0 0 "tag" "tag.3" None None
           TypeNull (TypeCode 195) 0 0 (fresh 0) int_bit_3); reflexivity.
Defined.

(** Bit 3 of the INT tag, read from the word 0x0008. *)
Lemma bit_read_returns_the_bit_witness :
  parseReadMessageResponse env STRING deserialize 5
    (Buf.le_bytes 2 195 ++ [x08; x00] ++ [])%list int_bit_3
  = (fst (set_controller_value 5
            (Json.Bool (Z.testbit (Buf.le_value [x08; x00])
                          (if 3 <? 8 * Z.of_nat 2 then 3 else 8 * Z.of_nat 2 - 1)))
            int_bit_3),
     Ok (snd (set_controller_value 5
                (Json.Bool (Z.testbit (Buf.le_value [x08; x00])
                              (if 3 <? 8 * Z.of_nat 2 then 3 else 8 * Z.of_nat 2 - 1)))
                int_bit_3))).
Proof.
  apply (bit_read_returns_the_bit env STRING deserialize 5 int_bit_3 3 2 195 [x08; x00] []);
    [reflexivity|lia|reflexivity|lia|lia|reflexivity|reflexivity].
Defined.

(** The fresh tag given a DINT response. *)
Lemma untyped_tag_adopts_the_type_read_witness :
  type (tag (fst (parseReadMessageResponse env STRING deserialize 5
                    (Buf.le_bytes 2 196 ++ [x07; x00; x00; x00])%list (fresh 0))))
  = TypeCode 196.
Proof.
  apply (untyped_tag_adopts_the_type_read env STRING deserialize 5 (fresh 0) 196
           [x07; x00; x00; x00]); [reflexivity|lia].
Defined.

(** The structure tag reads the handle 0x1234 and then writes. *)
Lemma structure_handle_read_is_written_witness :
  generateWriteMessageRequest env Json.Null 1
    (fst (parseReadMessageResponse env STRING deserialize 5
            (Buf.le_bytes 2 (STRUCT env) ++ Buf.le_bytes 2 4660 ++ [x09])%list udt_tag))
  = Ok (MessageRouter_build env WRITE_TAG (get_path udt_tag)
          (Buf.le_bytes 2 (STRUCT env) ++ Buf.le_bytes 2 4660
             ++ Buf.le_bytes 2 1 ++ [x2a])%list,
        written Json.Null
          (fst (parseReadMessageResponse env STRING deserialize 5
                  (Buf.le_bytes 2 (STRUCT env) ++ Buf.le_bytes 2 4660 ++ [x09])%list
                  udt_tag))).
Proof.
  refine (structure_handle_read_is_written env STRING deserialize 5 udt_tag "UDT" plc
            _ udt_template 4660 [x09] (num 9) 1 Json.Null [x2a]
            _ _ _ _ _ _ _ _ _ _ _);
    try reflexivity; try discriminate; cbn; lia.
Defined.

(** The name [tag.3]. *)
Lemma valid_tagname_shape_witness :
  (exists c rest, "tag.3" = String c rest /\ name_start c = true) /\
  TextSpec.all_chars tag_char "tag.3" = true /\
  Forall (fun segment => (String.length segment <= 40)%nat)
         (Regex.split segment_separator "tag.3").
Proof.
  apply (valid_tagname_shape "tag.3"). reflexivity.
Defined.

(** [Program:Main.tag] and [tag] in the program [Main]. *)
Lemma program_in_name_or_argument_witness :
  exists st1 st2,
    new env 0 "Program:Main.tag" None TypeNull 0 = Ok st1 /\
    new env 0 "tag" (Some "Main") TypeNull 0 = Ok st2 /\
    get_path st1 = get_path st2 /\
    get_bitIndex st1 = get_bitIndex st2 /\
    get_instance_id st1 = get_instance_id st2 /\
    get_name st1 = get_name st2.
Proof.
  eexists. eexists. split; [reflexivity|]. split; [reflexivity|].
  apply (program_in_name_or_argument env 0 0 "Main" "tag" TypeNull 0 0);
    [reflexivity|discriminate|reflexivity|reflexivity].
Defined.

(** Reads of 5 at 0 ms and at 1000 ms with a keep-alive of one second. *)
Lemma keep_alive_counts_from_last_event_witness :
  let st1 := fst (set_controller_value 0 (num 5) (fresh 1)) in
  if (0 <? keepAlive (fresh 1)) && (keepAlive (fresh 1) * 1000 <=? 1000 - 0)
  then snd (set_controller_value 1000 (num 5) st1) = [KeepAlive] /\
       timestamp (fst (set_controller_value 1000 (num 5) st1)) = 1000
  else set_controller_value 1000 (num 5) st1 = (st1, []).
Proof.
  apply (keep_alive_counts_from_last_event (fresh 1) 0 1000 (num 5) (num 5));
    [discriminate|reflexivity].
Defined.

(** The name [tag]. *)
Lemma plain_names_are_valid_witness :
  isValidTagname "tag" = true /\
  (acceptable env TypeNull -> 0 <= 0 ->
   exists st,
     new env 0 "tag" None TypeNull 0 = Ok st /\
     get_bitIndex st = None /\
     get_path st = path_of env None ["tag"] /\
     get_name st = "tag").
Proof.
  apply (plain_names_are_valid env 0 "tag" None TypeNull 0); [reflexivity|cbn; lia].
Defined.

(** The DINT tag mirrors its controller value; once it is asked for a write
    request of 5 it no longer does. *)
Lemma mirror_kept_except_by_write_request_witness :
  mirrors dint_tag /\
  exists msg st',
    generateWriteMessageRequest env (num 5) 1 dint_tag = Ok (msg, st') /\
    get_write_ready st' = false /\
    get_value st' = num 5 /\
    get_controller_value st' = Json.Null /\
    ~ mirrors st'.
Proof.
  split; [intros _; reflexivity|].
  eexists. eexists. split; [reflexivity|].
  destruct (mirror_kept_except_by_write_request env STRING deserialize) as (_ & _ & H).
  destruct (H dint_tag (num 5) 1 _ _ ltac:(discriminate) eq_refl) as (Hs & Hv & Hc & Hm).
  split; [exact Hs|]. split; [exact Hv|]. split; [exact Hc|].
  intros Hmir. apply Hm in Hmir. specialize (Hmir eq_refl). discriminate Hmir.
Defined.

End TagRequestInstances.
